(** * SFProCursor: crawler and content pipeline

  A shallow embedding of [backend/services/content_processor.py],
  [backend/services/crawler.py] and the crawl finalisation of
  [backend/api/routes/crawls.py], with the properties of the crawl
  pipeline proved (or refuted) over it.

  Python [str] values are modelled as [string]; a character is a code
  point below 256.  Python [int] values are [Z]; counters that only
  count up from zero are [nat].  Dictionaries are [gmap], the visited
  set is a [gset].  The browser, the HTML parser and the Markdown
  converter are external libraries: they appear as environment records
  and Section variables. *)

From Stdlib Require Import ZArith String Ascii List Bool Lia Sorted Permutation.
From stdpp Require Import gmap strings list.

Import ListNotations.
Local Open Scope string_scope.
Local Open Scope Z_scope.

(* ===================================================================== *)
(** * Calls that may raise                                                *)
(* ===================================================================== *)

Module Py.

(** What a call does: it returns, or it raises an exception, kept as
    its message [str(e)]. *)
Inductive outcome (A : Type) : Type :=
| Ret (a : A)
| Raise (msg : string).
Arguments Ret {A} a.
Arguments Raise {A} msg.

#[export] Instance outcome_ret : MRet outcome := @Ret.
#[export] Instance outcome_bind : MBind outcome :=
  fun A B f x => match x with Ret a => f a | Raise e => Raise e end.

End Py.
Export Py.

(* ===================================================================== *)
(** * Python string operations                                            *)
(* ===================================================================== *)

Module PyStr.

(** [len(s)] *)
Definition len (s : string) : Z := Z.of_nat (String.length s).

(** [str.isspace] on one character, which is also the class [\s] of
    [re] on [str] patterns; for code points below 256 these are
    TAB..CR, FS..US, space, NEL and NBSP. *)
Definition isspace (c : ascii) : bool :=
  let n := nat_of_ascii c in
  ((9 <=? n) && (n <=? 13) || (28 <=? n) && (n <=? 32)
   || (n =? 133) || (n =? 160))%nat.

(** [s.startswith(p)] *)
Fixpoint startswith (s p : string) : bool :=
  match p, s with
  | EmptyString, _ => true
  | String _ _, EmptyString => false
  | String b p', String a s' => Ascii.eqb a b && startswith s' p'
  end.

Fixpoint drop (n : nat) (s : string) : string :=
  match n, s with
  | O, _ => s
  | S n', String _ s' => drop n' s'
  | S _, EmptyString => EmptyString
  end.

Fixpoint take (n : nat) (s : string) : string :=
  match n, s with
  | S n', String a s' => String a (take n' s')
  | _, _ => EmptyString
  end.

(** [s.endswith(p)] *)
Definition endswith (s p : string) : bool :=
  (String.length p <=? String.length s)%nat
  && String.eqb (drop (String.length s - String.length p) s) p.

(** Index adjustment of slices and of the [start], [end] arguments of
    [find]/[rfind]: a negative index counts from the end, the result is
    clamped to [0, len]. *)
Definition adjust (n i : Z) : Z :=
  let i := if i <? 0 then i + n else i in
  if i <? 0 then 0 else if n <? i then n else i.

(** [s[a:b]] *)
Definition slice (s : string) (a b : Z) : string :=
  let n := len s in
  let a := adjust n a in
  let b := adjust n b in
  take (Z.to_nat (b - a)) (drop (Z.to_nat a) s).

(** [s[:b]] *)
Definition slice_to (s : string) (b : Z) : string := slice s 0 b.

(** The candidates [a + k - 1, ..., a] of [rfind], highest first. *)
Fixpoint rfind_down (s sub : string) (a : Z) (k : nat) : Z :=
  match k with
  | O => -1
  | S k' =>
      if startswith (drop (Z.to_nat (a + Z.of_nat k')) s) sub
      then a + Z.of_nat k'
      else rfind_down s sub a k'
  end.

(** [s.rfind(sub, start, end)]: the highest index [i] with
    [start <= i], [i + len(sub) <= end] and [s[i:i+len(sub)] == sub],
    or [-1]. *)
Definition rfind (s sub : string) (start end_ : Z) : Z :=
  let n := len s in
  let a := adjust n start in
  let b := adjust n end_ in
  rfind_down s sub a (Z.to_nat (b - len sub - a + 1)).

Fixpoint lstrip (s : string) : string :=
  match s with
  | String a s' => if isspace a then lstrip s' else s
  | EmptyString => EmptyString
  end.

(** Removes trailing whitespace: a character is kept when something
    other than whitespace follows it. *)
Fixpoint rstrip (s : string) : string :=
  match s with
  | String a s' =>
      match rstrip s' with
      | EmptyString => if isspace a then EmptyString else String a EmptyString
      | r => String a r
      end
  | EmptyString => EmptyString
  end.

(** [s.strip()] *)
Definition strip (s : string) : string := rstrip (lstrip s).

(** [s.replace(old, new)] for a non-empty [old]: the occurrences are
    replaced from left to right, without overlap.  [skip] counts the
    characters of an occurrence still to be dropped. *)
Fixpoint replace_go (old new s : string) (skip : nat) : string :=
  match s with
  | EmptyString => EmptyString
  | String a s' =>
      match skip with
      | S k => replace_go old new s' k
      | O =>
          if startswith s old
          then new +:+ replace_go old new s' (String.length old - 1)
          else String a (replace_go old new s' O)
      end
  end.

Definition replace (s old new : string) : string := replace_go old new s O.

(** [sep.join(l)] *)
Fixpoint join (sep : string) (l : list string) : string :=
  match l with
  | [] => ""
  | [x] => x
  | x :: l' => x +:+ sep +:+ join sep l'
  end.

(** [len(s.split())]: the number of maximal runs of characters that are
    not whitespace.  [inword] tells whether the previous character
    belonged to such a run. *)
Fixpoint count_words (inword : bool) (s : string) : nat :=
  match s with
  | EmptyString => O
  | String a s' =>
      if isspace a then count_words false s'
      else if inword then count_words true s'
      else S (count_words true s')
  end.

(** [c * n] for a one-character string [c] *)
Fixpoint repeat_char (c : ascii) (n : nat) : string :=
  match n with
  | O => EmptyString
  | S n' => String c (repeat_char c n')
  end.

End PyStr.

(* ===================================================================== *)
(** * The fragment of [re] used by the Markdown post-processing            *)
(* ===================================================================== *)

Module Re.

(** A pattern is a sequence of atoms.  Every repetition in the patterns
    of this program is over a single character class, and at most one
    group is referred to by a replacement. *)
Inductive atom : Type :=
| Lit (c : ascii)                         (* a literal character *)
| Cls (p : ascii -> bool)                 (* one character of a class *)
| Rep (p : ascii -> bool) (min : nat)     (* greedy class{min,} *)
| Bol                                     (* ^ under re.MULTILINE *)
| GroupOpen                               (* ( of group 1 *)
| GroupClose.                             (* ) of group 1 *)

Definition pattern := list atom.

(** A match: the number of characters matched and the span of group 1,
    both counted from the position where the match starts. *)
Record found := { m_end : nat; g_start : nat; g_end : nat }.

Definition at_bol (prev : option ascii) : bool :=
  match prev with
  | None => true
  | Some c => Ascii.eqb c "010"%char
  end.

(** Backtracking matcher: [prev] is the character before the current
    position, [pos] the number of characters matched so far.  A
    repetition first takes as many characters as it can and gives them
    back one at a time while the rest of the pattern fails. *)
Fixpoint matches (pat : pattern) (prev : option ascii) (s : list ascii)
         (pos gs ge : nat) {struct pat} : option found :=
  match pat with
  | [] => Some {| m_end := pos; g_start := gs; g_end := ge |}
  | Lit c :: pat' =>
      match s with
      | x :: s' =>
          if Ascii.eqb x c then matches pat' (Some x) s' (S pos) gs ge else None
      | [] => None
      end
  | Cls p :: pat' =>
      match s with
      | x :: s' => if p x then matches pat' (Some x) s' (S pos) gs ge else None
      | [] => None
      end
  | Rep p min :: pat' =>
      (fix rep (prev : option ascii) (s : list ascii) (pos count : nat)
           {struct s} : option found :=
         let stop :=
           if (min <=? count)%nat then matches pat' prev s pos gs ge else None in
         match s with
         | x :: s' =>
             if p x then
               match rep (Some x) s' (S pos) (S count) with
               | Some r => Some r
               | None => stop
               end
             else stop
         | [] => stop
         end) prev s pos O
  | Bol :: pat' => if at_bol prev then matches pat' prev s pos gs ge else None
  | GroupOpen :: pat' => matches pat' prev s pos pos ge
  | GroupClose :: pat' => matches pat' prev s pos gs pos
  end.

(** A replacement template: literal text and references to group 1. *)
Inductive piece : Type :=
| Text (t : list ascii)
| Group1.

Definition expand (repl : list piece) (s : list ascii) (m : found) : list ascii :=
  flat_map (fun p =>
              match p with
              | Text t => t
              | Group1 => firstn (g_end m - g_start m) (skipn (g_start m) s)
              end) repl.

(** [re.sub]: scans from the left; at a match the replacement is
    emitted and the scan resumes after the match ([skip] counts the
    matched characters still to be passed over), elsewhere the
    character is copied.  None of the patterns of this program matches
    the empty string, so a match always consumes a character. *)
Fixpoint sub_go (pat : pattern) (repl : list piece) (prev : option ascii)
         (s : list ascii) (skip : nat) : list ascii :=
  match s with
  | [] => []
  | x :: s' =>
      match skip with
      | S k => sub_go pat repl (Some x) s' k
      | O =>
          match matches pat prev s O O O with
          | Some m =>
              match m_end m with
              | S k => expand repl s m ++ sub_go pat repl (Some x) s' k
              | O => x :: sub_go pat repl (Some x) s' O
              end
          | None => x :: sub_go pat repl (Some x) s' O
          end
      end
  end.

Definition sub (pat : pattern) (repl : list piece) (s : string) : string :=
  string_of_list_ascii (sub_go pat repl None (list_ascii_of_string s) O).

Definition chr (c : ascii) : ascii -> bool := Ascii.eqb c.
Definition text (t : string) : piece := Text (list_ascii_of_string t).

(** The length of the run of the character [c] at the start of a text. *)
Fixpoint lead (c : ascii) (l : list ascii) : nat :=
  match l with
  | x :: l' => if chr c x then S (lead c l') else O
  | [] => O
  end.

(** No run of [c] in the text is longer than two. *)
Fixpoint runs_below3 (c : ascii) (l : list ascii) : Prop :=
  match l with
  | [] => True
  | _ :: l' => (lead c l <= 2)%nat /\ runs_below3 c l'
  end.

End Re.

(* ===================================================================== *)
(** * services/content_processor.py                                       *)
(* ===================================================================== *)

Module ContentProcessor.

Definition newline : ascii := "010"%char.
Definition blank_line : string := String newline (String newline "").

(** [r'\n\s*\n\s*\n'] *)
Definition blank_lines : Re.pattern :=
  [Re.Lit newline; Re.Rep PyStr.isspace 0; Re.Lit newline; Re.Rep PyStr.isspace 0; Re.Lit newline].

(** The list-marker pattern under [re.MULTILINE]: start of a line, group 1
    of optional whitespace, one of [-], [*], [+], then a second group of
    at least one whitespace character, which the replacement ignores. *)
Definition list_marker : Re.pattern :=
  [Re.Bol; Re.GroupOpen; Re.Rep PyStr.isspace 0; Re.GroupClose;
   Re.Cls (fun c => Re.chr "-" c || Re.chr "*" c || Re.chr "+" c);
   Re.Rep PyStr.isspace 1].

(** The empty-link pattern: a bracketed text without closing bracket as
    group 1, followed by parentheses that hold only whitespace. *)
Definition empty_link : Re.pattern :=
  [Re.Lit "["; Re.GroupOpen; Re.Rep (fun c => negb (Re.chr "]" c)) 0; Re.GroupClose;
   Re.Lit "]"; Re.Lit "("; Re.Rep PyStr.isspace 0; Re.Lit ")"].

(** [r'\*{3,}'] and [r'_{3,}'] *)
Definition stars : Re.pattern := [Re.Rep (Re.chr "*") 3].
Definition underscores : Re.pattern := [Re.Rep (Re.chr "_") 3].

Definition max_chars : Z := 50000.

(** The substitutions and the trim of [_clean_markdown], up to the
    limit on the length. *)
Definition tidy_markdown (markdown : string) : string :=
  (* Remove excessive whitespace *)
  let markdown := Re.sub blank_lines [Re.text blank_line] markdown in
  (* Remove leading/trailing whitespace *)
  let markdown := PyStr.strip markdown in
  (* Ensure single space after list markers *)
  let markdown := Re.sub list_marker [Re.Group1; Re.text "- "] markdown in
  (* Remove empty links *)
  let markdown := Re.sub empty_link [Re.Group1] markdown in
  (* Remove excessive emphasis markers *)
  let markdown := Re.sub stars [Re.text "**"] markdown in
  Re.sub underscores [Re.text "__"] markdown.

(** [_clean_markdown] *)
Definition _clean_markdown (markdown : string) : string :=
  let markdown := tidy_markdown markdown in
  (* Limit content length for embedding efficiency *)
  if PyStr.len markdown >? max_chars
  then PyStr.slice_to markdown max_chars +:+ "..."
  else markdown.

Section Markdown.

(** The DOM work of [html_to_markdown] is done by BeautifulSoup and
    markdownify: parsing, [_remove_unwanted_elements],
    [_clean_formatting] and [markdownify.markdownify(str(soup), ...)].
    Their composition, from the HTML text to the raw Markdown text or
    to the exception one of them raises, is a parameter. *)
Variable markdownify_soup : string -> outcome string.

(** [html_to_markdown] *)
Definition html_to_markdown (html_content : string) : outcome string :=
  if String.eqb html_content "" then Ret ""
  else
    markdown ← markdownify_soup html_content;
    Ret (_clean_markdown markdown).

End Markdown.

(** One pass through the body of the [while] loop of [_chunk_text], from
    the cursor [start]: the chunk to append, if it is not empty, and the
    next cursor. *)
Definition chunk_body (text : string) (chunk_size overlap start : Z)
  : option string * Z :=
  let end_ := start + chunk_size in
  let end_ :=
    (* Try to break at sentence boundaries *)
    if end_ <? PyStr.len text then
      let sentence_end := PyStr.rfind text "." start end_ in
      if sentence_end >? start + chunk_size / 2 then sentence_end + 1
      else
        (* Look for paragraph breaks *)
        let para_break := PyStr.rfind text blank_line start end_ in
        if para_break >? start + chunk_size / 2 then para_break + 2
        else
          (* Look for word boundaries *)
          let word_break := PyStr.rfind text " " start end_ in
          if word_break >? start + chunk_size / 2 then word_break
          else end_
    else end_ in
  let chunk := PyStr.strip (PyStr.slice text start end_) in
  (* Move start position with overlap *)
  let start := end_ - overlap in
  let start := if start <=? 0 then end_ else start in
  (if String.eqb chunk "" then None else Some chunk, start).

(** The cursor after one pass. *)
Definition next_start (text : string) (chunk_size overlap start : Z) : Z :=
  snd (chunk_body text chunk_size overlap start).

(** The [while start < len(text)] loop; [None] when [fuel] passes do not
    reach its end. *)
Fixpoint chunk_loop (fuel : nat) (text : string) (chunk_size overlap start : Z)
         (chunks : list string) : option (list string) :=
  match fuel with
  | O => None
  | S fuel' =>
      if start <? PyStr.len text then
        let '(chunk, start') := chunk_body text chunk_size overlap start in
        chunk_loop fuel' text chunk_size overlap start'
                   (match chunk with Some c => chunks ++ [c] | None => chunks end)
      else Some chunks
  end.

(** [_chunk_text] *)
Definition _chunk_text (fuel : nat) (text : string) (chunk_size overlap : Z)
  : option (list string) :=
  if PyStr.len text <=? chunk_size then Some [text]
  else chunk_loop fuel text chunk_size overlap 0 [].

(** ** Embeddings *)

Section Embeddings.

(** A vector is what [encode(...).tolist()] gives.  The embedding model
    is [None] when it could not be loaded; a call of [encode] may raise. *)
Context {V : Type}.
Variable embedding_model : option (string -> outcome V).

Record Embedding : Type := {
  kind : string;
  vector : V;
  content_text : string;
  chunk_index : option nat
}.

(** [content[:500] + "..." if len(content) > 500 else content] *)
Definition preview (content : string) : string :=
  if PyStr.len content >? 500 then PyStr.slice_to content 500 +:+ "..." else content.

(** The loop [for i, chunk in enumerate(chunks)] from the index [i] on:
    a chunk that is blank is passed over, and an exception of [encode]
    ends the whole [try] block with the records made so far. *)
Fixpoint embed_chunks (encode : string -> outcome V) (chunks : list string)
         (i : nat) (embeddings : list Embedding) : list Embedding :=
  match chunks with
  | [] => embeddings
  | chunk :: chunks' =>
      if String.eqb (PyStr.strip chunk) "" then
        embed_chunks encode chunks' (S i) embeddings
      else
        match encode chunk with
        | Ret chunk_embedding =>
            embed_chunks encode chunks' (S i)
              (embeddings ++ [{| kind := "chunk"; vector := chunk_embedding;
                                 content_text := chunk; chunk_index := Some i |}])
        | Raise _ => embeddings
        end
  end.

(** [generate_embeddings]; [None] when the chunking does not end within
    [fuel] passes. *)
Definition generate_embeddings (fuel : nat) (content : string)
           (chunk_size chunk_overlap : Z) : option (list Embedding) :=
  match embedding_model with
  | None => Some []
  | Some encode =>
      if String.eqb content "" then Some []
      else
        match encode content with
        | Raise _ => Some []
        | Ret full_embedding =>
            let embeddings :=
              [{| kind := "page"; vector := full_embedding;
                  content_text := preview content; chunk_index := None |}] in
            (* Generate chunked embeddings for longer content *)
            if PyStr.len content >? chunk_size then
              match _chunk_text fuel content chunk_size chunk_overlap with
              | Some chunks => Some (embed_chunks encode chunks 0 embeddings)
              | None => None
              end
            else Some embeddings
        end
  end.

Definition element_types : list string := ["title"; "h1"; "description"].

(** The body of [for element_type in element_types]: here an exception
    of [encode] is logged and the loop goes on. *)
Definition embed_element (encode : string -> outcome V) (elements : gmap string string)
           (embeddings : list Embedding) (element_type : string) : list Embedding :=
  let content := default "" (elements !! element_type) in
  if negb (String.eqb content "") && negb (String.eqb (PyStr.strip content) "") then
    match encode content with
    | Ret embedding =>
        embeddings ++ [{| kind := element_type; vector := embedding;
                          content_text := content; chunk_index := None |}]
    | Raise _ => embeddings
    end
  else embeddings.

(** [generate_element_embeddings] *)
Definition generate_element_embeddings (elements : gmap string string)
  : list Embedding :=
  match embedding_model with
  | None => []
  | Some encode => fold_left (embed_element encode elements) element_types []
  end.

End Embeddings.

(** ** Keywords *)

Definition between (lo hi : nat) (c : ascii) : bool :=
  let n := nat_of_ascii c in ((lo <=? n) && (n <=? hi))%nat.

(** The class [\w] of [re] on [str] patterns, for code points below 256:
    digits, letters, the underscore, and the letters and numeric
    characters of Latin-1. *)
Definition is_word_char (c : ascii) : bool :=
  between 48 57 c || between 65 90 c || between 95 95 c || between 97 122 c
  || between 170 170 c || between 178 179 c || between 181 181 c
  || between 185 186 c || between 188 190 c || between 192 214 c
  || between 216 246 c || between 248 255 c.

(** The class [[a-zA-Z]]. *)
Definition is_ascii_letter (c : ascii) : bool :=
  between 65 90 c || between 97 122 c.

(** [str.lower] on one character, for code points below 256. *)
Definition lower_char (c : ascii) : ascii :=
  if between 65 90 c || between 192 214 c || between 216 222 c
  then ascii_of_nat (nat_of_ascii c + 32)
  else c.

Fixpoint lower (s : string) : string :=
  match s with
  | EmptyString => EmptyString
  | String a s' => String (lower_char a) (lower s')
  end.

(** The longest prefix made of ASCII letters. *)
Fixpoint letters_prefix (s : string) : string :=
  match s with
  | String a s' => if is_ascii_letter a then String a (letters_prefix s') else EmptyString
  | EmptyString => EmptyString
  end.

(** The matches of a word boundary, three or more ASCII letters and a
    word boundary, from left to right.  [prev_word] tells whether the
    previous character is a word character.  A match can only start at
    a letter that follows no word character, and it is the whole run of
    letters, which what follows must not continue with a word character. *)
Fixpoint findall_words (prev_word : bool) (s : string) : list string :=
  match s with
  | EmptyString => []
  | String a s' =>
      if is_ascii_letter a && negb prev_word then
        let word := letters_prefix s in
        let after := PyStr.drop (String.length word) s in
        let ends := match after with
                    | EmptyString => true
                    | String b _ => negb (is_word_char b)
                    end in
        if (3 <=? String.length word)%nat && ends
        then word :: findall_words true s'
        else findall_words true s'
      else findall_words (is_word_char a) s'
  end.

Definition stop_words : list string :=
  ["the"; "a"; "an"; "and"; "or"; "but"; "in"; "on"; "at"; "to"; "for";
   "of"; "with"; "by"; "from"; "up"; "about"; "into"; "through"; "during";
   "before"; "after"; "above"; "below"; "between"; "among"; "is"; "are";
   "was"; "were"; "be"; "been"; "being"; "have"; "has"; "had"; "do";
   "does"; "did"; "will"; "would"; "could"; "should"; "may"; "might";
   "must"; "can"; "this"; "that"; "these"; "those"; "i"; "you"; "he";
   "she"; "it"; "we"; "they"; "them"; "their"; "what"; "which"; "who";
   "when"; "where"; "why"; "how"].

Definition is_stop_word (w : string) : bool := existsb (String.eqb w) stop_words.

(** [word_freq[word] = word_freq.get(word, 0) + 1] on a dictionary kept
    as the list of its items, in the order of insertion. *)
Fixpoint bump (word : string) (word_freq : list (string * nat)) : list (string * nat) :=
  match word_freq with
  | [] => [(word, 1%nat)]
  | (k, c) :: rest =>
      if String.eqb k word then (k, S c) :: rest else (k, c) :: bump word rest
  end.

(** [word_freq.get(word, 0)] *)
Fixpoint frequency (word_freq : list (string * nat)) (word : string) : nat :=
  match word_freq with
  | [] => O
  | (k, c) :: rest => if String.eqb k word then c else frequency rest word
  end.

Definition word_frequencies (words : list string) : list (string * nat) :=
  fold_left (fun word_freq word =>
               if is_stop_word word then word_freq else bump word word_freq)
            words [].

(** [sorted(items, key=lambda x: x[1], reverse=True)]: a stable sort, so
    items of equal count keep their order. *)
Fixpoint insert_by_count (x : string * nat) (l : list (string * nat))
  : list (string * nat) :=
  match l with
  | [] => [x]
  | y :: l' => if (snd x <? snd y)%nat then y :: insert_by_count x l' else x :: l
  end.

Definition sort_by_count (l : list (string * nat)) : list (string * nat) :=
  fold_right insert_by_count [] l.

(** The order of the sorted items: the count does not go up. *)
Definition by_count_desc (a b : string * nat) : Prop := (snd b <= snd a)%nat.

(** [l[:b]] on a list. *)
Definition list_slice_to {A : Type} (l : list A) (b : Z) : list A :=
  firstn (Z.to_nat (PyStr.adjust (Z.of_nat (length l)) b)) l.

(** [extract_keywords] *)
Definition extract_keywords (content : string) (max_keywords : Z) : list string :=
  let words := findall_words false (lower content) in
  let word_freq := word_frequencies words in
  let keywords := sort_by_count word_freq in
  map fst (list_slice_to keywords max_keywords).

End ContentProcessor.


(* ===================================================================== *)
(** * services/crawler.py                                                 *)
(* ===================================================================== *)

Module Crawler.

(** ** Configuration and results *)

(** [CrawlerConfig]; the politeness delays are floats and only feed
    [asyncio.sleep], so they are left out. *)
Record CrawlerConfig : Type := {
  max_pages : Z;
  max_depth : Z;
  timeout : Z
}.

(** The [results] dictionary of [crawl_site]. *)
Record Results : Type := {
  total_pages : nat;
  pages_crawled : nat;
  pages_failed : nat;
  errors : list string
}.

Definition new_results : Results :=
  {| total_pages := 0; pages_crawled := 0; pages_failed := 0; errors := [] |}.

(** ** The page as the HTML parser shows it *)

(** An element of the parsed document: its name, its attributes,
    [get_text(strip=True)] and [.string], which is [None] unless the
    element has a single string inside. *)
Record Tag : Type := {
  tag_name : string;
  attrs : gmap string string;
  tag_text : string;
  tag_string : option string
}.

(** [tag.get(key, '')] *)
Definition get (t : Tag) (key : string) : string := default "" (attrs t !! key).

(** What [page.content()], [page.title()] and the parser give:
    the title, the elements in document order, and the main content
    that [_clean_html_for_content] isolates. *)
Record Document : Type := {
  doc_title : string;
  doc_tags : list Tag;
  doc_content_html : string
}.

Record Link : Type := { link_url : string; link_text : string; is_internal : bool }.
Record Image : Type := { img_src : string; img_alt : string }.

(** The dictionary that [_extract_page_data] returns; [schema_json]
    holds the JSON-LD blocks that parse. *)
Record PageData (J : Type) : Type := {
  url : string;
  status_code : Z;
  canonical : string;
  meta_robots : string;
  content_html : string;
  content_md : string;
  word_count : nat;
  title : string;
  description : string;
  h1 : string;
  h2_json : list string;
  og_json : gmap string string;
  schema_json : list J;
  links_json : list Link;
  images_json : list Image
}.
Arguments url {J}. Arguments status_code {J}. Arguments canonical {J}.
Arguments meta_robots {J}. Arguments content_html {J}. Arguments content_md {J}.
Arguments word_count {J}. Arguments title {J}. Arguments description {J}.
Arguments h1 {J}. Arguments h2_json {J}. Arguments og_json {J}.
Arguments schema_json {J}. Arguments links_json {J}. Arguments images_json {J}.

(** ** The browser *)

Inductive wait_until : Type := networkidle | load.

Record Response : Type := { status : Z }.

(** A page handle for one URL.  [pe_goto k w] is what the call number
    [k] of [page.goto] does under the wait strategy [w]; [pe_route] and
    [pe_close] are the exceptions of [page.route] and [page.close], if
    any; [pe_document] is the document after the stability wait, or the
    exception raised on the way to it. *)
Record PageEnv : Type := {
  pe_route : option string;
  pe_goto : nat -> wait_until -> outcome (option Response);
  pe_document : outcome Document;
  pe_close : option string
}.

(** [context.new_page()] for the fetch of a URL. *)
Definition Browser : Type := string -> outcome PageEnv.

(** What the fetcher does to the outside world. *)
Inductive event : Type :=
| Goto (w : wait_until)
| Sleep (seconds : Z).

(** ** [_navigate_with_retries] *)

(** The [for attempt in range(max_retries)] loop with [todo] passes left;
    [calls] counts the calls of [page.goto] made so far. *)
Fixpoint navigate_from (page : PageEnv) (max_retries todo attempt calls : nat)
  : list event * outcome (option Response) :=
  match todo with
  | O => ([], Ret None)
  | S todo' =>
      match pe_goto page calls networkidle with
      | Ret response => ([Goto networkidle], Ret response)
      | Raise e =>
          if (attempt <? max_retries - 1)%nat then
            (* Try different wait strategies *)
            if (attempt =? 1)%nat then
              (* Second attempt: wait for load event *)
              match pe_goto page (S calls) load with
              | Ret response => ([Goto networkidle; Goto load], Ret response)
              | Raise _ =>
                  let '(tr, r) :=
                    navigate_from page max_retries todo' (S attempt) (S (S calls)) in
                  (Goto networkidle :: Goto load :: Sleep (2 ^ Z.of_nat attempt) :: tr, r)
              end
            else
              (* Add delay before retry *)
              let '(tr, r) :=
                navigate_from page max_retries todo' (S attempt) (S calls) in
              (Goto networkidle :: Sleep (2 ^ Z.of_nat attempt) :: tr, r)
          else ([Goto networkidle], Raise e)
      end
  end.

Definition _navigate_with_retries (page : PageEnv) (max_retries : nat)
  : list event * outcome (option Response) :=
  navigate_from page max_retries max_retries 0 0.

(** The calls of [page.goto] in a trace, and its sleeps. *)
Definition navigations (tr : list event) : list wait_until :=
  flat_map (fun e => match e with Goto w => [w] | Sleep _ => [] end) tr.

Definition sleeps (tr : list event) : list Z :=
  flat_map (fun e => match e with Goto _ => [] | Sleep s => [s] end) tr.

Definition is_load (w : wait_until) : bool :=
  match w with load => true | networkidle => false end.

(** [2 ** i] *)
Definition pow2 (i : nat) : Z := 2 ^ Z.of_nat i.

(** Two entries of the queue in queue order: the second is as deep as
    the first, or one level deeper. *)
Definition level_order (a b : string * Z) : Prop := snd a <= snd b <= snd a + 1.

(** ** [_route_handler] *)

Definition default_block_resources : list string := ["image"; "font"; "media"].

(** [block_resources or ['image', 'font', 'media']] of
    [CrawlerConfig.__init__]: the list that is given, unless it is
    missing or empty. *)
Definition block_resources (given : option (list string)) : list string :=
  match given with
  | Some (kind :: kinds) => kind :: kinds
  | _ => default_block_resources
  end.

Inductive route_action : Type := route_abort | route_continue.

Definition _route_handler (blocked : list string) (resource_type : string)
  : route_action :=
  if existsb (String.eqb resource_type) blocked then route_abort else route_continue.

(** ** [_wait_for_stable_page] *)

(** The loop [for _ in range(10)] with [todo] passes left.  [evaluate k]
    is what the call number [k] of [page.evaluate] gives for the size of
    the document; each call follows a sleep of half a second.  The result
    is the number of calls made. *)
Fixpoint stable_loop (evaluate : nat -> outcome Z) (todo polls stable_count : nat)
         (last_size : Z) : outcome nat :=
  match todo with
  | O => Ret polls
  | S todo' =>
      match evaluate polls with
      | Raise e => Raise e
      | Ret current_size =>
          if current_size =? last_size then
            (* Stable for 3 consecutive checks *)
            if (3 <=? S stable_count)%nat then Ret (S polls)
            else stable_loop evaluate todo' (S polls) (S stable_count) current_size
          else stable_loop evaluate todo' (S polls) 0 current_size
      end
  end.

Definition _wait_for_stable_page (evaluate : nat -> outcome Z) : outcome nat :=
  stable_loop evaluate 10 0 0 0.

(** ** [_extract_page_data] *)

Definition is_tag (name : string) (t : Tag) : bool := String.eqb (tag_name t) name.

(** [soup.find_all(name)] restricted by a test on the element. *)
Definition find_all (soup : list Tag) (name : string) (p : Tag -> bool) : list Tag :=
  List.filter (fun t => is_tag name t && p t) soup.

(** [soup.find(name, ...)] *)
Definition find (soup : list Tag) (name : string) (p : Tag -> bool) : option Tag :=
  head (find_all soup name p).

(** An attribute is present and its value matches [^prefix]. *)
Definition attr_matches (key pre : string) (t : Tag) : bool :=
  match attrs t !! key with
  | Some v => PyStr.startswith v pre
  | None => false
  end.

Definition attr_is (key v : string) (t : Tag) : bool :=
  match attrs t !! key with
  | Some w => String.eqb w v
  | None => false
  end.

Definition has_attr (key : string) (t : Tag) : bool :=
  match attrs t !! key with Some _ => true | None => false end.

(** [w] is one of the whitespace separated words of [s]; [at_start]
    tells whether a word may start here. *)
Fixpoint has_word (w s : string) (at_start : bool) : bool :=
  match s with
  | EmptyString => false
  | String a s' =>
      if PyStr.isspace a then has_word w s' true
      else
        (at_start && PyStr.startswith s w
         && match PyStr.drop (String.length w) s with
            | EmptyString => true
            | String b _ => PyStr.isspace b
            end)
        || has_word w s' false
  end.

(** A test on [rel], which the parser keeps as a list of words. *)
Definition rel_is (v : string) (t : Tag) : bool :=
  match attrs t !! "rel" with
  | Some w => has_word v w true
  | None => false
  end.

(** What [json.loads] does: a value, a [JSONDecodeError], or another
    exception (a [TypeError] when it is given [None]). *)
Inductive json_result (J : Type) : Type :=
| Parsed (j : J)
| DecodeError
| OtherError (msg : string).
Arguments Parsed {J} j.
Arguments DecodeError {J}.
Arguments OtherError {J} msg.

(** The dictionary filled by the loop over the [og:] tags, and the one
    of the [twitter:] tags: a later tag overwrites an earlier one. *)
Definition og_data (soup : list Tag) : gmap string string :=
  fold_left
    (fun d og_tag =>
       let property_name := PyStr.replace (get og_tag "property") "og:" "" in
       <[property_name := get og_tag "content"]> d)
    (find_all soup "meta" (attr_matches "property" "og:")) ∅.

Definition twitter_data (soup : list Tag) : gmap string string :=
  fold_left
    (fun d twitter_tag =>
       let name := PyStr.replace (get twitter_tag "name") "twitter:" "" in
       <[name := get twitter_tag "content"]> d)
    (find_all soup "meta" (attr_matches "name" "twitter:")) ∅.

(** [{**a, **b}]: the entries of [b], and those of [a] under other keys. *)
Definition merge_dicts (a b : gmap string string) : gmap string string := b ∪ a.

Section Extraction.

(** [urllib.parse.urljoin], the [netloc] of [urllib.parse.urlparse],
    [json.loads] and the HTML to Markdown conversion are library
    functions. *)
Context {J : Type}.
Variable urljoin : string -> string -> string.
Variable netloc : string -> string.
Variable json_loads : option string -> json_result J.
Variable markdownify_soup : string -> outcome string.

(** The record of one anchor. *)
Definition link_of (page_url domain : string) (link : Tag) : Link :=
  let href := get link "href" in
  let text := tag_text link in
  if PyStr.startswith href "http://" || PyStr.startswith href "https://" then
    {| link_url := href; link_text := text;
       is_internal := String.eqb (netloc href) domain |}
  else
    {| link_url := urljoin page_url href; link_text := text;
       is_internal := true |}.

Definition extract_links (soup : list Tag) (page_url : string) : list Link :=
  let domain := netloc page_url in
  map (link_of page_url domain) (find_all soup "a" (has_attr "href")).

Definition extract_images (soup : list Tag) (page_url : string) : list Image :=
  flat_map (fun img =>
              let src := get img "src" in
              let alt := get img "alt" in
              if String.eqb src "" then []
              else [{| img_src := urljoin page_url src; img_alt := alt |}])
           (find_all soup "img" (fun _ => true)).

(** The loop over the JSON-LD scripts: a block that does not decode
    is skipped, any other exception leaves the loop. *)
Fixpoint extract_schema (scripts : list Tag) (schema_data : list J)
  : outcome (list J) :=
  match scripts with
  | [] => Ret schema_data
  | script :: scripts' =>
      match json_loads (tag_string script) with
      | Parsed schema_obj => extract_schema scripts' (schema_data ++ [schema_obj])
      | DecodeError => extract_schema scripts' schema_data
      | OtherError e => Raise e
      end
  end.

Definition _extract_page_data (doc : Document) (page_url : string)
  : outcome (PageData J) :=
  let soup := doc_tags doc in
  let content := fun (o : option Tag) (key : string) =>
                   match o with Some t => get t key | None => "" end in
  schema_data ←
    extract_schema (find_all soup "script" (attr_is "type" "application/ld+json")) [];
  content_md ←
    ContentProcessor.html_to_markdown markdownify_soup (doc_content_html doc);
  Ret
  {| url := page_url;
     status_code := 200;
     canonical := content (find soup "link" (rel_is "canonical")) "href";
     meta_robots := content (find soup "meta" (attr_is "name" "robots")) "content";
     content_html := doc_content_html doc;
     content_md := content_md;
     word_count := PyStr.count_words false content_md;
     title := doc_title doc;
     description := content (find soup "meta" (attr_is "name" "description")) "content";
     h1 := match find soup "h1" (fun _ => true) with
           | Some t => tag_text t
           | None => ""
           end;
     h2_json := map tag_text (find_all soup "h2" (fun _ => true));
     og_json := merge_dicts (og_data soup) (twitter_data soup);
     schema_json := schema_data;
     links_json := extract_links soup page_url;
     images_json := extract_images soup page_url |}.

(** ** [_crawl_page] *)

(** The [try] block: [None] is returned for a response that is
    missing or has a status of 400 or more, and for every exception. *)
Definition crawl_page_body (page : PageEnv) (page_url : string)
  : option (PageData J) :=
  match pe_route page with
  | Some _ => None
  | None =>
      match snd (_navigate_with_retries page 3) with
      | Raise _ => None
      | Ret None => None
      | Ret (Some response) =>
          if status response >=? 400 then None
          else
            match doc ← pe_document page; _extract_page_data doc page_url with
            | Raise _ => None
            | Ret page_data => Some page_data
            end
      end
  end.

(** [new_page] is called before the [try], and [page.close()] runs in
    the [finally]: an exception of either leaves [_crawl_page]. *)
Definition _crawl_page (browser : Browser) (page_url : string)
  : outcome (option (PageData J)) :=
  match browser page_url with
  | Raise e => Raise e
  | Ret page =>
      let page_data := crawl_page_body page page_url in
      match pe_close page with
      | Some e => Raise e
      | None => Ret page_data
      end
  end.

(** ** [_extract_internal_links] *)

(** [list(set(l))]: the elements of [l] without duplicates, in the
    iteration order of a Python set, which the language leaves
    unspecified. *)
Variable list_of_set : list string -> list string.

Definition asset_extensions : list string :=
  [".pdf"; ".jpg"; ".png"; ".gif"; ".css"; ".js"].

Definition is_page_link (link : Link) : bool :=
  is_internal link && negb (String.eqb (link_url link) "")
  && negb (existsb (PyStr.endswith (link_url link)) asset_extensions).

Definition internal_urls (links : list Link) : list string :=
  map link_url (List.filter is_page_link links).

Definition _extract_internal_links (links : list Link) : list string :=
  list_of_set (internal_urls links).

(** ** [_crawl_directed] *)

Definition add_crawled (r : Results) : Results :=
  {| total_pages := total_pages r; pages_crawled := S (pages_crawled r);
     pages_failed := pages_failed r; errors := errors r |}.

Definition add_failed (r : Results) : Results :=
  {| total_pages := total_pages r; pages_crawled := pages_crawled r;
     pages_failed := S (pages_failed r); errors := errors r |}.

Definition add_error (r : Results) (e : string) : Results :=
  {| total_pages := total_pages r; pages_crawled := pages_crawled r;
     pages_failed := pages_failed r; errors := errors r ++ [e] |}.

Definition set_total (r : Results) (n : nat) : Results :=
  {| total_pages := n; pages_crawled := pages_crawled r;
     pages_failed := pages_failed r; errors := errors r |}.

(** The body of [for url in urls].  [_save_page_data] is called
    without a database session: it logs a warning and returns. *)
Definition directed_body (browser : Browser) (results : Results)
           (page_url : string) : Results :=
  match _crawl_page browser page_url with
  | Ret (Some _) => add_crawled results
  | Ret None => add_failed results
  | Raise e => add_error (add_failed results) (page_url +:+ ": " +:+ e)
  end.

Definition _crawl_directed (browser : Browser) (urls : list string)
           (results : Results) : Results :=
  fold_left (directed_body browser) urls (set_total results (length urls)).

(** ** [_crawl_full_site] *)

Record Frontier : Type := {
  visited : gset string;
  to_visit : list (string * Z);
  results : Results
}.

(** [while to_visit and len(visited) < self.config.max_pages] *)
Definition continues (config : CrawlerConfig) (st : Frontier) : bool :=
  match to_visit st with
  | [] => false
  | _ :: _ => Z.of_nat (size (visited st)) <? max_pages config
  end.

(** The links of a page that go to the queue, at [depth + 1]. *)
Definition enqueued (seen : gset string) (links : list Link) (depth : Z)
  : list (string * Z) :=
  map (fun link => (link, depth + 1))
      (List.filter (fun link => negb (bool_decide (link ∈ seen)))
                   (_extract_internal_links links)).

(** The body of the [while] loop. *)
Definition full_site_body (browser : Browser) (config : CrawlerConfig)
           (st : Frontier) : Frontier :=
  match to_visit st with
  | [] => st
  | (page_url, depth) :: rest =>
      if bool_decide (page_url ∈ visited st) || (depth >? max_depth config) then
        {| visited := visited st; to_visit := rest; results := results st |}
      else
        let seen := {[page_url]} ∪ visited st in
        match _crawl_page browser page_url with
        | Ret (Some page_data) =>
            {| visited := seen;
               to_visit :=
                 (* Extract links for further crawling *)
                 if depth <? max_depth config
                 then rest ++ enqueued seen (links_json page_data) depth
                 else rest;
               results := add_crawled (results st) |}
        | Ret None =>
            {| visited := seen; to_visit := rest;
               results := add_failed (results st) |}
        | Raise e =>
            {| visited := seen; to_visit := rest;
               results := add_error (add_failed (results st))
                                    (page_url +:+ ": " +:+ e) |}
        end
  end.

(** The loop; [None] when [fuel] passes do not reach its end. *)
Fixpoint full_site_loop (fuel : nat) (browser : Browser) (config : CrawlerConfig)
         (st : Frontier) : option Frontier :=
  match fuel with
  | O => None
  | S fuel' =>
      if continues config st
      then full_site_loop fuel' browser config (full_site_body browser config st)
      else Some st
  end.

(** The states at the head of the loop in a crawl that starts from [st0]. *)
Inductive reachable (browser : Browser) (config : CrawlerConfig) (st0 : Frontier)
  : Frontier -> Prop :=
| reach_start : reachable browser config st0 st0
| reach_step (st : Frontier) :
    reachable browser config st0 st ->
    continues config st = true ->
    reachable browser config st0 (full_site_body browser config st).

Definition start_url (domain : string) : string :=
  let start_url := "https://" +:+ domain in
  if negb (PyStr.startswith start_url "http://" || PyStr.startswith start_url "https://")
  then "https://" +:+ start_url
  else start_url.

Definition start_frontier (domain : string) (results0 : Results) : Frontier :=
  {| visited := ∅; to_visit := [(start_url domain, 0)]; results := results0 |}.

Definition _crawl_full_site (fuel : nat) (browser : Browser)
           (config : CrawlerConfig) (domain : string) (results0 : Results)
  : option Results :=
  match full_site_loop fuel browser config (start_frontier domain results0) with
  | Some st => Some (set_total (results st) (size (visited st)))
  | None => None
  end.

(** ** [crawl_site] *)

(** A list of URLs that is given and not empty makes the crawl a
    directed one.  Neither crawl lets an exception out, so the handler
    of [crawl_site] has nothing to catch. *)
Definition crawl_site (fuel : nat) (browser : Browser) (config : CrawlerConfig)
           (domain : string) (urls : option (list string)) : option Results :=
  match urls with
  | Some (u :: us) => Some (_crawl_directed browser (u :: us) new_results)
  | _ => _crawl_full_site fuel browser config domain new_results
  end.

End Extraction.

End Crawler.

(* ===================================================================== *)
(** * api/routes/crawls.py                                                *)
(* ===================================================================== *)

Module Crawls.

Import Crawler.

Inductive CrawlStatus : Type := PENDING | RUNNING | COMPLETED | FAILED | CANCELLED.

(** The columns of a [Crawl] row that the background task writes. *)
Record Crawl : Type := {
  crawl_status : CrawlStatus;
  crawl_total_pages : nat;
  crawl_pages_crawled : nat;
  crawl_pages_failed : nat;
  error_message : option string
}.

(** [start_crawl_task], once [crawl_site] has returned: the counters are
    copied and the final status is chosen. *)
Definition record_results (crawl : Crawl) (results : Results) : Crawl :=
  if (0 <? pages_failed results)%nat && (pages_crawled results =? 0)%nat then
    {| crawl_status := FAILED;
       crawl_total_pages := total_pages results;
       crawl_pages_crawled := pages_crawled results;
       crawl_pages_failed := pages_failed results;
       error_message := Some (PyStr.join "; " (firstn 5 (errors results))) |}
  else
    {| crawl_status := COMPLETED;
       crawl_total_pages := total_pages results;
       crawl_pages_crawled := pages_crawled results;
       crawl_pages_failed := pages_failed results;
       error_message := error_message crawl |}.

(** The handler of [start_crawl_task] for an exception [e] that reaches
    it, such as a browser that does not start. *)
Definition record_exception (crawl : Crawl) (e : string) : Crawl :=
  {| crawl_status := FAILED;
     crawl_total_pages := crawl_total_pages crawl;
     crawl_pages_crawled := crawl_pages_crawled crawl;
     crawl_pages_failed := crawl_pages_failed crawl;
     error_message := Some e |}.

Definition set_running (crawl : Crawl) : Crawl :=
  {| crawl_status := RUNNING;
     crawl_total_pages := crawl_total_pages crawl;
     crawl_pages_crawled := crawl_pages_crawled crawl;
     crawl_pages_failed := crawl_pages_failed crawl;
     error_message := error_message crawl |}.

(** [start_crawl_task] for a crawl that is found: [start] is the
    exception of the browser launch, if any, and [results] what
    [crawl_site] returns. *)
Definition start_crawl_task (crawl : Crawl) (start : option string)
           (results : Results) : Crawl :=
  let crawl := set_running crawl in
  match start with
  | Some e => record_exception crawl e
  | None => record_results crawl results
  end.

(** What [cancel_crawl] answers: the cancelled crawl, or the HTTP error
    404 or 400. *)
Inductive cancel_result : Type :=
| Cancelled (crawl : Crawl)
| NotFound
| BadRequest.

(** [cancel_crawl], on the crawl that the query finds, if any. *)
Definition cancel_crawl (found : option Crawl) : cancel_result :=
  match found with
  | None => NotFound
  | Some crawl =>
      match crawl_status crawl with
      | PENDING | RUNNING =>
          Cancelled {| crawl_status := CANCELLED;
                       crawl_total_pages := crawl_total_pages crawl;
                       crawl_pages_crawled := crawl_pages_crawled crawl;
                       crawl_pages_failed := crawl_pages_failed crawl;
                       error_message := error_message crawl |}
      | _ => BadRequest
      end
  end.

End Crawls.

(* ===================================================================== *)
(** * Pages and library functions for the scenarios                       *)
(* ===================================================================== *)

Module Scenario.

Import Crawler.

(** The part of a URL between [//] and the next [/]. *)
Fixpoint until_slash (s : string) : string :=
  match s with
  | EmptyString => EmptyString
  | String a s' => if Ascii.eqb a "/" then EmptyString else String a (until_slash s')
  end.

Fixpoint netloc (u : string) : string :=
  match u with
  | EmptyString => EmptyString
  | String a u' =>
      if PyStr.startswith u "//" then until_slash (PyStr.drop 2 u) else netloc u'
  end.

Fixpoint scheme (u : string) : string :=
  match u with
  | EmptyString => EmptyString
  | String a u' => if Ascii.eqb a ":" then EmptyString else String a (scheme u')
  end.

(** [urljoin] on the references of the scenarios: a reference that
    starts with [//] takes the scheme of the base, one that starts with
    [/] takes its scheme and host. *)
Definition urljoin (base ref : string) : string :=
  if PyStr.startswith ref "//" then scheme base +:+ ":" +:+ ref
  else if PyStr.startswith ref "/" then scheme base +:+ "://" +:+ netloc base +:+ ref
  else base +:+ ref.

(** JSON values are kept as their text. *)
Definition json_loads (s : option string) : json_result string :=
  match s with
  | Some t => Parsed t
  | None => OtherError "the JSON object must be str, bytes or bytearray, not NoneType"
  end.

(** Text without markup converts to itself. *)
Definition plain_text (html : string) : outcome string := Ret html.

(** Two iteration orders for [list(set(l))]: first occurrences in the
    order of [l], and the same back to front. *)
Definition in_order (l : list string) : list string := remove_dups l.
Definition back_to_front (l : list string) : list string := rev (remove_dups l).

Definition meta (key name content : string) : Tag :=
  {| tag_name := "meta";
     attrs := <[key := name]> (<["content" := content]> ∅);
     tag_text := ""; tag_string := None |}.

Definition anchor (href text : string) : Tag :=
  {| tag_name := "a"; attrs := <["href" := href]> ∅;
     tag_text := text; tag_string := Some text |}.

Definition document (tags : list Tag) : Document :=
  {| doc_title := "t"; doc_tags := tags; doc_content_html := "hello world" |}.

(** A page whose every navigation returns the status [s]. *)
Definition page_with_status (s : Z) (tags : list Tag) : PageEnv :=
  {| pe_route := None;
     pe_goto := fun _ _ => Ret (Some {| status := s |});
     pe_document := Ret (document tags);
     pe_close := None |}.

(** A page whose every navigation times out. *)
Definition unreachable_page : PageEnv :=
  {| pe_route := None;
     pe_goto := fun _ _ => Raise "Timeout 30000ms exceeded";
     pe_document := Ret (document []);
     pe_close := None |}.

(** Scenario C: [https://a/ok] loads, [https://a/404] answers 404. *)
Definition browser_C : Browser :=
  fun u => if String.eqb u "https://a/ok"
           then Ret (page_with_status 200 [])
           else Ret (page_with_status 404 []).

(** Scenario D: a page with [og:title=X] and [twitter:title=Y]. *)
Definition tags_D (X Y : string) : list Tag :=
  [meta "property" "og:title" X; meta "name" "twitter:title" Y].

(** A page of [https://a/] with a link to another host that leaves the
    scheme out. *)
Definition tags_other_host : list Tag := [anchor "//other-host/x" "elsewhere"].

(** A site whose root links to [p1], [p2] and [p3]. *)
Definition link_to (u : string) : Tag := anchor u u.

Definition browser_site : Browser :=
  fun u => if String.eqb u "https://a"
           then Ret (page_with_status 200
                       [link_to "https://a/p1"; link_to "https://a/p2";
                        link_to "https://a/p3"; link_to "https://a/logo.png"])
           else Ret (page_with_status 200 []).

(** Twenty-five letters, to be cut in chunks of ten. *)
Definition letters : string := PyStr.repeat_char "a" 25.

Definition config (pages depth : Z) : CrawlerConfig :=
  {| max_pages := pages; max_depth := depth; timeout := 30000 |}.

(** A JSON-LD block with the text [text], or without text. *)
Definition json_ld (text : option string) : Tag :=
  {| tag_name := "script"; attrs := <["type" := "application/ld+json"]> ∅;
     tag_text := default "" text; tag_string := text |}.

(** A crawl that has just been created. *)
Definition pending_crawl : Crawls.Crawl :=
  {| Crawls.crawl_status := Crawls.PENDING; Crawls.crawl_total_pages := 0;
     Crawls.crawl_pages_crawled := 0; Crawls.crawl_pages_failed := 0;
     Crawls.error_message := None |}.

(** An embedding model whose vector for a text is its length. *)
Definition length_model : option (string -> outcome nat) :=
  Some (fun text => Ret (String.length text)).

(** Two sentences, to be cut in chunks of twenty. *)
Definition sentences : string := "The cat sat on the mat. The dog sat on the cat.".

End Scenario.

(* ===================================================================== *)
(** * Properties                                                          *)
(* ===================================================================== *)

Import Crawler.


Section CrawlerProperties.

Context {J : Type}.
Variable urljoin : string -> string -> string.
Variable netloc : string -> string.
Variable json_loads : option string -> json_result J.
Variable markdownify_soup : string -> outcome string.
Variable list_of_set : list string -> list string.

Local Abbreviation extract_page_data :=
  (_extract_page_data urljoin netloc json_loads markdownify_soup).
Local Abbreviation crawl_page :=
  (_crawl_page urljoin netloc json_loads markdownify_soup).
Local Abbreviation body_of_page :=
  (crawl_page_body urljoin netloc json_loads markdownify_soup).
Local Abbreviation step_directed :=
  (directed_body urljoin netloc json_loads markdownify_soup).

(** ** The record of a page *)

Lemma extract_page_data_inv (doc : Document) (u : string) (pd : PageData J) :
  extract_page_data doc u = Ret pd ->
  url pd = u /\ status_code pd = 200
  /\ og_json pd = merge_dicts (og_data (doc_tags doc)) (twitter_data (doc_tags doc))
  /\ links_json pd = extract_links urljoin netloc (doc_tags doc) u.
Proof.
  unfold _extract_page_data.
  destruct (extract_schema _ _ _) as [schema|e]; cbn; [|discriminate].
  destruct (ContentProcessor.html_to_markdown _ _) as [md|e]; cbn; [|discriminate].
  intros [= <-]. cbn. auto.
Qed.

Lemma crawl_page_body_inv (page : PageEnv) (u : string) (pd : PageData J) :
  body_of_page page u = Some pd ->
  exists response doc,
    pe_route page = None
    /\ snd (_navigate_with_retries page 3) = Ret (Some response)
    /\ status response < 400
    /\ pe_document page = Ret doc
    /\ extract_page_data doc u = Ret pd.
Proof.
  unfold crawl_page_body.
  destruct (pe_route page) eqn:Hr; [discriminate|].
  destruct (snd (_navigate_with_retries page 3)) as [[response|]|e]; try discriminate.
  destruct (status response >=? 400) eqn:Hs; [discriminate|].
  destruct (pe_document page) as [doc|e]; cbn; [|discriminate].
  destruct (_extract_page_data _ _ _ _ doc u) as [pd'|e] eqn:Hx; [|discriminate].
  intros [= <-]. exists response, doc. repeat split; auto. lia.
Qed.

Lemma crawl_page_inv (browser : Browser) (u : string) (pd : PageData J) :
  crawl_page browser u = Ret (Some pd) ->
  exists page, browser u = Ret page /\ pe_close page = None
               /\ body_of_page page u = Some pd.
Proof.
  unfold _crawl_page.
  destruct (browser u) as [page|e]; [|discriminate].
  destruct (pe_close page) eqn:Hc; [discriminate|].
  intros [= H]. exists page. auto.
Qed.

(** C9.  Every page record that a fetch returns has [status_code] 200,
    whatever status below 400 the response had: the status of the
    response is tested against 400 and then dropped. *)
Theorem page_record_status_is_200
        (browser : Browser) (u : string) (pd : PageData J)
        (Hfetch : crawl_page browser u = Ret (Some pd)) :
  status_code pd = 200
  /\ exists page response,
       browser u = Ret page
       /\ snd (_navigate_with_retries page 3) = Ret (Some response)
       /\ status response < 400.
Proof.
  apply crawl_page_inv in Hfetch as (page & Hb & _ & Hbody).
  apply crawl_page_body_inv in Hbody as (response & doc & _ & Hnav & Hs & _ & Hx).
  apply extract_page_data_inv in Hx as (_ & H200 & _).
  split; [exact H200|]. eauto.
Qed.

(** A response with a status below 400 on the first navigation gives a
    record, if nothing raises on the way. *)
Lemma fetch_succeeds (browser : Browser) (u : string) (page : PageEnv)
      (response : Response) (doc : Document) (pd : PageData J) :
  browser u = Ret page -> pe_route page = None -> pe_close page = None ->
  pe_goto page 0%nat networkidle = Ret (Some response) ->
  status response < 400 ->
  pe_document page = Ret doc ->
  extract_page_data doc u = Ret pd ->
  crawl_page browser u = Ret (Some pd).
Proof.
  intros Hb Hr Hc Hg Hs Hd Hx.
  unfold _crawl_page, crawl_page_body. rewrite Hb, Hr, Hc.
  unfold _navigate_with_retries. cbn. rewrite Hg. cbn.
  destruct (status response >=? 400) eqn:E; [lia|].
  rewrite Hd. cbn. rewrite Hx. reflexivity.
Qed.

(** ** Navigation with retries *)

(** The four runs of a fetch: the first navigation answers; the second
    one does; the load-event navigation of the second attempt does; or
    the third attempt is reached, whose navigation answers or raises. *)
Lemma navigate_runs (page : PageEnv) :
  let run := _navigate_with_retries page 3 in
  (fst run = [Goto networkidle] /\ exists r, snd run = Ret r)
  \/ (fst run = [Goto networkidle; Sleep 1; Goto networkidle] /\ exists r, snd run = Ret r)
  \/ (fst run = [Goto networkidle; Sleep 1; Goto networkidle; Goto load]
      /\ exists r, snd run = Ret r)
  \/ fst run = [Goto networkidle; Sleep 1; Goto networkidle; Goto load; Sleep 2;
                Goto networkidle].
Proof.
  unfold _navigate_with_retries. cbn.
  destruct (pe_goto page 0%nat networkidle); cbn; eauto.
  destruct (pe_goto page 1%nat networkidle); cbn; eauto 6.
  destruct (pe_goto page 2%nat load); cbn; eauto 6.
  destruct (pe_goto page 3%nat networkidle); cbn; auto.
Qed.

(** C1, as amended.  A fetch makes at most three attempts, each of which
    starts with a network-idle navigation; the second attempt, when its
    network-idle navigation has failed, also makes one load-event
    navigation, which is the third call of the fetch: four navigations at
    most.  The sleeps are [2^0] after the first attempt and [2^1] after
    the second, so they never decrease; the fetch ends with a navigation,
    and raises only when the third attempt has failed. *)
Theorem navigate_with_retries_bounds (page : PageEnv) :
  let run := _navigate_with_retries page 3 in
  let navs := navigations (fst run) in
  (length (List.filter (fun w => negb (is_load w)) navs) <= 3)%nat
  /\ (length (List.filter is_load navs) <= 1)%nat
  /\ (forall k, navs !! k = Some load -> k = 2%nat)
  /\ (length navs <= 4)%nat
  /\ (exists n, sleeps (fst run) = firstn n [2 ^ 0; 2 ^ 1])
  /\ (forall i j a b, (i <= j)%nat -> sleeps (fst run) !! i = Some a ->
                      sleeps (fst run) !! j = Some b -> a <= b)
  /\ (exists before w, fst run = (before ++ [Goto w])%list)
  /\ (forall e, snd run = Raise e ->
                fst run = [Goto networkidle; Sleep 1; Goto networkidle; Goto load;
                           Sleep 2; Goto networkidle]).
Proof.
  intros run navs. subst navs.
  pose proof (navigate_runs page) as Hruns. cbv zeta in Hruns.
  change (_navigate_with_retries page 3) with run in Hruns. clearbody run.
  destruct run as [tr out]. cbn [fst snd] in *.
  destruct Hruns as [[-> Hr] | [[-> Hr] | [[-> Hr] | -> ]]]; cbn.
  all: repeat split; try lia.
  all: try (intros [|[|[|[|[|k]]]]]; cbn; congruence).
  all: try (first [exists 0%nat; reflexivity | exists 1%nat; reflexivity
                  | exists 2%nat; reflexivity]).
  all: try (intros [|[|i]] [|[|j]] a b Hij; cbn; intros; simplify_eq; lia).
  all: try (intros e He; destruct Hr as [r Hr]; congruence).
  - exists (@nil event). exists networkidle. reflexivity.
  - exists [Goto networkidle; Sleep 1]. exists networkidle. reflexivity.
  - exists [Goto networkidle; Sleep 1; Goto networkidle]. exists load. reflexivity.
  - exists [Goto networkidle; Sleep 1; Goto networkidle; Goto load; Sleep 2].
    exists networkidle. reflexivity.
Qed.

(** ** The directed crawl *)

(** A fetch that fails, because the navigation raised on every attempt,
    gave no response, or gave a status of 400 or more, makes
    [_crawl_page] return [None]. *)
Lemma failed_fetch_returns_none (browser : Browser) (u : string) (page : PageEnv) :
  browser u = Ret page -> pe_close page = None ->
  (forall response, snd (_navigate_with_retries page 3) = Ret (Some response) ->
                    400 <= status response) ->
  crawl_page browser u = Ret None.
Proof.
  intros Hb Hc Hfail. unfold _crawl_page, crawl_page_body. rewrite Hb, Hc.
  destruct (pe_route page); [reflexivity|].
  destruct (snd (_navigate_with_retries page 3)) as [[response|]|e]; try reflexivity.
  specialize (Hfail response eq_refl).
  destruct (status response >=? 400) eqn:E; [reflexivity|lia].
Qed.

(** C2, as amended.  For a URL whose fetch fails (no response, a status
    of 400 or more, or retries exhausted) the directed crawl adds one to
    [pages_failed] and leaves the other counters and the error list as
    they were; an entry [url: error] is appended, with the same
    increment, when an exception leaves [_crawl_page].  A directed crawl
    of a URL that is fetched and of one that fails in this way ends with
    one page crawled, one failed, and an empty error list. *)
Theorem directed_failure_is_counted
        (browser : Browser) (u : string) (page : PageEnv) (r : Results)
        (Hpage : browser u = Ret page)
        (Hclose : pe_close page = None)
        (Hfail : forall response,
            snd (_navigate_with_retries page 3) = Ret (Some response) ->
            400 <= status response) :
  let r' := step_directed browser r u in
  pages_failed r' = S (pages_failed r)
  /\ pages_crawled r' = pages_crawled r
  /\ errors r' = errors r
  /\ (forall browser' e,
         crawl_page browser' u = Raise e ->
         step_directed browser' r u = add_error (add_failed r) (u +:+ ": " +:+ e))
  /\ (forall ok pd,
         crawl_page browser ok = Ret (Some pd) ->
         _crawl_directed urljoin netloc json_loads markdownify_soup browser [ok; u]
                         new_results
         = {| total_pages := 2; pages_crawled := 1; pages_failed := 1; errors := [] |}).
Proof.
  pose proof (failed_fetch_returns_none browser u page Hpage Hclose Hfail) as Hnone.
  cbv zeta. unfold directed_body. rewrite Hnone.
  repeat split.
  - intros browser' e He. rewrite He. reflexivity.
  - intros ok pd Hok. unfold _crawl_directed. cbn [fold_left length].
    unfold directed_body. rewrite Hok, Hnone. reflexivity.
Qed.

(** ** Open Graph and Twitter data *)

(** A dictionary filled by a loop of assignments holds, under a key, the
    value of the last element assigned to that key. *)
Lemma fold_insert_lookup (key val : Tag -> string) (l : list Tag)
      (d : gmap string string) (k : string) :
  fold_left (fun d t => <[key t := val t]> d) l d !! k =
  match List.find (fun t => String.eqb (key t) k) (rev l) with
  | Some t => Some (val t)
  | None => d !! k
  end.
Proof.
  revert d. induction l as [|t l IH] using rev_ind; intros d; [reflexivity|].
  rewrite fold_left_app, rev_app_distr. cbn.
  rewrite lookup_insert. destruct (String.eqb_spec (key t) k) as [->|Hne].
  - rewrite decide_True; auto.
  - rewrite decide_False; auto.
Qed.

Lemma merge_dicts_lookup (a b : gmap string string) (k : string) :
  merge_dicts a b !! k =
  match b !! k with Some v => Some v | None => a !! k end.
Proof.
  unfold merge_dicts. rewrite lookup_union.
  destruct (b !! k), (a !! k); reflexivity.
Qed.

(** The value under a key of the Twitter dictionary is the content of the
    last [twitter:] tag of that key. *)
Lemma twitter_data_lookup (soup : list Tag) (k : string) :
  twitter_data soup !! k =
  match List.find (fun t => String.eqb (PyStr.replace (get t "name") "twitter:" "") k)
                  (rev (find_all soup "meta" (attr_matches "name" "twitter:"))) with
  | Some t => Some (get t "content")
  | None => None
  end.
Proof.
  unfold twitter_data.
  rewrite (fold_insert_lookup (fun t => PyStr.replace (get t "name") "twitter:" "")
                              (fun t => get t "content")).
  destruct (List.find _ _); [reflexivity|apply lookup_empty].
Qed.

(** C8.  When a key is defined by an [og:] tag and by a [twitter:] tag
    of one page, the merged map of the page record holds the Twitter
    value: the Twitter dictionary is the one applied last. *)
Theorem og_json_twitter_wins
        (doc : Document) (u : string) (pd : PageData J) (k x y : string)
        (Hpd : extract_page_data doc u = Ret pd)
        (Hog : og_data (doc_tags doc) !! k = Some x)
        (Htw : twitter_data (doc_tags doc) !! k = Some y) :
  og_json pd !! k = Some y.
Proof.
  apply extract_page_data_inv in Hpd as (_ & _ & Hmerge & _).
  rewrite Hmerge, merge_dicts_lookup, Htw. reflexivity.
Qed.

(** Scenario D, for any two values and in either order of the tags. *)
Lemma scenario_D_title (X Y : string) :
  merge_dicts (og_data (Scenario.tags_D X Y)) (twitter_data (Scenario.tags_D X Y))
    !! "title" = Some Y
  /\ merge_dicts (og_data (rev (Scenario.tags_D X Y)))
                 (twitter_data (rev (Scenario.tags_D X Y))) !! "title" = Some Y.
Proof.
  rewrite !merge_dicts_lookup, !twitter_data_lookup. split; reflexivity.
Qed.

(** ** Links *)

(** C10.  The link list of a page record has one entry per anchor with
    an [href], in document order.  An [href] that does not begin with
    [http://] or [https://] is resolved against the page URL and marked
    internal, whatever host the resolved URL has; only an [href] that
    begins with one of the two has the flag computed, by comparing its
    [netloc] with that of the page. *)
Theorem relative_href_is_internal
        (doc : Document) (u : string) (pd : PageData J) (a : Tag)
        (Hpd : extract_page_data doc u = Ret pd)
        (Hanchor : In a (find_all (doc_tags doc) "a" (has_attr "href"))) :
  let href := get a "href" in
  let absolute := PyStr.startswith href "http://" || PyStr.startswith href "https://" in
  links_json pd
  = map (link_of urljoin netloc u (netloc u)) (find_all (doc_tags doc) "a" (has_attr "href"))
  /\ In (link_of urljoin netloc u (netloc u) a) (links_json pd)
  /\ (absolute = false ->
      link_of urljoin netloc u (netloc u) a
      = {| link_url := urljoin u href; link_text := tag_text a; is_internal := true |})
  /\ (absolute = true ->
      link_of urljoin netloc u (netloc u) a
      = {| link_url := href; link_text := tag_text a;
           is_internal := String.eqb (netloc href) (netloc u) |}).
Proof.
  cbn zeta. apply extract_page_data_inv in Hpd as (_ & _ & _ & Hlinks).
  rewrite Hlinks. unfold extract_links. repeat split.
  - apply in_map. exact Hanchor.
  - intros Habs. unfold link_of. rewrite Habs. reflexivity.
  - intros Habs. unfold link_of. rewrite Habs. reflexivity.
Qed.

(** ** The frontier of the full-site crawl *)

Local Abbreviation body := (full_site_body urljoin netloc json_loads markdownify_soup list_of_set).
Local Abbreviation loop := (full_site_loop urljoin netloc json_loads markdownify_soup list_of_set).
Local Abbreviation reach := (reachable urljoin netloc json_loads markdownify_soup list_of_set).

(** One pass either drops the head of the queue and leaves the visited
    set alone, or adds the head, which was not in it, to the visited set. *)
Lemma full_site_body_cases (browser : Browser) (config : CrawlerConfig)
      (st : Frontier) (u : string) (d : Z) (rest : list (string * Z)) :
  to_visit st = (u, d) :: rest ->
  (visited (body browser config st) = visited st
   /\ to_visit (body browser config st) = rest)
  \/ ((u ∉ visited st) /\ visited (body browser config st) = {[u]} ∪ visited st).
Proof.
  intros Hq. unfold full_site_body. rewrite Hq.
  destruct (bool_decide (u ∈ visited st)) eqn:Hin; cbn; [left; auto|].
  apply bool_decide_eq_false in Hin.
  destruct (d >? max_depth config); cbn; [left; auto|].
  right. split; [exact Hin|].
  destruct (_crawl_page _ _ _ _ browser u) as [[pd|]|e]; reflexivity.
Qed.

Lemma size_add_fresh (u : string) (X : gset string) :
  u ∉ X -> size ({[u]} ∪ X) = S (size X).
Proof.
  intros Hu. rewrite size_union by set_solver. rewrite size_singleton. reflexivity.
Qed.

Lemma continues_true (config : CrawlerConfig) (st : Frontier) :
  continues config st = true ->
  Z.of_nat (size (visited st)) < max_pages config
  /\ exists u d rest, to_visit st = (u, d) :: rest.
Proof.
  unfold continues. destruct (to_visit st) as [|[u d] rest]; [discriminate|].
  intros H. split; [lia|]. eauto.
Qed.

(** The bound on the visited set is kept by every pass. *)
Lemma visited_bound_step (browser : Browser) (config : CrawlerConfig) (st : Frontier) :
  continues config st = true ->
  Z.of_nat (size (visited (body browser config st))) <= max_pages config.
Proof.
  intros Hc. apply continues_true in Hc as (Hlt & u & d & rest & Hq).
  destruct (full_site_body_cases browser config st u d rest Hq) as [[-> _]|[Hu ->]].
  - lia.
  - rewrite size_add_fresh by exact Hu. lia.
Qed.

(** The loop ends: the pair of the room left in the visited set and the
    length of the queue goes down, in the lexicographic order. *)
Lemma full_site_loop_terminates_from (browser : Browser) (config : CrawlerConfig) :
  forall (room len : nat) (st : Frontier),
    (Z.to_nat (max_pages config - Z.of_nat (size (visited st))) <= room)%nat ->
    (length (to_visit st) <= len)%nat ->
    exists fuel st', loop fuel browser config st = Some st'.
Proof.
  induction room as [|room IHroom]; intros len; induction len as [|len IHlen];
    intros st Hroom Hlen.
  1-3: exists 1%nat, st; cbn;
    destruct (continues config st) eqn:Hc; [exfalso|reflexivity];
    apply continues_true in Hc as (Hlt & u & d & rest & Hq);
    rewrite ?Hq in Hlen; cbn in Hlen; lia.
  destruct (continues config st) eqn:Hc.
  - pose proof Hc as Hc'.
    apply continues_true in Hc' as (Hlt & u & d & rest & Hq).
    destruct (full_site_body_cases browser config st u d rest Hq)
      as [[Hv Hr]|[Hu Hv]].
    + destruct (IHlen (body browser config st)) as (fuel & st' & Hloop).
      * rewrite Hv. exact Hroom.
      * rewrite Hr. rewrite Hq in Hlen. cbn in Hlen. lia.
      * exists (S fuel), st'. cbn. rewrite Hc. exact Hloop.
    + destruct (IHroom (length (to_visit (body browser config st)))
                       (body browser config st)) as (fuel & st' & Hloop).
      * rewrite Hv, size_add_fresh by exact Hu. lia.
      * lia.
      * exists (S fuel), st'. cbn. rewrite Hc. exact Hloop.
  - exists 1%nat, st. cbn. rewrite Hc. reflexivity.
Qed.

(** What the loop returns is a reachable state in which the loop
    condition is false. *)
Lemma full_site_loop_result (browser : Browser) (config : CrawlerConfig)
      (st0 : Frontier) (fuel : nat) :
  forall st st', reach browser config st0 st ->
                 loop fuel browser config st = Some st' ->
                 reach browser config st0 st' /\ continues config st' = false.
Proof.
  induction fuel as [|fuel IH]; intros st st' Hreach; cbn; [discriminate|].
  destruct (continues config st) eqn:Hc.
  - intros Hloop. apply (IH (body browser config st)); [|exact Hloop].
    apply reach_step; assumption.
  - intros [= <-]. auto.
Qed.

(** C5.  With a page limit that is not negative, the visited set never
    holds more than [max_pages] URLs at any loop head of a full-site
    crawl; the loop condition is false exactly when the queue is empty or
    the visited set has reached [max_pages]; and the loop does halt, in
    such a state. *)
Theorem visited_bounded_and_halts
        (browser : Browser) (config : CrawlerConfig) (domain : string) (r0 : Results)
        (Hpages : 0 <= max_pages config) :
  let st0 := start_frontier domain r0 in
  (forall st, reach browser config st0 st ->
              Z.of_nat (size (visited st)) <= max_pages config)
  /\ (forall st, reach browser config st0 st ->
                 (continues config st = false
                  <-> to_visit st = [] \/ Z.of_nat (size (visited st)) = max_pages config))
  /\ (exists fuel st,
         loop fuel browser config st0 = Some st
         /\ reach browser config st0 st
         /\ (to_visit st = [] \/ Z.of_nat (size (visited st)) = max_pages config)).
Proof.
  intros st0.
  assert (Hinv : forall st, reach browser config st0 st ->
                            Z.of_nat (size (visited st)) <= max_pages config).
  { intros st Hreach. induction Hreach as [|st Hreach IH Hc].
    - cbn. rewrite size_empty. exact Hpages.
    - apply visited_bound_step. exact Hc. }
  assert (Hhalt : forall st, reach browser config st0 st ->
                 (continues config st = false
                  <-> to_visit st = [] \/ Z.of_nat (size (visited st)) = max_pages config)).
  { intros st Hreach. specialize (Hinv st Hreach). unfold continues.
    destruct (to_visit st) as [|[u d] rest].
    - split; auto.
    - split.
      + intros H. right. lia.
      + intros [H|H]; [discriminate|lia]. }
  split; [exact Hinv|]. split; [exact Hhalt|].
  destruct (full_site_loop_terminates_from browser config
              (Z.to_nat (max_pages config - Z.of_nat (size (visited st0))))
              (length (to_visit st0)) st0) as (fuel & st & Hloop); [lia|lia|].
  exists fuel, st.
  destruct (full_site_loop_result browser config st0 fuel st0 st (reach_start _ _ _ _ _ _ _ _) Hloop)
    as (Hreach & Hc).
  split; [exact Hloop|]. split; [exact Hreach|].
  apply Hhalt; assumption.
Qed.

(** ** The links that are enqueued *)

Lemma is_page_link_spec (link : Link) :
  is_page_link link = true <->
  is_internal link = true /\ link_url link <> ""
  /\ forall ext, In ext asset_extensions -> PyStr.endswith (link_url link) ext = false.
Proof.
  unfold is_page_link. rewrite !andb_true_iff, !negb_true_iff.
  rewrite String.eqb_neq.
  destruct (existsb _ _) eqn:E.
  - apply existsb_exists in E as (ext & Hin & Hend).
    split; [intros [_ H]; discriminate|].
    intros (_ & _ & H). rewrite (H ext Hin) in Hend. discriminate.
  - split; [intros [[H1 H2] _]|intros (H1 & H2 & _); auto].
    repeat split; auto. intros ext Hin.
    destruct (PyStr.endswith (link_url link) ext) eqn:Hend; [|reflexivity].
    assert (existsb (PyStr.endswith (link_url link)) asset_extensions = true)
      by (apply existsb_exists; eauto).
    congruence.
Qed.

Lemma internal_urls_spec (links : list Link) (u : string) :
  In u (internal_urls links) <->
  exists link, In link links /\ link_url link = u /\ is_page_link link = true.
Proof.
  unfold internal_urls. rewrite in_map_iff. split.
  - intros (link & Hu & Hin). apply filter_In in Hin as [Hin Hp]. eauto.
  - intros (link & Hin & Hu & Hp). exists link. split; [exact Hu|].
    apply filter_In. auto.
Qed.

(** C6, as amended.  After a page at a depth below [max_depth] has been
    fetched, the queue is the rest of the old queue followed by the new
    entries.  These are, each once and each at [depth + 1], the URLs of
    the internal links of the page that have no asset extension and are
    not yet visited; their order is the one in which the set of these
    URLs is iterated, which need not be the order of discovery. *)
Theorem links_are_enqueued_in_set_order
        (browser : Browser) (config : CrawlerConfig) (st : Frontier)
        (u : string) (depth : Z) (rest : list (string * Z)) (pd : PageData J)
        (Hset : forall l, NoDup (list_of_set l) /\ forall x, In x (list_of_set l) <-> In x l)
        (Hhead : to_visit st = (u, depth) :: rest)
        (Hnew : u ∉ visited st)
        (Hdepth : depth < max_depth config)
        (Hfetch : crawl_page browser u = Ret (Some pd)) :
  let seen := {[u]} ∪ visited st in
  let new := List.filter (fun v => negb (bool_decide (v ∈ seen)))
                         (list_of_set (internal_urls (links_json pd))) in
  to_visit (body browser config st) = (rest ++ map (fun v => (v, depth + 1)) new)%list
  /\ NoDup new
  /\ (forall v, In v new <->
                (v ∉ seen)
                /\ exists link, In link (links_json pd) /\ link_url link = v
                                /\ is_internal link = true /\ v <> ""
                                /\ forall ext, In ext asset_extensions ->
                                               PyStr.endswith v ext = false).
Proof.
  intros seen new. split; [|split].
  - unfold full_site_body. rewrite Hhead.
    rewrite bool_decide_eq_false_2 by exact Hnew.
    destruct (depth >? max_depth config) eqn:E1; [lia|]. cbn.
    rewrite Hfetch. cbn.
    destruct (depth <? max_depth config) eqn:E2; [|lia].
    reflexivity.
  - subst new. apply NoDup_ListNoDup, List.NoDup_filter, NoDup_ListNoDup, Hset.
  - intros v. subst new. rewrite filter_In, negb_true_iff.
    destruct (Hset (internal_urls (links_json pd))) as [_ Hel].
    rewrite Hel, internal_urls_spec. split.
    + intros [(link & Hin & Hu & Hp) Hv]. apply bool_decide_eq_false in Hv.
      split; [exact Hv|]. apply is_page_link_spec in Hp as (Hi & Hne & Hext).
      exists link. rewrite <- Hu. auto.
    + intros (Hv & link & Hin & Hu & Hi & Hne & Hext).
      split; [|apply bool_decide_eq_false; exact Hv].
      exists link. split; [exact Hin|]. split; [exact Hu|].
      apply is_page_link_spec. rewrite Hu. auto.
Qed.

End CrawlerProperties.

(* --------------------------------------------------------------------- *)
(** ** The status of a finished crawl                                     *)
(* --------------------------------------------------------------------- *)

Import Crawls.

(** C4.  When the browser has started and [crawl_site] has returned, the
    crawl is marked [FAILED] exactly when no page was crawled and some
    page failed, and [COMPLETED] in every other case, partial failures
    included.  A failed crawl stores the first five collected errors,
    joined by a semicolon and a space. *)
Theorem finished_crawl_status (crawl : Crawl) (r : Results) :
  let crawl' := start_crawl_task crawl None r in
  (crawl_status crawl' = FAILED <-> pages_crawled r = 0%nat /\ (0 < pages_failed r)%nat)
  /\ (crawl_status crawl' <> FAILED -> crawl_status crawl' = COMPLETED)
  /\ (crawl_status crawl' = FAILED ->
      error_message crawl' = Some (PyStr.join "; " (firstn 5 (errors r)))
      /\ (length (firstn 5 (errors r)) <= 5)%nat)
  /\ crawl_total_pages crawl' = total_pages r
  /\ crawl_pages_crawled crawl' = pages_crawled r
  /\ crawl_pages_failed crawl' = pages_failed r.
Proof.
  cbn. unfold record_results.
  destruct (0 <? pages_failed r)%nat eqn:Hf, (pages_crawled r =? 0)%nat eqn:Hc; cbn.
  all: apply Nat.ltb_lt in Hf || apply Nat.ltb_ge in Hf.
  all: apply Nat.eqb_eq in Hc || apply Nat.eqb_neq in Hc.
  all: repeat split; try congruence; try lia; try discriminate.
  all: try (intros [? ?]; lia).
  apply firstn_le_length.
Qed.

(** A crawl with three pages crawled and two failed is completed. *)
Example partial_failure_completes :
  crawl_status
    (start_crawl_task
       {| crawl_status := PENDING; crawl_total_pages := 0; crawl_pages_crawled := 0;
          crawl_pages_failed := 0; error_message := None |}
       None
       {| total_pages := 5; pages_crawled := 3; pages_failed := 2;
          errors := ["u: e"] |})
  = COMPLETED.
Proof. reflexivity. Qed.

(** Of seven errors the message keeps five. *)
Example failed_crawl_message :
  error_message
    (start_crawl_task
       {| crawl_status := PENDING; crawl_total_pages := 0; crawl_pages_crawled := 0;
          crawl_pages_failed := 0; error_message := None |}
       None
       {| total_pages := 7; pages_crawled := 0; pages_failed := 7;
          errors := ["1"; "2"; "3"; "4"; "5"; "6"; "7"] |})
  = Some "1; 2; 3; 4; 5".
Proof. reflexivity. Qed.

(* --------------------------------------------------------------------- *)
(** ** The length of the Markdown                                         *)
(* --------------------------------------------------------------------- *)

Import ContentProcessor.

Lemma string_length_app (s t : string) :
  String.length (s +:+ t) = (String.length s + String.length t)%nat.
Proof. induction s as [|a s IH]; simpl; [reflexivity|]. f_equal. exact IH. Qed.

Lemma take_length (n : nat) (s : string) :
  String.length (PyStr.take n s) = Nat.min n (String.length s).
Proof.
  revert s. induction n as [|n IH]; intros [|a s]; cbn; try reflexivity.
  rewrite IH. reflexivity.
Qed.

Lemma adjust_in_range (n i : Z) : 0 <= i <= n -> PyStr.adjust n i = i.
Proof.
  intros H. unfold PyStr.adjust.
  destruct (Z.ltb_spec i 0); [lia|].
  destruct (Z.ltb_spec i 0); [lia|].
  destruct (Z.ltb_spec n i); [lia|reflexivity].
Qed.

(** A slice from the start of a string that is longer than the bound. *)
Lemma slice_to_long (s : string) (b : Z) :
  0 <= b < PyStr.len s -> PyStr.slice_to s b = PyStr.take (Z.to_nat b) s.
Proof.
  intros Hb. unfold PyStr.slice_to, PyStr.slice.
  rewrite !adjust_in_range by lia. rewrite Z.sub_0_r. reflexivity.
Qed.

(** What the limit of [_clean_markdown] does to the tidied text [m]. *)
Lemma clean_markdown_cases (markdown : string) :
  let m := tidy_markdown markdown in
  (PyStr.len m <= max_chars /\ _clean_markdown markdown = m)
  \/ (max_chars < PyStr.len m
      /\ _clean_markdown markdown = PyStr.take (Z.to_nat max_chars) m +:+ "..."
      /\ PyStr.len (_clean_markdown markdown) = max_chars + 3).
Proof.
  intros m. unfold _clean_markdown. fold m.
  destruct (PyStr.len m >? max_chars) eqn:E.
  - right. assert (Hlt : max_chars < PyStr.len m) by lia.
    split; [exact Hlt|]. unfold max_chars in *.
    rewrite slice_to_long by lia. split; [reflexivity|].
    unfold PyStr.len in *. rewrite string_length_app, take_length.
    change (String.length "...") with 3%nat. lia.
  - left. split; [lia|reflexivity].
Qed.

(** C3, as amended.  The Markdown that [html_to_markdown] returns has at
    most 50003 characters.  A text that is within 50000 characters after
    the substitutions and the trim is returned as it is; a longer one is
    cut to its first 50000 characters and the three characters of the
    ellipsis are appended, which makes 50003. *)
Theorem markdown_length_bound
        (markdownify_soup : string -> outcome string) (html md : string)
        (Hmd : html_to_markdown markdownify_soup html = Ret md) :
  PyStr.len md <= 50003
  /\ (html = "" -> md = "")
  /\ (forall raw, html <> "" -> markdownify_soup html = Ret raw ->
        let m := tidy_markdown raw in
        (PyStr.len m <= 50000 -> md = m)
        /\ (50000 < PyStr.len m ->
            md = PyStr.take (Z.to_nat 50000) m +:+ "..." /\ PyStr.len md = 50003)).
Proof.
  unfold html_to_markdown in Hmd.
  destruct (String.eqb_spec html "") as [->|Hne].
  - injection Hmd as <-. split; [unfold PyStr.len; cbn; lia|]. split; [reflexivity|].
    intros raw Hne. congruence.
  - destruct (markdownify_soup html) as [raw|e] eqn:Hraw; cbn in Hmd; [|discriminate].
    injection Hmd as <-.
    pose proof (clean_markdown_cases raw) as Hcases. cbn zeta in Hcases.
    unfold max_chars in Hcases.
    split; [|split].
    + destruct Hcases as [[Hle ->]|(Hlt & _ & Hlen)]; lia.
    + intros ->. congruence.
    + intros raw' _ [= <-]. cbn zeta. split.
      * intros Hle. destruct Hcases as [[_ ->]|(Hlt & _)]; [reflexivity|lia].
      * intros Hlt. destruct Hcases as [[Hle _]|(_ & -> & Hlen)]; [lia|].
        split; [reflexivity|]. rewrite Hlen. reflexivity.
Qed.

(** *** A text of 50001 letters *)

Lemma list_of_repeat_char (c : ascii) (n : nat) :
  list_ascii_of_string (PyStr.repeat_char c n) = List.repeat c n.
Proof. induction n as [|n IH]; cbn; [reflexivity|]. rewrite IH. reflexivity. Qed.

Lemma string_of_repeat (c : ascii) (n : nat) :
  string_of_list_ascii (List.repeat c n) = PyStr.repeat_char c n.
Proof. induction n as [|n IH]; cbn; [reflexivity|]. rewrite IH. reflexivity. Qed.

Lemma repeat_char_length (c : ascii) (n : nat) :
  String.length (PyStr.repeat_char c n) = n.
Proof. induction n as [|n IH]; cbn; [reflexivity|]. rewrite IH. reflexivity. Qed.

Lemma take_repeat_char (c : ascii) (m n : nat) :
  (m <= n)%nat -> PyStr.take m (PyStr.repeat_char c n) = PyStr.repeat_char c m.
Proof.
  revert n. induction m as [|m IH]; intros [|n] H; cbn; try reflexivity; try lia.
  rewrite IH by lia. reflexivity.
Qed.

(** A substitution whose pattern cannot start at the letter [a] leaves a
    run of that letter alone. *)
Lemma sub_run_of_a (pat : Re.pattern) (repl : list Re.piece) (n : nat) :
  (forall prev s, Re.matches pat prev ("a"%char :: s) 0 0 0 = None) ->
  Re.sub pat repl (PyStr.repeat_char "a" n) = PyStr.repeat_char "a" n.
Proof.
  intros Hpat. unfold Re.sub. rewrite list_of_repeat_char.
  rewrite <- (string_of_repeat "a" n). f_equal.
  generalize (@None ascii). induction n as [|n IH]; intros prev; cbn [List.repeat Re.sub_go].
  - reflexivity.
  - rewrite Hpat. f_equal. apply IH.
Qed.

Lemma strip_run_of_a (n : nat) :
  PyStr.strip (PyStr.repeat_char "a" n) = PyStr.repeat_char "a" n.
Proof.
  unfold PyStr.strip.
  assert (Hl : PyStr.lstrip (PyStr.repeat_char "a" n) = PyStr.repeat_char "a" n)
    by (destruct n; reflexivity).
  rewrite Hl. clear Hl. induction n as [|n IH]; [reflexivity|].
  cbn [PyStr.repeat_char PyStr.rstrip]. rewrite IH.
  destruct n; reflexivity.
Qed.

Lemma tidy_run_of_a (n : nat) :
  tidy_markdown (PyStr.repeat_char "a" n) = PyStr.repeat_char "a" n.
Proof.
  unfold tidy_markdown.
  rewrite (sub_run_of_a blank_lines) by reflexivity.
  rewrite strip_run_of_a.
  rewrite (sub_run_of_a list_marker)
    by (intros prev s; unfold list_marker; cbn [Re.matches];
        destruct (Re.at_bol prev); reflexivity).
  rewrite (sub_run_of_a empty_link) by reflexivity.
  rewrite (sub_run_of_a stars) by reflexivity.
  rewrite (sub_run_of_a underscores) by reflexivity.
  reflexivity.
Qed.

Lemma clean_run_of_a (n : nat) :
  50000 < Z.of_nat n ->
  html_to_markdown Scenario.plain_text (PyStr.repeat_char "a" n)
  = Ret (PyStr.repeat_char "a" (Z.to_nat 50000) +:+ "...").
Proof.
  intros Hn. unfold html_to_markdown, Scenario.plain_text.
  destruct n as [|n]; [lia|].
  change (String.eqb (PyStr.repeat_char "a" (S n)) "") with false.
  cbv iota.
  change (Ret (PyStr.repeat_char "a" (S n)) ≫= ?f)
    with (f (PyStr.repeat_char "a" (S n))).
  cbv beta. f_equal.
  destruct (clean_markdown_cases (PyStr.repeat_char "a" (S n)))
    as [[Hle _]|(_ & -> & _)].
  - rewrite tidy_run_of_a in Hle. unfold PyStr.len, max_chars in Hle.
    rewrite repeat_char_length in Hle. lia.
  - rewrite tidy_run_of_a. unfold max_chars.
    rewrite take_repeat_char by lia. reflexivity.
Qed.

(** C3, the counterexample.  A text of 50001 letters [a] comes back as
    50000 letters and the ellipsis: 50003 characters, which is more than
    50000. *)
Lemma long_text_exceeds_cap :
  html_to_markdown Scenario.plain_text (PyStr.repeat_char "a" (Z.to_nat 50001))
  = Ret (PyStr.repeat_char "a" (Z.to_nat 50000) +:+ "...")
  /\ PyStr.len (PyStr.repeat_char "a" (Z.to_nat 50000) +:+ "...") = 50003.
Proof.
  split.
  - apply clean_run_of_a. lia.
  - unfold PyStr.len. rewrite string_length_app, repeat_char_length.
    change (String.length "...") with 3%nat. lia.
Qed.

(* --------------------------------------------------------------------- *)
(** ** The chunking loop                                                  *)
(* --------------------------------------------------------------------- *)

(** With an overlap of at most half the chunk size the cursor moves
    forward in every pass: a cut is made past the middle of the window,
    or at its edge. *)
Lemma next_start_advances (text : string) (chunk_size overlap start : Z) :
  0 <= start -> 0 < chunk_size -> 0 <= overlap <= chunk_size / 2 ->
  start < next_start text chunk_size overlap start.
Proof.
  intros Hs Hc Ho. unfold next_start, chunk_body.
  pose proof (Z.mul_div_le chunk_size 2 ltac:(lia)) as Hhalf.
  generalize dependent (chunk_size / 2). intros half Ho Hhalf.
  generalize (PyStr.rfind text "." start (start + chunk_size)).
  generalize (PyStr.rfind text blank_line start (start + chunk_size)).
  generalize (PyStr.rfind text " " start (start + chunk_size)).
  intros word_break para_break sentence_end. cbn [snd].
  repeat match goal with
         | |- context [if ?b then _ else _] => destruct b eqn:?
         end; lia.
Qed.

Lemma chunk_loop_terminates (text : string) (chunk_size overlap : Z) :
  0 < chunk_size -> 0 <= overlap <= chunk_size / 2 ->
  forall (n : nat) (start : Z) (chunks : list string),
    0 <= start -> PyStr.len text - start <= Z.of_nat n ->
    exists fuel r, chunk_loop fuel text chunk_size overlap start chunks = Some r.
Proof.
  intros Hc Ho. induction n as [|n IH]; intros start chunks Hs Hn.
  - exists 1%nat, chunks. cbn. destruct (Z.ltb_spec start (PyStr.len text)); [lia|reflexivity].
  - destruct (Z.ltb_spec start (PyStr.len text)) as [Hlt|Hge].
    + pose proof (next_start_advances text chunk_size overlap start Hs Hc Ho) as Hadv.
      unfold next_start in Hadv.
      destruct (chunk_body text chunk_size overlap start) as [chunk start'] eqn:Hbody.
      cbn [snd] in Hadv.
      destruct (IH start' (match chunk with Some c => chunks ++ [c] | None => chunks end)%list)
        as (fuel & r & Hloop); [lia|lia|].
      exists (S fuel), r. cbn [chunk_loop].
      destruct (Z.ltb_spec start (PyStr.len text)); [|lia].
      rewrite Hbody. exact Hloop.
    + exists 1%nat, chunks. cbn. destruct (Z.ltb_spec start (PyStr.len text)); [lia|reflexivity].
Qed.

(** The loop ends when the overlap is at most half the chunk size, as it
    is for the sizes the crawler uses, 1000 and 200. *)
Lemma chunk_text_terminates (text : string) (chunk_size overlap : Z) :
  0 < chunk_size -> 0 <= overlap <= chunk_size / 2 ->
  exists fuel chunks, _chunk_text fuel text chunk_size overlap = Some chunks.
Proof.
  intros Hc Ho. unfold _chunk_text.
  destruct (PyStr.len text <=? chunk_size).
  - exists 0%nat, [text]. reflexivity.
  - apply (chunk_loop_terminates text chunk_size overlap Hc Ho
             (Z.to_nat (PyStr.len text)) 0 []); lia.
Qed.

(** In the text of twenty-five letters, with chunks of ten and an overlap
    of ten, the pass from cursor 10 cuts at 20 and sets the cursor to
    [20 - 10 = 10]: this is not zero or less, so the cursor is not
    forced to 20 and stays where it was. *)
Lemma cursor_stays_at_10 :
  chunk_body Scenario.letters 10 10 10 = (Some "aaaaaaaaaa", 10).
Proof. vm_compute. reflexivity. Qed.

Lemma chunk_loop_stalls (fuel : nat) (chunks : list string) :
  chunk_loop fuel Scenario.letters 10 10 10 chunks = None.
Proof.
  revert chunks. induction fuel as [|fuel IH]; intros chunks; [reflexivity|].
  cbn [chunk_loop].
  change (10 <? PyStr.len Scenario.letters) with true. cbv iota.
  rewrite cursor_stays_at_10. apply IH.
Qed.

(** C7, on the code.  For a text of twenty-five letters, a chunk size
    of 10 and an overlap of 10, the loop of [_chunk_text] does not end:
    no number of passes gives a result. *)
Theorem chunk_text_runs_forever (fuel : nat) :
  _chunk_text fuel Scenario.letters 10 10 = None.
Proof.
  unfold _chunk_text.
  change (PyStr.len Scenario.letters <=? 10) with false. cbv iota.
  destruct fuel as [|fuel]; [reflexivity|].
  cbn [chunk_loop].
  change (0 <? PyStr.len Scenario.letters) with true. cbv iota.
  replace (chunk_body Scenario.letters 10 10 0) with (Some "aaaaaaaaaa", 10)
    by (vm_compute; reflexivity).
  apply chunk_loop_stalls.
Qed.

(* --------------------------------------------------------------------- *)
(** ** The scenarios                                                      *)
(* --------------------------------------------------------------------- *)

Local Abbreviation crawl_page_S :=
  (_crawl_page Scenario.urljoin Scenario.netloc Scenario.json_loads Scenario.plain_text).
Local Abbreviation extract_S :=
  (_extract_page_data Scenario.urljoin Scenario.netloc Scenario.json_loads
                      Scenario.plain_text).
Local Abbreviation directed_S :=
  (_crawl_directed Scenario.urljoin Scenario.netloc Scenario.json_loads
                   Scenario.plain_text).

(** C1, the counterexample.  When every navigation times out, the page
    is navigated to four times: three times waiting for the network to
    be idle and once, in the second attempt, waiting for the load event. *)
Lemma four_navigations_when_unreachable :
  _navigate_with_retries Scenario.unreachable_page 3
  = ([Goto networkidle; Sleep 1; Goto networkidle; Goto load; Sleep 2; Goto networkidle],
     Raise "Timeout 30000ms exceeded")
  /\ length (navigations (fst (_navigate_with_retries Scenario.unreachable_page 3))) = 4%nat.
Proof. split; reflexivity. Qed.

(** C2, the counterexample.  Scenario C ends with one page crawled and
    one failed, and with an empty error list: nothing in it refers to the
    URL that answered 404. *)
Lemma scenario_C_has_no_error_entry :
  directed_S Scenario.browser_C ["https://a/ok"; "https://a/404"] new_results
  = {| total_pages := 2; pages_crawled := 1; pages_failed := 1; errors := [] |}.
Proof. vm_compute. reflexivity. Qed.

(** Scenario C, through the theorem on failed fetches. *)
Lemma directed_failure_is_counted_witness :
  Scenario.browser_C "https://a/404" = Ret (Scenario.page_with_status 404 [])
  /\ (let r' := directed_body Scenario.urljoin Scenario.netloc Scenario.json_loads
                              Scenario.plain_text Scenario.browser_C new_results
                              "https://a/404" in
      pages_failed r' = 1%nat /\ pages_crawled r' = 0%nat /\ errors r' = [])
  /\ directed_S Scenario.browser_C ["https://a/ok"; "https://a/404"] new_results
     = {| total_pages := 2; pages_crawled := 1; pages_failed := 1; errors := [] |}.
Proof.
  split; [reflexivity|].
  destruct (directed_failure_is_counted
              Scenario.urljoin Scenario.netloc Scenario.json_loads Scenario.plain_text
              Scenario.browser_C "https://a/404" (Scenario.page_with_status 404 [])
              new_results eq_refl eq_refl) as (Hf & Hc & He & _ & Hscenario).
  - intros response H. vm_compute in H. injection H as <-. vm_compute. discriminate.
  - split; [cbv zeta; auto|].
    eapply (Hscenario "https://a/ok"). vm_compute. reflexivity.
Defined.

(** A short text with an empty link and a run of stars. *)
Lemma markdown_length_bound_witness :
  html_to_markdown Scenario.plain_text "a  [b]( ) ***" = Ret "a  b **"
  /\ PyStr.len "a  b **" <= 50003.
Proof.
  assert (H : html_to_markdown Scenario.plain_text "a  [b]( ) ***" = Ret "a  b **")
    by (vm_compute; reflexivity).
  split; [exact H|].
  apply (markdown_length_bound Scenario.plain_text "a  [b]( ) ***" "a  b **" H).
Defined.

(** A response with status 204 gives a record with status code 200. *)
Lemma page_record_status_is_200_witness :
  exists pd,
    crawl_page_S (fun _ => Ret (Scenario.page_with_status 204 [])) "https://a/"
    = Ret (Some pd)
    /\ pe_goto (Scenario.page_with_status 204 []) 0 networkidle
       = Ret (Some {| status := 204 |})
    /\ status_code pd = 200.
Proof.
  eexists. split; [vm_compute; reflexivity|]. split; [reflexivity|].
  eapply (page_record_status_is_200
            Scenario.urljoin Scenario.netloc Scenario.json_loads Scenario.plain_text
            (fun _ => Ret (Scenario.page_with_status 204 [])) "https://a/").
  vm_compute. reflexivity.
Defined.

(** Scenario D, through the theorem on the merged map. *)
Lemma og_json_twitter_wins_witness :
  exists pd,
    extract_S (Scenario.document (Scenario.tags_D "X" "Y")) "https://a/" = Ret pd
    /\ og_data (Scenario.tags_D "X" "Y") !! "title" = Some "X"
    /\ twitter_data (Scenario.tags_D "X" "Y") !! "title" = Some "Y"
    /\ og_json pd !! "title" = Some "Y".
Proof.
  eexists. split; [vm_compute; reflexivity|].
  assert (Hog : og_data (Scenario.tags_D "X" "Y") !! "title" = Some "X") by reflexivity.
  assert (Htw : twitter_data (Scenario.tags_D "X" "Y") !! "title" = Some "Y") by reflexivity.
  split; [exact Hog|]. split; [exact Htw|].
  apply (og_json_twitter_wins
           Scenario.urljoin Scenario.netloc Scenario.json_loads Scenario.plain_text
           (Scenario.document (Scenario.tags_D "X" "Y")) "https://a/" _ "title" "X" "Y");
    [vm_compute; reflexivity|exact Hog|exact Htw].
Defined.

(** A link to [//other-host/x] on a page of host [a] is marked internal. *)
Lemma relative_href_is_internal_witness :
  exists pd,
    extract_S (Scenario.document Scenario.tags_other_host) "https://a/" = Ret pd
    /\ Scenario.netloc "https://a/" = "a"
    /\ Scenario.netloc (Scenario.urljoin "https://a/" "//other-host/x") = "other-host"
    /\ In {| link_url := "https://other-host/x"; link_text := "elsewhere";
             is_internal := true |} (links_json pd).
Proof.
  eexists. split; [vm_compute; reflexivity|].
  split; [reflexivity|]. split; [reflexivity|].
  eapply (relative_href_is_internal
            Scenario.urljoin Scenario.netloc Scenario.json_loads Scenario.plain_text
            (Scenario.document Scenario.tags_other_host) "https://a/" _
            (Scenario.anchor "//other-host/x" "elsewhere")).
  - vm_compute. reflexivity.
  - left. reflexivity.
Defined.

(** The two iteration orders of the scenarios list every element of the
    set once. *)
Lemma in_order_lists_the_set (l : list string) :
  NoDup (Scenario.in_order l) /\ forall x, In x (Scenario.in_order l) <-> In x l.
Proof.
  unfold Scenario.in_order. split; [apply NoDup_remove_dups|].
  intros x. rewrite <- !list_elem_of_In. apply elem_of_remove_dups.
Qed.

Lemma back_to_front_lists_the_set (l : list string) :
  NoDup (Scenario.back_to_front l)
  /\ forall x, In x (Scenario.back_to_front l) <-> In x l.
Proof.
  unfold Scenario.back_to_front. split.
  - apply NoDup_ListNoDup, List.NoDup_rev, NoDup_ListNoDup, NoDup_remove_dups.
  - intros x. rewrite <- in_rev, <- !list_elem_of_In. apply elem_of_remove_dups.
Qed.

(** C6, the counterexample.  The root page lists [p1], [p2], [p3] and an
    image, in this order.  With a set that is iterated back to front the
    queue after the root page holds [p3], [p2], [p1]: the order of
    discovery is not kept. *)
Lemma discovery_order_not_kept :
  (forall l, NoDup (Scenario.back_to_front l)
             /\ forall x, In x (Scenario.back_to_front l) <-> In x l)
  /\ internal_urls
       (extract_links Scenario.urljoin Scenario.netloc
          [Scenario.link_to "https://a/p1"; Scenario.link_to "https://a/p2";
           Scenario.link_to "https://a/p3"; Scenario.link_to "https://a/logo.png"]
          "https://a")
     = ["https://a/p1"; "https://a/p2"; "https://a/p3"]
  /\ to_visit
       (full_site_body Scenario.urljoin Scenario.netloc Scenario.json_loads
          Scenario.plain_text Scenario.back_to_front
          Scenario.browser_site (Scenario.config 10 1)
          (start_frontier "a" new_results))
     = [("https://a/p3", 1); ("https://a/p2", 1); ("https://a/p1", 1)].
Proof.
  split; [exact back_to_front_lists_the_set|].
  split; vm_compute; reflexivity.
Qed.

(** The queue after the root page of the site, with a set iterated in
    the order of insertion. *)
Lemma links_are_enqueued_in_set_order_witness :
  exists pd,
    crawl_page_S Scenario.browser_site "https://a" = Ret (Some pd)
    /\ to_visit
         (full_site_body Scenario.urljoin Scenario.netloc Scenario.json_loads
            Scenario.plain_text Scenario.in_order
            Scenario.browser_site (Scenario.config 10 1)
            (start_frontier "a" new_results))
       = map (fun v => (v, 0 + 1))
             (List.filter
                (fun v => negb (bool_decide (v ∈ ({["https://a"]} ∪ ∅ : gset string))))
                (Scenario.in_order (internal_urls (links_json pd)))).
Proof.
  eexists. split; [vm_compute; reflexivity|].
  eapply (links_are_enqueued_in_set_order
            Scenario.urljoin Scenario.netloc Scenario.json_loads Scenario.plain_text
            Scenario.in_order Scenario.browser_site (Scenario.config 10 1)
            (start_frontier "a" new_results) "https://a" 0 []).
  - exact in_order_lists_the_set.
  - reflexivity.
  - cbn. set_solver.
  - cbn. lia.
  - vm_compute. reflexivity.
Defined.

(** The crawl of the site with a limit of ten pages. *)
Lemma visited_bounded_and_halts_witness :
  0 <= max_pages (Scenario.config 10 1)
  /\ exists fuel st,
      full_site_loop Scenario.urljoin Scenario.netloc Scenario.json_loads
        Scenario.plain_text Scenario.in_order fuel
        Scenario.browser_site (Scenario.config 10 1) (start_frontier "a" new_results)
      = Some st
      /\ reachable Scenario.urljoin Scenario.netloc Scenario.json_loads
           Scenario.plain_text Scenario.in_order
           Scenario.browser_site (Scenario.config 10 1)
           (start_frontier "a" new_results) st
      /\ (to_visit st = []
          \/ Z.of_nat (size (visited st)) = max_pages (Scenario.config 10 1)).
Proof.
  assert (H : 0 <= max_pages (Scenario.config 10 1)) by (cbn; lia).
  split; [exact H|].
  apply (visited_bounded_and_halts
           Scenario.urljoin Scenario.netloc Scenario.json_loads Scenario.plain_text
           Scenario.in_order Scenario.browser_site (Scenario.config 10 1) "a"
           new_results H).
Defined.

(** Scenario B: with a limit of one page the crawl stops after the root,
    with the three links still in the queue. *)
Example scenario_B_stops_at_the_limit :
  exists st,
    full_site_loop Scenario.urljoin Scenario.netloc Scenario.json_loads
      Scenario.plain_text Scenario.in_order 5
      Scenario.browser_site (Scenario.config 1 1) (start_frontier "a" new_results)
    = Some st
    /\ size (visited st) = 1%nat
    /\ to_visit st = [("https://a/p1", 1); ("https://a/p2", 1); ("https://a/p3", 1)]
    /\ pages_crawled (results st) = 1%nat.
Proof. eexists. split; [vm_compute; reflexivity|]. repeat split; vm_compute; reflexivity. Qed.

(* ===================================================================== *)
(** * Further properties of the crawler                                   *)
(* ===================================================================== *)

(** ** The retry policy for any number of retries *)

Lemma navigate_from_spec (page : PageEnv) (n : nat) :
  forall (todo attempt calls : nat) (tr : list event) (out : outcome (option Response)),
    navigate_from page n todo attempt calls = (tr, out) ->
    (attempt + todo = n)%nat -> (0 < todo)%nat ->
    let k := length (sleeps tr) in
    sleeps tr = map pow2 (seq attempt k)
    /\ length (List.filter (fun w => negb (is_load w)) (navigations tr)) = S k
    /\ (S k <= todo)%nat
    /\ (length (List.filter is_load (navigations tr))
        <= if (attempt <=? 1)%nat && (3 <=? n)%nat then 1 else 0)%nat
    /\ (forall e, out = Raise e -> S k = todo).
Proof.
  induction todo as [|todo IH]; intros attempt calls tr out Hrun Hn Hpos; [lia|].
  cbn [navigate_from] in Hrun.
  destruct (pe_goto page calls networkidle) as [response|e].
  { injection Hrun as <- <-. cbn. repeat split; try lia.
    intros e He. discriminate. }
  destruct (attempt <? n - 1)%nat eqn:Hlast.
  2:{ injection Hrun as <- <-. apply Nat.ltb_ge in Hlast. cbn. repeat split; lia. }
  apply Nat.ltb_lt in Hlast.
  destruct (attempt =? 1)%nat eqn:Hsecond.
  - apply Nat.eqb_eq in Hsecond. subst attempt.
    destruct (pe_goto page (S calls) load) as [response|e2].
    { injection Hrun as <- <-. cbn. repeat split; try lia.
      - destruct n as [|[|[|n']]]; cbn; lia.
      - intros e' He. discriminate. }
    destruct (navigate_from page n todo 2 (S (S calls))) as [tr' out'] eqn:Hrest.
    injection Hrun as <- <-.
    destruct (IH 2%nat (S (S calls)) tr' out' Hrest ltac:(lia) ltac:(lia))
      as (Hs & Hi & Hk & Hl & Hr).
    cbn in Hl. cbn [sleeps navigations flat_map app List.filter is_load negb length].
    fold (sleeps tr'). fold (navigations tr').
    change (sleeps (Goto networkidle :: Goto load :: Sleep (2 ^ Z.of_nat 1) :: tr'))
      with (pow2 1 :: sleeps tr').
    change (navigations (Goto networkidle :: Goto load :: Sleep (2 ^ Z.of_nat 1) :: tr'))
      with (networkidle :: load :: navigations tr').
    cbn [List.filter is_load negb length seq map].
    repeat split.
    + f_equal. exact Hs.
    + rewrite Hi. reflexivity.
    + lia.
    + destruct n as [|[|[|n']]]; cbn in *; lia.
    + intros e' He. rewrite <- (Hr e' He). reflexivity.
  - apply Nat.eqb_neq in Hsecond.
    destruct (navigate_from page n todo (S attempt) (S calls)) as [tr' out'] eqn:Hrest.
    injection Hrun as <- <-.
    destruct (IH (S attempt) (S calls) tr' out' Hrest ltac:(lia) ltac:(lia))
      as (Hs & Hi & Hk & Hl & Hr).
    change (sleeps (Goto networkidle :: Sleep (2 ^ Z.of_nat attempt) :: tr'))
      with (pow2 attempt :: sleeps tr').
    change (navigations (Goto networkidle :: Sleep (2 ^ Z.of_nat attempt) :: tr'))
      with (networkidle :: navigations tr').
    cbn [List.filter is_load negb length seq map].
    repeat split.
    + f_equal. exact Hs.
    + rewrite Hi. reflexivity.
    + lia.
    + destruct attempt as [|[|attempt]]; [| lia |].
      * destruct n as [|[|[|n']]]; cbn in *; lia.
      * cbn in Hl. cbn. lia.
    + intros e' He. rewrite <- (Hr e' He). reflexivity.
Qed.

Lemma sum_pow2 (k : nat) : fold_right Z.add 0 (map pow2 (seq 0 k)) = 2 ^ Z.of_nat k - 1.
Proof.
  induction k as [|k IH]; [reflexivity|].
  rewrite seq_S, map_app, fold_right_app. cbn [map fold_right Nat.add].
  assert (Hgen : forall l a, fold_right Z.add a l = fold_right Z.add 0 l + a).
  { induction l as [|x l IHl]; intros a; cbn; [lia|]. rewrite IHl. lia. }
  rewrite Hgen, IH. unfold pow2. rewrite Nat2Z.inj_succ, Z.pow_succ_r by lia. lia.
Qed.

(** X1.  For any number of retries [n]: with [n = 0] nothing is
    navigated and the result is [None]; otherwise the attempts made are
    one more than the sleeps and at most [n]; the sleep number [i] lasts
    [2^i] seconds, so the sleeps of one fetch add up to at most
    [2^(n-1) - 1] seconds; the load-event navigation is made at most
    once, and never when [n] is below 3; an exception leaves only after
    all [n] attempts. *)
Theorem retry_policy (page : PageEnv) (n : nat) :
  let run := _navigate_with_retries page n in
  let navs := navigations (fst run) in
  let k := length (sleeps (fst run)) in
  (n = 0%nat -> run = ([], Ret None))
  /\ ((0 < n)%nat ->
      length (List.filter (fun w => negb (is_load w)) navs) = S k /\ (S k <= n)%nat)
  /\ sleeps (fst run) = map pow2 (seq 0 k)
  /\ fold_right Z.add 0 (sleeps (fst run)) <= pow2 (n - 1) - 1
  /\ (length (List.filter is_load navs) <= 1)%nat
  /\ ((n < 3)%nat -> List.filter is_load navs = [])
  /\ (forall e, snd run = Raise e -> S k = n).
Proof.
  cbv zeta. unfold _navigate_with_retries.
  destruct n as [|n].
  { cbn. repeat split; try lia; try discriminate. }
  destruct (navigate_from page (S n) (S n) 0 0) as [tr out] eqn:Hrun.
  destruct (navigate_from_spec page (S n) (S n) 0 0 tr out Hrun ltac:(lia) ltac:(lia))
    as (Hs & Hi & Hk & Hl & Hr).
  cbn [fst snd]. split; [discriminate|]. split; [auto|]. split; [exact Hs|].
  split.
  { rewrite Hs, sum_pow2. unfold pow2.
    assert (2 ^ Z.of_nat (length (sleeps tr)) <= 2 ^ Z.of_nat (S n - 1))
      by (apply Z.pow_le_mono_r; lia).
    lia. }
  split.
  { destruct ((0 <=? 1)%nat && (3 <=? S n)%nat); lia. }
  split.
  { intros Hn. destruct (3 <=? S n)%nat eqn:E; [apply Nat.leb_le in E; lia|].
    cbn in Hl. destruct (List.filter is_load (navigations tr)); [reflexivity|cbn in Hl; lia]. }
  exact Hr.
Qed.

Section CrawlInvariants.

Context {J : Type}.
Variable urljoin : string -> string -> string.
Variable netloc : string -> string.
Variable json_loads : option string -> json_result J.
Variable markdownify_soup : string -> outcome string.
Variable list_of_set : list string -> list string.

Local Abbreviation crawl_page :=
  (_crawl_page urljoin netloc json_loads markdownify_soup).
Local Abbreviation step_directed :=
  (directed_body urljoin netloc json_loads markdownify_soup).
Local Abbreviation crawl_directed :=
  (_crawl_directed urljoin netloc json_loads markdownify_soup).
Local Abbreviation body :=
  (full_site_body urljoin netloc json_loads markdownify_soup list_of_set).
Local Abbreviation loop :=
  (full_site_loop urljoin netloc json_loads markdownify_soup list_of_set).
Local Abbreviation reach :=
  (reachable urljoin netloc json_loads markdownify_soup list_of_set).
Local Abbreviation crawl_full_site :=
  (_crawl_full_site urljoin netloc json_loads markdownify_soup list_of_set).
Local Abbreviation crawl :=
  (crawl_site urljoin netloc json_loads markdownify_soup list_of_set).

(** ** The counters of a directed crawl *)

Lemma directed_body_counts (browser : Browser) (r : Results) (u : string) :
  let r' := step_directed browser r u in
  (pages_crawled r' + pages_failed r' = S (pages_crawled r + pages_failed r))%nat
  /\ total_pages r' = total_pages r
  /\ (pages_failed r <= pages_failed r')%nat
  /\ (length (errors r') + pages_failed r <= length (errors r) + pages_failed r')%nat.
Proof.
  cbv zeta. unfold directed_body.
  destruct (_crawl_page _ _ _ _ browser u) as [[pd|]|e]; cbn;
    rewrite ?length_app; cbn; repeat split; lia.
Qed.

Lemma directed_fold_counts (browser : Browser) (urls : list string) :
  forall r,
    let r' := fold_left (step_directed browser) urls r in
    (pages_crawled r' + pages_failed r'
     = pages_crawled r + pages_failed r + length urls)%nat
    /\ total_pages r' = total_pages r
    /\ (pages_failed r <= pages_failed r')%nat
    /\ (length (errors r') + pages_failed r <= length (errors r) + pages_failed r')%nat.
Proof.
  induction urls as [|u urls IH]; intros r; cbn [fold_left length].
  - repeat split; lia.
  - destruct (IH (step_directed browser r u)) as (H1 & H2 & H3 & H4).
    destruct (directed_body_counts browser r u) as (B1 & B2 & B3 & B4).
    cbv zeta in *. repeat split; try lia; congruence.
Qed.

(** X2.  A directed crawl accounts for every URL of its list, repeated
    ones included: [total_pages] is the length of the list, each URL is
    counted once as crawled or as failed, and the error list has at most
    one entry per failure. *)
Theorem directed_crawl_accounts (browser : Browser) (urls : list string) :
  let r := crawl_directed browser urls new_results in
  total_pages r = length urls
  /\ (pages_crawled r + pages_failed r = length urls)%nat
  /\ (length (errors r) <= pages_failed r)%nat.
Proof.
  cbv zeta. unfold _crawl_directed.
  destruct (directed_fold_counts browser urls (set_total new_results (length urls)))
    as (H1 & H2 & H3 & H4).
  cbv zeta in *. cbn in H1, H2, H3, H4. repeat split; try lia; exact H2.
Qed.

(** ** Where the entries of the error list come from *)

Lemma crawl_page_raises (browser : Browser) (u e : string) :
  crawl_page browser u = Raise e ->
  browser u = Raise e \/ exists page, browser u = Ret page /\ pe_close page = Some e.
Proof.
  unfold _crawl_page. destruct (browser u) as [page|e'].
  - destruct (pe_close page) as [e'|] eqn:Hc; [|discriminate].
    intros [= <-]. right. eauto.
  - intros [= <-]. left. reflexivity.
Qed.

Lemma body_results (browser : Browser) (config : CrawlerConfig) (st : Frontier) :
  results (body browser config st) = results st
  \/ results (body browser config st) = add_crawled (results st)
  \/ results (body browser config st) = add_failed (results st)
  \/ exists u e, crawl_page browser u = Raise e
                 /\ results (body browser config st)
                    = add_error (add_failed (results st)) (u +:+ ": " +:+ e).
Proof.
  unfold full_site_body. destruct (to_visit st) as [|[u d] rest]; [auto|].
  destruct (bool_decide (u ∈ visited st) || (d >? max_depth config)); [auto|].
  destruct (_crawl_page _ _ _ _ browser u) as [[pd|]|e] eqn:Hp; cbn; eauto 7.
Qed.

(** X3.  When the browser always hands out a page and closing a page
    never raises, no crawl records an error text, whatever happens during
    the fetches: the error list of a directed crawl is empty, and so is
    the one of a full-site crawl at every pass of its loop. *)
Theorem errors_need_a_page_handle_failure
        (browser : Browser) (config : CrawlerConfig) (domain : string)
        (Hhandles : forall u, exists page, browser u = Ret page /\ pe_close page = None) :
  (forall urls, errors (crawl_directed browser urls new_results) = [])
  /\ (forall st, reach browser config (start_frontier domain new_results) st ->
                 errors (results st) = []).
Proof.
  assert (Hnoraise : forall u e, crawl_page browser u <> Raise e).
  { intros u e He. apply crawl_page_raises in He as [He|(page & Hb & Hc)];
      destruct (Hhandles u) as (page' & Hb' & Hc'); congruence. }
  split.
  - intros urls. unfold _crawl_directed.
    assert (Hr : errors (set_total new_results (length urls)) = []) by reflexivity.
    revert Hr. generalize (set_total new_results (length urls)).
    induction urls as [|u urls IH]; intros r Hr; cbn [fold_left]; [exact Hr|].
    apply IH. unfold directed_body.
    destruct (_crawl_page _ _ _ _ browser u) as [[pd|]|e] eqn:Hp; cbn; try exact Hr.
    destruct (Hnoraise u e Hp).
  - intros st Hreach. induction Hreach as [|st Hreach IH Hc]; [reflexivity|].
    destruct (body_results browser config st) as [->|[->|[->|(u & e & Hp & _)]]];
      try exact IH.
    destruct (Hnoraise u e Hp).
Qed.

(** ** The passes of the full-site loop *)

(** One pass, case by case: the head of the queue is skipped, or it is
    fetched and counted, with its links appended when it has been crawled
    at a depth below the limit. *)
Lemma full_site_body_inv (browser : Browser) (config : CrawlerConfig)
      (st : Frontier) (u : string) (d : Z) (rest : list (string * Z)) :
  to_visit st = (u, d) :: rest ->
  let st' := body browser config st in
  ((u ∈ visited st \/ max_depth config < d)
   /\ visited st' = visited st /\ to_visit st' = rest /\ results st' = results st)
  \/ ((u ∉ visited st) /\ d <= max_depth config /\ visited st' = {[u]} ∪ visited st
      /\ ((exists pd, crawl_page browser u = Ret (Some pd)
                      /\ results st' = add_crawled (results st)
                      /\ ((max_depth config <= d /\ to_visit st' = rest)
                          \/ (d < max_depth config
                              /\ to_visit st'
                                 = (rest ++ enqueued list_of_set ({[u]} ∪ visited st)
                                                     (links_json pd) d)%list)))
          \/ (results st' = add_failed (results st) /\ to_visit st' = rest)
          \/ (exists e, results st' = add_error (add_failed (results st)) (u +:+ ": " +:+ e)
                        /\ to_visit st' = rest))).
Proof.
  intros Hq. cbv zeta. unfold full_site_body. rewrite Hq.
  destruct (bool_decide (u ∈ visited st)) eqn:Hin; cbn [orb].
  { apply bool_decide_eq_true in Hin. left. auto. }
  apply bool_decide_eq_false in Hin.
  destruct (d >? max_depth config) eqn:Hd.
  { left. split; [right; lia|auto]. }
  right. split; [exact Hin|]. split; [lia|].
  destruct (_crawl_page _ _ _ _ browser u) as [[pd|]|e]; cbn; (split; [reflexivity|]).
  - left. exists pd. split; [reflexivity|]. split; [reflexivity|].
    destruct (d <? max_depth config) eqn:Hlt; [right|left]; split; auto; lia.
  - right. left. auto.
  - right. right. eauto.
Qed.

(** The counters follow the visited set. *)
Lemma full_site_counters (browser : Browser) (config : CrawlerConfig) (domain : string) :
  forall st, reach browser config (start_frontier domain new_results) st ->
             (pages_crawled (results st) + pages_failed (results st)
              = size (visited st))%nat
             /\ (length (errors (results st)) <= pages_failed (results st))%nat
             /\ total_pages (results st) = 0%nat.
Proof.
  intros st Hreach. induction Hreach as [|st Hreach (IH1 & IH2 & IH3) Hc].
  - cbn. rewrite size_empty. repeat split; lia.
  - apply continues_true in Hc as (_ & u & d & rest & Hq).
    destruct (full_site_body_inv browser config st u d rest Hq)
      as [(_ & -> & _ & ->)|(Hu & _ & -> & Hres)]; [auto|].
    rewrite size_add_fresh by exact Hu.
    destruct Hres as [(pd & _ & -> & _)|[(-> & _)|(e & -> & _)]]; cbn;
      rewrite ?length_app; cbn; repeat split; lia.
Qed.

(** X4.  With a page limit that is not negative, a full-site crawl
    returns, and what it returns adds up: [total_pages] is the number of
    URLs visited, each of them is counted once as crawled or as failed,
    the total does not exceed [max_pages], and the error list has at most
    one entry per failure. *)
Theorem full_site_crawl_accounts
        (browser : Browser) (config : CrawlerConfig) (domain : string)
        (Hpages : 0 <= max_pages config) :
  (exists fuel r, crawl_full_site fuel browser config domain new_results = Some r)
  /\ (forall fuel r,
         crawl_full_site fuel browser config domain new_results = Some r ->
         total_pages r = (pages_crawled r + pages_failed r)%nat
         /\ Z.of_nat (total_pages r) <= max_pages config
         /\ (length (errors r) <= pages_failed r)%nat).
Proof.
  split.
  - destruct (full_site_loop_terminates_from urljoin netloc json_loads markdownify_soup
                list_of_set browser config
                (Z.to_nat (max_pages config)) 1 (start_frontier domain new_results))
      as (fuel & st & Hloop); [cbn; rewrite size_empty; lia|cbn; lia|].
    exists fuel. unfold _crawl_full_site. rewrite Hloop. eauto.
  - intros fuel r. unfold _crawl_full_site.
    destruct (full_site_loop _ _ _ _ _ fuel browser config _) as [st|] eqn:Hloop;
      [|discriminate].
    intros [= <-].
    destruct (full_site_loop_result urljoin netloc json_loads markdownify_soup
                list_of_set browser config _ fuel _ st (reach_start _ _ _ _ _ _ _ _) Hloop)
      as (Hreach & _).
    destruct (full_site_counters browser config domain st Hreach) as (H1 & H2 & _).
    cbn. split; [lia|]. split; [|exact H2].
    clear Hloop H1 H2. induction Hreach as [|st Hreach IH Hc].
    + cbn. rewrite size_empty. exact Hpages.
    + apply (visited_bound_step urljoin netloc json_loads markdownify_soup list_of_set).
      exact Hc.
Qed.

(** ** The order of the queue *)

Lemma StronglySorted_app_intro {A : Type} (R : A -> A -> Prop) (l1 l2 : list A) :
  StronglySorted R l1 -> StronglySorted R l2 ->
  (forall a b, In a l1 -> In b l2 -> R a b) ->
  StronglySorted R (l1 ++ l2).
Proof.
  intros H1 H2 H12. induction H1 as [|a l1 H1 IH Ha]; cbn; [exact H2|].
  constructor.
  - apply IH. intros x y Hx Hy. apply H12; [right; exact Hx|exact Hy].
  - apply List.Forall_app. split; [exact Ha|].
    apply List.Forall_forall. intros y Hy. apply H12; [left; reflexivity|exact Hy].
Qed.

Lemma enqueued_depth (seen : gset string) (links : list Link) (d : Z) (e : string * Z) :
  In e (enqueued list_of_set seen links d) -> snd e = d + 1.
Proof.
  unfold enqueued. intros H. apply in_map_iff in H as (v & <- & _). reflexivity.
Qed.

Lemma enqueued_level_sorted (seen : gset string) (links : list Link) (d : Z) :
  StronglySorted level_order (enqueued list_of_set seen links d).
Proof.
  assert (H : forall l, (forall e, In e l -> snd e = d + 1) -> StronglySorted level_order l).
  { induction l as [|a l IH]; intros Hl; constructor.
    - apply IH. intros e He. apply Hl. right. exact He.
    - apply List.Forall_forall. intros b Hb. unfold level_order.
      rewrite (Hl a (or_introl eq_refl)), (Hl b (or_intror Hb)). lia. }
  apply H. intros e. apply enqueued_depth.
Qed.

(** X5.  At every pass of a full-site crawl the queue is in level
    order: an entry is never deeper than a later one, and the depths in
    the queue span at most two levels, so a page is fetched before every
    deeper one; every depth in the queue lies between 0 and the depth
    limit (or is the 0 of the root); and a pass adds to the visited set
    only the head of the queue, when it is not yet visited and its depth
    is at most [max_depth]. *)
Theorem queue_is_in_level_order
        (browser : Browser) (config : CrawlerConfig) (domain : string) (r0 : Results)
        (st : Frontier)
        (Hreach : reach browser config (start_frontier domain r0) st) :
  StronglySorted level_order (to_visit st)
  /\ Forall (fun e => 0 <= snd e <= Z.max 0 (max_depth config)) (to_visit st)
  /\ (forall u d rest,
         to_visit st = (u, d) :: rest ->
         visited (body browser config st) <> visited st ->
         (u ∉ visited st) /\ 0 <= d <= max_depth config
         /\ visited (body browser config st) = {[u]} ∪ visited st).
Proof.
  assert (Hinv : StronglySorted level_order (to_visit st)
                 /\ List.Forall (fun e => 0 <= snd e <= Z.max 0 (max_depth config))
                                (to_visit st)).
  { induction Hreach as [|st Hreach (IHs & IHd) Hc].
    - cbn. split.
      + constructor; [constructor|constructor].
      + constructor; [cbn; lia|constructor].
    - apply continues_true in Hc as (_ & u & d & rest & Hq).
      rewrite Hq in IHs, IHd.
      apply StronglySorted_inv in IHs as (Hrest & Hhead).
      apply List.Forall_cons_iff in IHd as (Hd & Hdrest).
      cbn [snd] in Hd.
      destruct (full_site_body_inv browser config st u d rest Hq)
        as [(_ & _ & -> & _)|(_ & Hle & _ & Hres)]; [auto|].
      destruct Hres as [(pd & _ & _ & [(_ & ->)|(Hlt & ->)])|[(_ & ->)|(e & _ & ->)]];
        auto.
      split.
      + apply StronglySorted_app_intro; [exact Hrest|apply enqueued_level_sorted|].
        intros a b Ha Hb. apply enqueued_depth in Hb.
        rewrite List.Forall_forall in Hhead. specialize (Hhead a Ha).
        unfold level_order in *. cbn [snd] in Hhead. lia.
      + apply List.Forall_app. split; [exact Hdrest|].
        apply List.Forall_forall. intros b Hb. apply enqueued_depth in Hb. lia. }
  destruct Hinv as (Hs & Hd). split; [exact Hs|]. split; [exact Hd|].
  intros u d rest Hq Hgrow.
  rewrite Hq in Hd. apply List.Forall_cons_iff in Hd as (Hd & _). cbn [snd] in Hd.
  destruct (full_site_body_inv browser config st u d rest Hq)
    as [(_ & Hv & _)|(Hu & Hle & Hv & _)]; [contradiction|].
  split; [exact Hu|]. split; [lia|exact Hv].
Qed.

(** ** Crawls that fetch nothing, and crawls whose every fetch fails *)

(** X6.  With a page limit of zero or less, or a negative depth limit,
    a full-site crawl (no URL list, or an empty one) fetches nothing: it
    returns counters that are all zero, with no error, and the crawl is
    then recorded as [COMPLETED]. *)
Theorem crawl_with_degenerate_limits
        (browser : Browser) (config : CrawlerConfig) (domain : string)
        (urls : option (list string)) (fuel : nat) (crawl0 : Crawl)
        (Hlimits : max_pages config <= 0 \/ max_depth config < 0)
        (Hurls : urls = None \/ urls = Some [])
        (Hfuel : (2 <= fuel)%nat) :
  crawl fuel browser config domain urls = Some new_results
  /\ crawl_status (start_crawl_task crawl0 None new_results) = COMPLETED.
Proof.
  split; [|reflexivity].
  assert (Hfull : crawl_full_site fuel browser config domain new_results = Some new_results).
  { destruct fuel as [|[|fuel]]; try lia.
    unfold _crawl_full_site. cbn [full_site_loop].
    unfold continues at 1. cbn [start_frontier to_visit visited].
    rewrite size_empty.
    destruct (Z.of_nat 0 <? max_pages config) eqn:Hp; [|reflexivity].
    apply Z.ltb_lt in Hp.
    destruct Hlimits as [Hl|Hl]; [exfalso; lia|].
    unfold full_site_body. cbn [start_frontier to_visit visited results].
    rewrite bool_decide_eq_false_2 by set_solver.
    destruct (Z.gtb_spec 0 (max_depth config)) as [Hd|Hd]; [|exfalso; lia].
    cbn. reflexivity. }
  destruct Hurls as [->| ->]; exact Hfull.
Qed.

(** X7.  When every URL of a directed crawl fails to load (no response,
    a status of 400 or more, or retries exhausted) while its page is
    opened and closed without an exception, the crawl counts every URL as
    failed, collects no error text, and is recorded as [FAILED] with an
    empty error message. *)
Theorem failed_crawl_has_empty_message
        (browser : Browser) (config : CrawlerConfig) (domain : string)
        (fuel : nat) (urls : list string) (crawl0 : Crawl)
        (Hurls : urls <> [])
        (Hfail : forall u, In u urls ->
                   exists page,
                     browser u = Ret page /\ pe_close page = None
                     /\ forall response,
                         snd (_navigate_with_retries page 3) = Ret (Some response) ->
                         400 <= status response) :
  exists r,
    crawl fuel browser config domain (Some urls) = Some r
    /\ pages_crawled r = 0%nat
    /\ pages_failed r = length urls
    /\ errors r = []
    /\ crawl_status (start_crawl_task crawl0 None r) = FAILED
    /\ error_message (start_crawl_task crawl0 None r) = Some "".
Proof.
  assert (Hnone : forall u, In u urls -> crawl_page browser u = Ret None).
  { intros u Hu. destruct (Hfail u Hu) as (page & Hb & Hc & Hf).
    exact (failed_fetch_returns_none urljoin netloc json_loads markdownify_soup
             browser u page Hb Hc Hf). }
  assert (Hfold : forall l r,
             (forall u, In u l -> crawl_page browser u = Ret None) ->
             let r' := fold_left (step_directed browser) l r in
             pages_crawled r' = pages_crawled r
             /\ pages_failed r' = (pages_failed r + length l)%nat
             /\ errors r' = errors r).
  { induction l as [|u l IH]; intros r Hl; cbn [fold_left length].
    - repeat split; lia.
    - assert (Hstep : step_directed browser r u = add_failed r)
        by (unfold directed_body; rewrite (Hl u (or_introl eq_refl)); reflexivity).
      rewrite Hstep.
      destruct (IH (add_failed r)) as (H1 & H2 & H3).
      { intros v Hv. apply Hl. right. exact Hv. }
      cbv zeta in *. cbn in H1, H2, H3.
      split; [exact H1|]. split; [lia|exact H3]. }
  destruct (Hfold urls (set_total new_results (length urls)) Hnone) as (H1 & H2 & H3).
  cbv zeta in *. cbn in H1, H2, H3.
  exists (crawl_directed browser urls new_results).
  assert (Hcrawl : crawl fuel browser config domain (Some urls)
                   = Some (crawl_directed browser urls new_results))
    by (unfold crawl_site; destruct urls; [contradiction|reflexivity]).
  unfold _crawl_directed in *.
  split; [exact Hcrawl|]. split; [exact H1|]. split; [exact H2|]. split; [exact H3|].
  unfold start_crawl_task, record_results. cbn [set_running].
  rewrite H1, H2, H3.
  destruct urls as [|u urls]; [contradiction|]. cbn. auto.
Qed.

End CrawlInvariants.

(** ** Waiting for a stable page *)

(** The loop from the call number [k] on, when the last [sc] of the
    [k] sizes read so far each equalled the size before it, [last] being
    the size read last (0 before the first call). *)
Lemma stable_loop_spec (evaluate : nat -> outcome Z) :
  forall (todo k sc : nat) (last : Z) (n : nat),
    (sc <= k)%nat -> (sc < 3)%nat ->
    (forall i, (k <= i + sc + 1)%nat -> (i < k)%nat -> evaluate i = Ret last) ->
    (k = sc -> last = 0) ->
    (forall i, (i < k)%nat -> exists v, evaluate i = Ret v) ->
    stable_loop evaluate todo k sc last = Ret n ->
    (k <= n <= k + todo)%nat
    /\ (forall i, (i < n)%nat -> exists v, evaluate i = Ret v)
    /\ ((n < k + todo)%nat ->
        (3 <= n)%nat
        /\ exists v, (forall i, (n <= i + 4)%nat -> (i < n)%nat -> evaluate i = Ret v)
                     /\ (n = 3%nat -> v = 0)).
Proof.
  induction todo as [|todo IH]; intros k sc last n Hsc Hlt Hrun Hzero Hread; cbn [stable_loop].
  - intros [= <-]. split; [lia|]. split; [exact Hread|]. lia.
  - destruct (evaluate k) as [current|e] eqn:Hk; [|discriminate].
    assert (Hread' : forall i, (i < S k)%nat -> exists v, evaluate i = Ret v).
    { intros i Hi. destruct (Nat.eq_dec i k) as [->|Hne]; [eauto|]. apply Hread. lia. }
    destruct (Z.eqb_spec current last) as [->|Hne].
    + destruct (3 <=? S sc)%nat eqn:Hthree.
      * apply Nat.leb_le in Hthree. intros [= <-].
        split; [lia|]. split; [exact Hread'|]. intros _.
        split; [lia|]. exists last. split.
        -- intros i H1 H2. destruct (Nat.eq_dec i k) as [->|Hne]; [exact Hk|].
           apply Hrun; lia.
        -- intros H3. apply Hzero. lia.
      * apply Nat.leb_gt in Hthree. intros Hloop.
        destruct (IH (S k) (S sc) last n) as (H1 & H2 & H3); try lia; try assumption.
        -- intros i Ha Hb. destruct (Nat.eq_dec i k) as [->|Hne]; [exact Hk|].
           apply Hrun; lia.
        -- split; [lia|]. split; [exact H2|]. intros Hn. apply H3. lia.
    + intros Hloop.
      destruct (IH (S k) 0%nat current n) as (H1 & H2 & H3); try lia; try assumption.
      * intros i Ha Hb. assert (i = k) as -> by lia. exact Hk.
      * split; [lia|]. split; [exact H2|]. intros Hn. apply H3. lia.
Qed.

(** X8.  The wait for a stable page reads the size of the document at
    least 3 and at most 10 times, each time after half a second.  It
    stops before the tenth reading only when the last three readings
    each equalled the one before; the size before the first reading
    counts as 0, so three readings suffice only for a document of size 0.
    It raises only what a reading raised. *)
Theorem stable_wait_bounds (evaluate : nat -> outcome Z) :
  (forall n, _wait_for_stable_page evaluate = Ret n ->
             (3 <= n <= 10)%nat
             /\ (forall i, (i < n)%nat -> exists v, evaluate i = Ret v)
             /\ ((n < 10)%nat ->
                 exists v, (forall i, (n <= i + 4)%nat -> (i < n)%nat -> evaluate i = Ret v)
                           /\ (n = 3%nat -> v = 0)))
  /\ (forall e, _wait_for_stable_page evaluate = Raise e ->
                exists k, (k < 10)%nat /\ evaluate k = Raise e).
Proof.
  split.
  - intros n Hrun. unfold _wait_for_stable_page in Hrun.
    destruct (stable_loop_spec evaluate 10 0 0 0 n) as (H1 & H2 & H3);
      try lia; try assumption; try (intros i Hi; lia).
    split; [|split; [exact H2|]].
    + destruct (Nat.eq_dec n 10%nat) as [->|Hne]; [lia|].
      destruct H3 as (H3 & _); lia.
    + intros Hn. apply H3. lia.
  - intros e Hrun. unfold _wait_for_stable_page in Hrun.
    assert (Hgen : forall todo k sc last,
               stable_loop evaluate todo k sc last = Raise e ->
               exists j, (j < k + todo)%nat /\ evaluate j = Raise e).
    { induction todo as [|todo IH]; intros k sc last; cbn [stable_loop]; [discriminate|].
      destruct (evaluate k) as [current|e'] eqn:Hk.
      - destruct (current =? last).
        + destruct (3 <=? S sc)%nat; [discriminate|].
          intros H. apply IH in H as (j & Hj & He). exists j. split; [lia|exact He].
        + intros H. apply IH in H as (j & Hj & He). exists j. split; [lia|exact He].
      - intros [= <-]. exists k. split; [lia|exact Hk]. }
    apply Hgen in Hrun as (j & Hj & He). exists j. split; [lia|exact He].
Qed.

(** ** Blocked resources *)

(** X9.  A request is aborted exactly when its resource type is in the
    list of blocked kinds, and continued otherwise.  That list is never
    empty: a configuration that gives no list, or an empty one, blocks
    images, fonts and media, so blocking cannot be switched off. *)
Theorem route_blocking (given : option (list string)) (resource_type : string) :
  (_route_handler (block_resources given) resource_type = route_abort
   <-> In resource_type (block_resources given))
  /\ (_route_handler (block_resources given) resource_type = route_continue
      <-> ~ In resource_type (block_resources given))
  /\ block_resources given <> []
  /\ (given = None \/ given = Some [] ->
      (_route_handler (block_resources given) resource_type = route_abort
       <-> resource_type = "image" \/ resource_type = "font" \/ resource_type = "media")).
Proof.
  assert (Hex : forall l, existsb (String.eqb resource_type) l = true <-> In resource_type l).
  { intros l. rewrite existsb_exists. split.
    - intros (x & Hx & He). apply String.eqb_eq in He. subst. exact Hx.
    - intros H. exists resource_type. split; [exact H|apply String.eqb_refl]. }
  unfold _route_handler. split; [|split; [|split]].
  - rewrite <- Hex. destruct (existsb _ _); split; congruence.
  - rewrite <- Hex. destruct (existsb _ _); split; congruence.
  - destruct given as [[|k ks]|]; discriminate.
  - intros Hgiven.
    assert (block_resources given = default_block_resources) as ->
      by (destruct Hgiven as [->| ->]; reflexivity).
    destruct (existsb _ _) eqn:E.
    + apply Hex in E. cbn in E. split; [intros _|reflexivity].
      destruct E as [<-|[<-|[<-|[]]]]; auto.
    + split; [discriminate|]. intros H.
      assert (In resource_type default_block_resources)
        by (cbn; destruct H as [->|[->| ->]]; auto).
      apply Hex in H0. congruence.
Qed.

(** ** Cancelling a crawl *)

(** X10.  A crawl that is found is cancelled exactly when it is pending
    or running; its counters and its error message are kept.  A crawl
    that is completed, failed or already cancelled is refused, so a
    second cancellation fails.  A cancelled crawl whose background task
    then runs to its end is marked completed or failed again: the task
    does not look at the status it overwrites. *)
Theorem cancel_crawl_transitions (crawl : Crawl) :
  ((exists crawl', cancel_crawl (Some crawl) = Cancelled crawl')
   <-> crawl_status crawl = PENDING \/ crawl_status crawl = RUNNING)
  /\ (cancel_crawl (Some crawl) = BadRequest
      <-> crawl_status crawl = COMPLETED \/ crawl_status crawl = FAILED
          \/ crawl_status crawl = CANCELLED)
  /\ (forall crawl',
         cancel_crawl (Some crawl) = Cancelled crawl' ->
         crawl_status crawl' = CANCELLED
         /\ crawl_total_pages crawl' = crawl_total_pages crawl
         /\ crawl_pages_crawled crawl' = crawl_pages_crawled crawl
         /\ crawl_pages_failed crawl' = crawl_pages_failed crawl
         /\ error_message crawl' = error_message crawl
         /\ cancel_crawl (Some crawl') = BadRequest
         /\ forall start r,
             crawl_status (start_crawl_task crawl' start r) = COMPLETED
             \/ crawl_status (start_crawl_task crawl' start r) = FAILED).
Proof.
  unfold cancel_crawl. split; [|split].
  - destruct (crawl_status crawl); split;
      try (intros (c & H); discriminate); try (intros [H|H]; discriminate); eauto.
  - destruct (crawl_status crawl); split; try discriminate; auto;
      intros [H|[H|H]]; discriminate.
  - intros crawl' H.
    assert (crawl_status crawl' = CANCELLED
            /\ crawl_total_pages crawl' = crawl_total_pages crawl
            /\ crawl_pages_crawled crawl' = crawl_pages_crawled crawl
            /\ crawl_pages_failed crawl' = crawl_pages_failed crawl
            /\ error_message crawl' = error_message crawl) as (H1 & H2 & H3 & H4 & H5)
      by (destruct (crawl_status crawl); try discriminate; injection H as <-; cbn; auto).
    repeat split; try assumption.
    + rewrite H1. reflexivity.
    + intros [e|] r; cbn; [auto|]. unfold record_results.
      destruct ((0 <? pages_failed r)%nat && (pages_crawled r =? 0)%nat); cbn; auto.
Qed.

(* ===================================================================== *)
(** * Further properties of the content processor                         *)
(* ===================================================================== *)

(** ** Trimming *)

Lemma lstrip_length (s : string) : (String.length (PyStr.lstrip s) <= String.length s)%nat.
Proof.
  induction s as [|a s IH]; cbn; [lia|]. destruct (PyStr.isspace a); cbn; lia.
Qed.

Lemma rstrip_length (s : string) : (String.length (PyStr.rstrip s) <= String.length s)%nat.
Proof.
  induction s as [|a s IH]; cbn; [lia|].
  destruct (PyStr.rstrip s); [destruct (PyStr.isspace a)|]; cbn in *; lia.
Qed.

Lemma strip_length (s : string) : (String.length (PyStr.strip s) <= String.length s)%nat.
Proof.
  unfold PyStr.strip. pose proof (rstrip_length (PyStr.lstrip s)).
  pose proof (lstrip_length s). lia.
Qed.

Lemma lstrip_head (s : string) (a : ascii) (r : string) :
  PyStr.lstrip s = String a r -> PyStr.isspace a = false.
Proof.
  induction s as [|b s IH]; cbn; [discriminate|].
  destruct (PyStr.isspace b) eqn:E; [exact IH|]. intros [= <- _]. exact E.
Qed.

Lemma rstrip_head (a : ascii) (s : string) :
  PyStr.isspace a = false -> exists r, PyStr.rstrip (String a s) = String a r.
Proof.
  intros Ha. cbn. destruct (PyStr.rstrip s); [rewrite Ha|]; eauto.
Qed.

Lemma rstrip_cons (a : ascii) (s : string) :
  PyStr.rstrip (String a s)
  = match PyStr.rstrip s with
    | EmptyString => if PyStr.isspace a then EmptyString else String a EmptyString
    | r => String a r
    end.
Proof. reflexivity. Qed.

Lemma rstrip_idempotent (s : string) : PyStr.rstrip (PyStr.rstrip s) = PyStr.rstrip s.
Proof.
  induction s as [|a s IH]; [reflexivity|]. rewrite rstrip_cons.
  destruct (PyStr.rstrip s) as [|b r] eqn:Hr.
  - destruct (PyStr.isspace a) eqn:Ha; [reflexivity|]. cbn. rewrite Ha. reflexivity.
  - rewrite rstrip_cons, IH. reflexivity.
Qed.

(** Trimming a trimmed string changes nothing. *)
Lemma strip_idempotent (s : string) : PyStr.strip (PyStr.strip s) = PyStr.strip s.
Proof.
  unfold PyStr.strip.
  assert (Hl : PyStr.lstrip (PyStr.rstrip (PyStr.lstrip s)) = PyStr.rstrip (PyStr.lstrip s)).
  { destruct (PyStr.lstrip s) as [|a r] eqn:Hs; [reflexivity|].
    pose proof (lstrip_head s a r Hs) as Ha.
    destruct (rstrip_head a r Ha) as (r' & ->). cbn. rewrite Ha. reflexivity. }
  rewrite Hl. apply rstrip_idempotent.
Qed.

(** ** Slices and [rfind] *)

Lemma drop_length (n : nat) (s : string) :
  String.length (PyStr.drop n s) = (String.length s - n)%nat.
Proof.
  revert s. induction n as [|n IH]; intros [|a s]; cbn; try lia. apply IH.
Qed.

Lemma adjust_nonneg (n i : Z) : 0 <= n -> 0 <= i -> PyStr.adjust n i = Z.min i n.
Proof.
  intros Hn Hi. unfold PyStr.adjust.
  destruct (Z.ltb_spec i 0); [lia|].
  destruct (Z.ltb_spec i 0); [lia|].
  destruct (Z.ltb_spec n i); lia.
Qed.

Lemma slice_length (s : string) (a b : Z) :
  0 <= a <= b -> PyStr.len (PyStr.slice s a b) <= b - a.
Proof.
  intros Hab. unfold PyStr.slice, PyStr.len.
  rewrite take_length, drop_length.
  set (n := Z.of_nat (String.length s)).
  rewrite !adjust_nonneg by lia. lia.
Qed.

Lemma rfind_down_bound (s sub : string) (a : Z) (k : nat) :
  PyStr.rfind_down s sub a k = -1
  \/ a <= PyStr.rfind_down s sub a k < a + Z.of_nat k.
Proof.
  induction k as [|k IH]; cbn [PyStr.rfind_down]; [left; reflexivity|].
  destruct (PyStr.startswith _ _); [right; lia|].
  destruct IH as [->|IH]; [left; reflexivity|right; lia].
Qed.

(** What [rfind] finds lies inside the window. *)
Lemma rfind_bound (s sub : string) (start end_ : Z) :
  let r := PyStr.rfind s sub start end_ in
  r = -1 \/ (PyStr.adjust (PyStr.len s) start <= r
             /\ r + PyStr.len sub <= PyStr.adjust (PyStr.len s) end_).
Proof.
  cbv zeta. unfold PyStr.rfind.
  destruct (rfind_down_bound s sub (PyStr.adjust (PyStr.len s) start)
              (Z.to_nat (PyStr.adjust (PyStr.len s) end_ - PyStr.len sub
                         - PyStr.adjust (PyStr.len s) start + 1))) as [H|H];
    [left; exact H|right; lia].
Qed.

(** ** The chunks *)

(** One pass from a cursor inside the text: the cut is after the cursor
    and at most [chunk_size] further, the next cursor is not negative,
    and the chunk, if there is one, is trimmed, not empty, and not longer
    than [chunk_size]. *)
Lemma chunk_body_spec (text : string) (chunk_size overlap start : Z) :
  0 < chunk_size -> 0 <= start < PyStr.len text ->
  let '(chunk, start') := chunk_body text chunk_size overlap start in
  0 <= start'
  /\ (forall c, chunk = Some c ->
                c <> "" /\ PyStr.strip c = c /\ PyStr.len c <= chunk_size).
Proof.
  intros Hc Hs. unfold chunk_body.
  pose proof (Z.div_pos chunk_size 2 ltac:(lia) ltac:(lia)) as Hhalf.
  set (half := chunk_size / 2) in *.
  pose proof (rfind_bound text "." start (start + chunk_size)) as H1.
  pose proof (rfind_bound text blank_line start (start + chunk_size)) as H2.
  pose proof (rfind_bound text " " start (start + chunk_size)) as H3.
  cbv zeta in H1, H2, H3.
  set (sentence_end := PyStr.rfind text "." start (start + chunk_size)) in *.
  set (para_break := PyStr.rfind text blank_line start (start + chunk_size)) in *.
  set (word_break := PyStr.rfind text " " start (start + chunk_size)) in *.
  change (PyStr.len ".") with 1 in H1. change (PyStr.len blank_line) with 2 in H2.
  change (PyStr.len " ") with 1 in H3.
  set (end_ := if start + chunk_size <? PyStr.len text then _ else _).
  assert (Hend : start < end_ <= start + chunk_size).
  { subst end_. destruct (Z.ltb_spec (start + chunk_size) (PyStr.len text)) as [Hlt|Hge];
      [|lia].
    rewrite (adjust_in_range (PyStr.len text) (start + chunk_size)) in H1, H2, H3 by lia.
    repeat match goal with |- context [if ?b then _ else _] => destruct b eqn:? end; lia. }
  clearbody end_.
  split.
  - destruct (end_ - overlap <=? 0) eqn:E; lia.
  - intros c. destruct (String.eqb_spec (PyStr.strip (PyStr.slice text start end_)) "")
      as [He|Hne]; [discriminate|].
    intros [= <-]. split; [exact Hne|]. split; [apply strip_idempotent|].
    pose proof (strip_length (PyStr.slice text start end_)).
    pose proof (slice_length text start end_ ltac:(lia)).
    unfold PyStr.len in *. lia.
Qed.

Lemma chunk_loop_spec (text : string) (chunk_size overlap : Z) :
  0 < chunk_size ->
  forall (fuel : nat) (start : Z) (chunks result : list string),
    0 <= start ->
    Forall (fun c => c <> "" /\ PyStr.strip c = c /\ PyStr.len c <= chunk_size) chunks ->
    chunk_loop fuel text chunk_size overlap start chunks = Some result ->
    Forall (fun c => c <> "" /\ PyStr.strip c = c /\ PyStr.len c <= chunk_size) result.
Proof.
  intros Hc. induction fuel as [|fuel IH]; intros start chunks result Hs Hchunks;
    cbn [chunk_loop]; [discriminate|].
  destruct (Z.ltb_spec start (PyStr.len text)) as [Hlt|Hge].
  - pose proof (chunk_body_spec text chunk_size overlap start Hc ltac:(lia)) as Hbody.
    destruct (chunk_body text chunk_size overlap start) as [chunk start'].
    destruct Hbody as (Hs' & Hchunk).
    apply IH; [exact Hs'|].
    destruct chunk as [c|]; [|exact Hchunks].
    apply List.Forall_app. split; [exact Hchunks|].
    constructor; [apply Hchunk; reflexivity|constructor].
  - intros [= <-]. exact Hchunks.
Qed.

(** X11.  With a positive chunk size, a text that fits in one chunk is
    returned as the single chunk, as it is, even when it is empty or
    blank.  A longer text is cut by the loop, and then every chunk is
    trimmed, is not empty, and has at most [chunk_size] characters. *)
Theorem chunks_are_trimmed_and_bounded
        (fuel : nat) (text : string) (chunk_size overlap : Z) (chunks : list string)
        (Hsize : 0 < chunk_size)
        (Hrun : _chunk_text fuel text chunk_size overlap = Some chunks) :
  (PyStr.len text <= chunk_size -> chunks = [text])
  /\ (chunk_size < PyStr.len text ->
      Forall (fun c => c <> "" /\ PyStr.strip c = c /\ PyStr.len c <= chunk_size) chunks).
Proof.
  unfold _chunk_text in Hrun.
  destruct (Z.leb_spec (PyStr.len text) chunk_size) as [Hle|Hgt].
  - injection Hrun as <-. split; [reflexivity|lia].
  - split; [lia|]. intros _.
    apply (chunk_loop_spec text chunk_size overlap Hsize fuel 0 [] chunks);
      [lia|constructor|exact Hrun].
Qed.

(** ** Runs of emphasis markers *)

(** The pattern for three or more of a character matches the whole run
    of that character, when the run has three or more. *)
Lemma rep3_matches (c : ascii) (prev : option ascii) (s : list ascii) (pos gs ge : nat) :
  Re.matches [Re.Rep (Re.chr c) 3] prev s pos gs ge
  = if (3 <=? Re.lead c s)%nat
    then Some {| Re.m_end := pos + Re.lead c s; Re.g_start := gs; Re.g_end := ge |}
    else None.
Proof.
  cbn [Re.matches].
  match goal with
  | |- ?f prev s pos 0%nat = _ =>
      assert (H : forall s prev pos count,
                 f prev s pos count
                 = if (3 <=? count + Re.lead c s)%nat
                   then Some {| Re.m_end := pos + Re.lead c s;
                                Re.g_start := gs; Re.g_end := ge |}
                   else None)
  end.
  { clear. induction s as [|x s IH]; intros prev pos count; cbn [Re.lead].
    - rewrite !Nat.add_0_r. reflexivity.
    - destruct (Re.chr c x) eqn:Hx.
      + rewrite IH. rewrite <- !Nat.add_succ_comm.
        destruct (3 <=? S count + Re.lead c s)%nat eqn:E; [reflexivity|].
        apply Nat.leb_gt in E.
        destruct (3 <=? count)%nat eqn:E2; [apply Nat.leb_le in E2; lia|reflexivity].
      + rewrite !Nat.add_0_r. reflexivity. }
  rewrite H. reflexivity.
Qed.

Lemma sub_go_rep3 (c x : ascii) (prev : option ascii) (s : list ascii) :
  Re.sub_go [Re.Rep (Re.chr c) 3] [Re.Text [c; c]] prev (x :: s) 0
  = if (3 <=? Re.lead c (x :: s))%nat
    then c :: c :: Re.sub_go [Re.Rep (Re.chr c) 3] [Re.Text [c; c]] (Some x) s
                             (Re.lead c (x :: s) - 1)
    else x :: Re.sub_go [Re.Rep (Re.chr c) 3] [Re.Text [c; c]] (Some x) s 0.
Proof.
  cbn [Re.sub_go]. rewrite rep3_matches.
  destruct (3 <=? Re.lead c (x :: s))%nat eqn:E; [|reflexivity].
  apply Nat.leb_le in E. cbn [Re.m_end Nat.add].
  destruct (Re.lead c (x :: s)) as [|k]; [lia|].
  cbn [Nat.sub]. rewrite Nat.sub_0_r. reflexivity.
Qed.

(** After the substitution of two for three or more, no run of the
    character is longer than two. *)
Lemma sub_rep3_runs (c : ascii) :
  forall (s : list ascii) (skip : nat) (prev : option ascii),
    skip = 0%nat \/ skip = Re.lead c s ->
    let o := Re.sub_go [Re.Rep (Re.chr c) 3] [Re.Text [c; c]] prev s skip in
    Re.runs_below3 c o
    /\ (Re.lead c o <= if (skip =? 0)%nat then Nat.min 2 (Re.lead c s) else 0)%nat.
Proof.
  assert (Hcc : Re.chr c c = true) by apply Ascii.eqb_refl.
  induction s as [|x s IH]; intros skip prev Hskip; cbv zeta.
  - cbn. split; [exact I|]. destruct (skip =? 0)%nat; lia.
  - destruct skip as [|k].
    + rewrite sub_go_rep3. cbn [Nat.eqb].
      destruct (3 <=? Re.lead c (x :: s))%nat eqn:E.
      * apply Nat.leb_le in E. cbn [Re.lead] in E |- *.
        destruct (Re.chr c x) eqn:Hx; [|lia].
        cbn [Nat.sub]. rewrite Nat.sub_0_r.
        destruct (IH (Re.lead c s) (Some x) (or_intror eq_refl)) as (Hr & Hl).
        cbv zeta in Hr, Hl.
        destruct (Re.lead c s =? 0)%nat eqn:E0; [apply Nat.eqb_eq in E0; lia|].
        set (o := Re.sub_go _ _ _ s _) in *.
        cbn [Re.runs_below3 Re.lead]. rewrite Hcc.
        destruct o as [|y o']; cbn [Re.lead Re.runs_below3] in *;
          repeat split; try lia; try tauto.
      * apply Nat.leb_gt in E.
        destruct (IH 0%nat (Some x) (or_introl eq_refl)) as (Hr & Hl).
        cbv zeta in Hr, Hl. cbn [Nat.eqb] in Hl.
        set (o := Re.sub_go _ _ _ s _) in *.
        cbn [Re.runs_below3 Re.lead] in E |- *.
        destruct (Re.chr c x) eqn:Hx; repeat split; try lia; try exact Hr.
    + destruct Hskip as [Hskip|Hskip]; [discriminate|].
      cbn [Re.lead] in Hskip. destruct (Re.chr c x) eqn:Hx; [|discriminate].
      injection Hskip as Hk. cbn [Re.sub_go Nat.eqb].
      destruct (IH k (Some x) (or_intror Hk)) as (Hr & Hl). cbv zeta in Hr, Hl.
      split; [exact Hr|].
      destruct (k =? 0)%nat eqn:E0; [|exact Hl].
      apply Nat.eqb_eq in E0. rewrite <- Hk in Hl. lia.
Qed.

(** A substitution that writes two of another character keeps the runs
    of [c] as short as they were. *)
Lemma sub_keeps_runs (c u : ascii) (pat : Re.pattern) :
  Re.chr c u = false ->
  forall (s : list ascii) (skip : nat) (prev : option ascii),
    Re.runs_below3 c s ->
    let o := Re.sub_go pat [Re.Text [u; u]] prev s skip in
    Re.runs_below3 c o /\ (skip = 0%nat -> (Re.lead c o <= Re.lead c s)%nat).
Proof.
  intros Hu. induction s as [|x s IH]; intros skip prev Hruns; cbv zeta.
  - cbn. auto.
  - destruct Hruns as (Hlead & Hruns). destruct skip as [|k].
    + cbn [Re.sub_go].
      destruct (IH 0%nat (Some x) Hruns) as (Hr & Hl). cbv zeta in Hr, Hl.
      specialize (Hl eq_refl).
      assert (Hcopy : Re.runs_below3 c (x :: Re.sub_go pat [Re.Text [u; u]] (Some x) s 0)
                      /\ (0%nat = 0%nat ->
                          (Re.lead c (x :: Re.sub_go pat [Re.Text [u; u]] (Some x) s 0)
                           <= Re.lead c (x :: s))%nat)).
      { cbn [Re.runs_below3 Re.lead] in Hlead |- *.
        destruct (Re.chr c x); repeat split; try lia; exact Hr. }
      destruct (Re.matches pat prev (x :: s) 0 0 0) as [m|]; [|exact Hcopy].
      destruct (Re.m_end m) as [|k]; [exact Hcopy|].
      destruct (IH k (Some x) Hruns) as (Hr' & _). cbv zeta in Hr'.
      cbn [Re.expand flat_map app Re.runs_below3 Re.lead]. rewrite Hu.
      repeat split; try lia. exact Hr'.
    + cbn [Re.sub_go]. destruct (IH k (Some x) Hruns) as (Hr & _).
      split; [exact Hr|discriminate].
Qed.

Lemma lead_firstn (c : ascii) (n : nat) (l : list ascii) :
  (Re.lead c (firstn n l) <= Re.lead c l)%nat.
Proof.
  revert l. induction n as [|n IH]; intros [|x l]; cbn; try lia.
  destruct (Re.chr c x); [specialize (IH l)|]; lia.
Qed.

Lemma runs_firstn (c : ascii) (n : nat) (l : list ascii) :
  Re.runs_below3 c l -> Re.runs_below3 c (firstn n l).
Proof.
  revert l. induction n as [|n IH]; intros [|x l]; cbn [firstn Re.runs_below3]; auto.
  intros (Hl & Hr). split; [|apply IH; exact Hr].
  pose proof (lead_firstn c (S n) (x :: l)) as H. cbn [firstn] in H. lia.
Qed.

Lemma runs_app (c : ascii) (l t : list ascii) :
  Re.runs_below3 c l -> Re.runs_below3 c t -> Re.lead c t = 0%nat ->
  Re.runs_below3 c (l ++ t)%list.
Proof.
  intros Hl Ht H0.
  assert (Hlead : forall l, Re.lead c (l ++ t)%list = Re.lead c l).
  { induction l0 as [|x l0 IH]; cbn; [exact H0|]. rewrite IH. reflexivity. }
  induction l as [|x l IH]; [exact Ht|].
  destruct Hl as (Hx & Hl). cbn [app Re.runs_below3].
  split; [|apply IH; exact Hl].
  change (x :: l ++ t)%list with ((x :: l) ++ t)%list. rewrite Hlead. exact Hx.
Qed.

Lemma runs_no_triple (c : ascii) (l l1 l2 : list ascii) :
  Re.runs_below3 c l -> l <> (l1 ++ c :: c :: c :: l2)%list.
Proof.
  assert (Hcc : Re.chr c c = true) by apply Ascii.eqb_refl.
  revert l. induction l1 as [|y l1 IH]; intros l Hr ->.
  - cbn in Hr. rewrite !Hcc in Hr. lia.
  - destruct Hr as (_ & Hr). exact (IH _ Hr eq_refl).
Qed.

Lemma list_of_take (n : nat) (s : string) :
  list_ascii_of_string (PyStr.take n s) = firstn n (list_ascii_of_string s).
Proof.
  revert s. induction n as [|n IH]; intros [|a s]; cbn; try reflexivity.
  rewrite IH. reflexivity.
Qed.

Lemma list_of_app (s t : string) :
  list_ascii_of_string (s +:+ t) = (list_ascii_of_string s ++ list_ascii_of_string t)%list.
Proof. induction s as [|a s IH]; simpl; [reflexivity|]. f_equal. exact IH. Qed.

Lemma tidy_markdown_runs (markdown : string) :
  Re.runs_below3 "*" (list_ascii_of_string (tidy_markdown markdown))
  /\ Re.runs_below3 "_" (list_ascii_of_string (tidy_markdown markdown)).
Proof.
  unfold tidy_markdown, Re.sub. rewrite !list_ascii_of_string_of_list_ascii.
  split.
  - apply (sub_keeps_runs "*" "_" underscores eq_refl _ 0%nat None).
    apply (sub_rep3_runs "*" _ 0%nat None). left. reflexivity.
  - apply (sub_rep3_runs "_" _ 0%nat None). left. reflexivity.
Qed.

(** X12.  The Markdown that [_clean_markdown] returns holds no run of
    three stars and no run of three underscores, truncated or not. *)
Theorem clean_markdown_has_no_triple_marker (markdown before after : string) :
  _clean_markdown markdown <> before +:+ "***" +:+ after
  /\ _clean_markdown markdown <> before +:+ "___" +:+ after.
Proof.
  destruct (tidy_markdown_runs markdown) as (Hs & Hu).
  assert (Hruns : forall c, Re.runs_below3 c (list_ascii_of_string (tidy_markdown markdown)) ->
                            Re.lead c (list_ascii_of_string "...") = 0%nat ->
                            Re.runs_below3 c (list_ascii_of_string "...") ->
                            Re.runs_below3 c (list_ascii_of_string (_clean_markdown markdown))).
  { intros c Hc H0 Hd.
    destruct (clean_markdown_cases markdown) as [[_ ->]|(_ & -> & _)]; [exact Hc|].
    rewrite list_of_app, list_of_take.
    apply runs_app; [apply runs_firstn; exact Hc|exact Hd|exact H0]. }
  split; intros Heq; apply (f_equal list_ascii_of_string) in Heq;
    rewrite !list_of_app in Heq.
  - apply (runs_no_triple "*" _ _ _ (Hruns "*"%char Hs eq_refl ltac:(cbn; lia)) Heq).
  - apply (runs_no_triple "_" _ _ _ (Hruns "_"%char Hu eq_refl ltac:(cbn; lia)) Heq).
Qed.

(** ** Embeddings *)

Section EmbeddingProperties.

Context {V : Type}.
Variable embedding_model : option (string -> outcome V).

Lemma preview_length (content : string) : PyStr.len (preview content) <= 503.
Proof.
  unfold preview. destruct (Z.gtb_spec (PyStr.len content) 500) as [Hgt|Hle]; [|lia].
  rewrite slice_to_long by lia. unfold PyStr.len.
  rewrite string_length_app, take_length. change (String.length "...") with 3%nat. lia.
Qed.

(** The records of the chunks: one per chunk, in order and numbered from
    [i], up to the first chunk for which [encode] raises. *)
Lemma embed_chunks_spec (encode : string -> outcome V) :
  forall (chunks : list string) (i : nat) (embeddings : list (Embedding (V:=V))),
    Forall (fun c => PyStr.strip c <> "") chunks ->
    exists (m : nat) (records : list Embedding),
      embed_chunks encode chunks i embeddings = (embeddings ++ records)%list
      /\ (m <= length chunks)%nat
      /\ map content_text records = firstn m chunks
      /\ map chunk_index records = map Some (seq i m)
      /\ Forall (fun e => kind e = "chunk" /\ encode (content_text e) = Ret (vector e))
                records
      /\ ((m < length chunks)%nat ->
          exists c e, chunks !! m = Some c /\ encode c = Raise e).
Proof.
  induction chunks as [|chunk chunks IH]; intros i embeddings Hblank; cbn [embed_chunks].
  - exists 0%nat, []. rewrite app_nil_r. repeat split; try constructor; cbn; lia.
  - apply List.Forall_cons_iff in Hblank as (Hb & Hblank).
    destruct (String.eqb_spec (PyStr.strip chunk) "") as [He|_]; [contradiction|].
    destruct (encode chunk) as [v|e] eqn:Henc.
    + destruct (IH (S i) (embeddings ++ [{| kind := "chunk"; vector := v;
                                            content_text := chunk;
                                            chunk_index := Some i |}])%list Hblank)
        as (m & records & Heq & Hm & Ht & Hi & Hk & Hstop).
      exists (S m), ({| kind := "chunk"; vector := v; content_text := chunk;
                        chunk_index := Some i |} :: records).
      rewrite Heq, <- app_assoc. cbn [app map firstn seq length].
      repeat split; try lia; try (f_equal; assumption).
      * constructor; [cbn; auto|exact Hk].
      * intros Hlt. apply Hstop. lia.
    + exists 0%nat, []. rewrite app_nil_r. cbn. repeat split; try constructor; try lia.
      intros _. exists chunk, e. auto.
Qed.

(** X13.  When [generate_embeddings] returns for a positive chunk size,
    the result is empty exactly when there is no model, the content is
    empty, or [encode] raises on the content.  Otherwise it starts with
    the one record of kind [page], without index, whose text is the
    content cut to 500 characters and an ellipsis.  A content longer
    than [chunk_size] is followed by records of kind [chunk], which hold
    the chunks in order, numbered 0, 1, 2, ... without gaps, up to the
    first chunk on which [encode] raises. *)
Theorem generate_embeddings_shape
        (fuel : nat) (content : string) (chunk_size chunk_overlap : Z)
        (embeddings : list Embedding)
        (Hsize : 0 < chunk_size)
        (Hrun : generate_embeddings embedding_model fuel content chunk_size chunk_overlap
                = Some embeddings) :
  (embeddings = []
   /\ (embedding_model = None \/ content = ""
       \/ exists encode e, embedding_model = Some encode /\ encode content = Raise e))
  \/ (exists encode v records,
         embedding_model = Some encode /\ content <> "" /\ encode content = Ret v
         /\ embeddings = {| kind := "page"; vector := v; content_text := preview content;
                            chunk_index := None |} :: records
         /\ PyStr.len (preview content) <= 503
         /\ ((PyStr.len content <= chunk_size /\ records = [])
             \/ (chunk_size < PyStr.len content
                 /\ exists chunks m,
                     _chunk_text fuel content chunk_size chunk_overlap = Some chunks
                     /\ (m <= length chunks)%nat
                     /\ map content_text records = firstn m chunks
                     /\ map chunk_index records = map Some (seq 0 m)
                     /\ Forall (fun e => kind e = "chunk"
                                         /\ encode (content_text e) = Ret (vector e))
                               records
                     /\ ((m < length chunks)%nat ->
                         exists c e, chunks !! m = Some c /\ encode c = Raise e)))).
Proof.
  unfold generate_embeddings in Hrun.
  destruct embedding_model as [encode|]; [|injection Hrun as <-; left; auto].
  destruct (String.eqb_spec content "") as [->|Hne]; [injection Hrun as <-; left; auto|].
  destruct (encode content) as [v|e] eqn:Henc;
    [|injection Hrun as <-; left; split; [reflexivity|right; right; eauto]].
  right. exists encode, v.
  destruct (Z.gtb_spec (PyStr.len content) chunk_size) as [Hgt|Hle].
  - destruct (_chunk_text fuel content chunk_size chunk_overlap) as [chunks|] eqn:Hchunks;
      [|discriminate].
    injection Hrun as <-.
    assert (Hblank : Forall (fun c => PyStr.strip c <> "") chunks).
    { assert (Hall : Forall (fun c => c <> "" /\ PyStr.strip c = c
                                      /\ PyStr.len c <= chunk_size) chunks).
      { unfold _chunk_text in Hchunks.
        destruct (Z.leb_spec (PyStr.len content) chunk_size) as [Hle|_]; [lia|].
        apply (chunk_loop_spec content chunk_size chunk_overlap Hsize fuel 0 [] chunks);
          [lia|constructor|exact Hchunks]. }
      eapply List.Forall_impl; [|exact Hall].
      intros c (Hc & Hs & _). rewrite Hs. exact Hc. }
    destruct (embed_chunks_spec encode chunks 0
                [{| kind := "page"; vector := v; content_text := preview content;
                    chunk_index := None |}] Hblank)
      as (m & records & Heq & Hm & Ht & Hi & Hk & Hstop).
    exists records. rewrite Heq.
    repeat split; try assumption; try apply preview_length.
    right. split; [lia|]. exists chunks, m. auto 10.
  - injection Hrun as <-. exists []. repeat split; try assumption; try apply preview_length.
    left. split; [lia|reflexivity].
Qed.

(** The loop over the element types from any list of records on. *)
Lemma embed_elements_spec (encode : string -> outcome V) (elements : gmap string string) :
  forall (types : list string) (embeddings : list (Embedding (V:=V))),
    fold_left (embed_element encode elements) types embeddings
    = (embeddings ++ flat_map (embed_element encode elements []) types)%list.
Proof.
  induction types as [|t types IH]; intros embeddings; cbn [fold_left flat_map].
  - rewrite app_nil_r. reflexivity.
  - rewrite IH. rewrite app_assoc. f_equal.
    unfold embed_element.
    destruct (negb _ && negb _); [|rewrite app_nil_r; reflexivity].
    destruct (encode _); [reflexivity|rewrite app_nil_r; reflexivity].
Qed.

(** The record that one element type contributes, if any. *)
Lemma embed_element_spec (encode : string -> outcome V) (elements : gmap string string)
      (t : string) (e : Embedding) :
  In e (embed_element encode elements [] t) <->
  kind e = t /\ chunk_index e = None
  /\ content_text e = default "" (elements !! t)
  /\ PyStr.strip (content_text e) <> ""
  /\ encode (content_text e) = Ret (vector e).
Proof.
  unfold embed_element.
  destruct (String.eqb_spec (default "" (elements !! t)) "") as [He|Hne]; cbn [negb andb].
  { split; [intros []|]. intros (_ & _ & Hc & Hs & _). rewrite Hc, He in Hs.
    apply Hs. reflexivity. }
  destruct (String.eqb_spec (PyStr.strip (default "" (elements !! t))) "") as [Hb|Hnb];
    cbn [negb andb].
  { split; [intros []|]. intros (_ & _ & Hc & Hs & _). rewrite Hc in Hs. contradiction. }
  destruct (encode (default "" (elements !! t))) as [v|err] eqn:Henc.
  - cbn. split.
    + intros [<-|[]]. cbn. auto.
    + intros (Hk & Hi & Hc & Hs & Hv). left. destruct e as [k v' c i].
      cbn in *. subst. rewrite Henc in Hv. injection Hv as <-. reflexivity.
  - split; [intros []|]. intros (_ & _ & Hc & _ & Hv). rewrite Hc, Henc in Hv.
    discriminate.
Qed.

Lemma embed_element_kinds (encode : string -> outcome V) (elements : gmap string string)
      (types : list string) :
  sublist (map kind (flat_map (embed_element encode elements []) types)) types.
Proof.
  induction types as [|t types IH]; cbn [flat_map]; [constructor|].
  rewrite map_app. unfold embed_element at 1.
  destruct (negb _ && negb _); [|apply sublist_cons; exact IH].
  destruct (encode _); [|apply sublist_cons; exact IH].
  cbn. apply sublist_skip. exact IH.
Qed.

(** X14.  [generate_element_embeddings] gives, for [title], [h1] and
    [description] in this order, one record for each field that is
    present, not blank, and on which [encode] does not raise: the record
    holds the whole text of the field and no index.  A field on which
    [encode] raises is left out and the later fields are still embedded;
    without a model the result is empty. *)
Theorem element_embeddings_shape (elements : gmap string string) :
  let result := generate_element_embeddings embedding_model elements in
  (embedding_model = None -> result = [])
  /\ (length result <= 3)%nat
  /\ sublist (map kind result) ["title"; "h1"; "description"]
  /\ (forall encode, embedding_model = Some encode ->
        forall e, In e result <->
          exists t, In t ["title"; "h1"; "description"]
                    /\ kind e = t /\ chunk_index e = None
                    /\ content_text e = default "" (elements !! t)
                    /\ PyStr.strip (content_text e) <> ""
                    /\ encode (content_text e) = Ret (vector e)).
Proof.
  cbv zeta. unfold generate_element_embeddings.
  destruct embedding_model as [encode|].
  2:{ split; [reflexivity|]. split; [cbn; lia|]. split; [|discriminate].
      apply sublist_nil_l. }
  rewrite embed_elements_spec. cbn [app].
  pose proof (embed_element_kinds encode elements element_types) as Hsub.
  split; [discriminate|]. split; [|split; [exact Hsub|]].
  - apply sublist_length in Hsub. rewrite length_map in Hsub. exact Hsub.
  - intros encode' [= <-] e. rewrite in_flat_map. split.
    + intros (t & Ht & He). exists t. split; [exact Ht|].
      apply embed_element_spec. exact He.
    + intros (t & Ht & He). exists t. split; [exact Ht|].
      apply embed_element_spec. exact He.
Qed.

End EmbeddingProperties.

(** ** Keywords *)

Lemma bump_frequency (w k : string) (f : list (string * nat)) :
  frequency (bump w f) k = if String.eqb w k then S (frequency f k) else frequency f k.
Proof.
  induction f as [|[k' c] f IH]; cbn [bump frequency].
  - destruct (String.eqb w k); reflexivity.
  - destruct (String.eqb_spec k' w) as [->|Hne]; cbn [frequency].
    + destruct (String.eqb w k); reflexivity.
    + destruct (String.eqb_spec k' k) as [->|Hne'].
      * destruct (String.eqb_spec w k); [congruence|reflexivity].
      * exact IH.
Qed.

Lemma bump_keys (w k : string) (f : list (string * nat)) :
  In k (map fst (bump w f)) <-> k = w \/ In k (map fst f).
Proof.
  induction f as [|[k' c] f IH]; cbn [bump map fst In].
  - intuition.
  - destruct (String.eqb_spec k' w) as [->|Hne]; cbn [map fst In]; [intuition|].
    rewrite IH. intuition.
Qed.

Lemma bump_NoDup (w : string) (f : list (string * nat)) :
  NoDup (map fst f) -> NoDup (map fst (bump w f)).
Proof.
  induction f as [|[k c] f IH]; cbn [bump map fst]; intros Hnd.
  - apply NoDup_singleton.
  - apply NoDup_cons in Hnd as (Hk & Hnd).
    destruct (String.eqb_spec k w) as [->|Hne]; cbn [map fst].
    + apply NoDup_cons. auto.
    + apply NoDup_cons. split; [|apply IH; exact Hnd].
      rewrite list_elem_of_In, bump_keys. rewrite list_elem_of_In in Hk.
      intros [->|H]; [congruence|contradiction].
Qed.

Lemma bump_positive (w : string) (f : list (string * nat)) :
  Forall (fun p => (0 < snd p)%nat) f -> Forall (fun p => (0 < snd p)%nat) (bump w f).
Proof.
  induction f as [|[k c] f IH]; cbn [bump]; intros Hpos.
  - constructor; [cbn; lia|constructor].
  - apply List.Forall_cons_iff in Hpos as (Hc & Hpos).
    destruct (String.eqb k w); constructor; cbn in *; auto; lia.
Qed.

Lemma frequency_In (f : list (string * nat)) (k : string) (c : nat) :
  NoDup (map fst f) -> In (k, c) f -> frequency f k = c.
Proof.
  induction f as [|[k' c'] f IH]; cbn [map fst frequency]; intros Hnd Hin; [destruct Hin|].
  apply NoDup_cons in Hnd as (Hk & Hnd).
  destruct Hin as [[= -> ->]|Hin]; [rewrite String.eqb_refl; reflexivity|].
  destruct (String.eqb_spec k' k) as [->|Hne]; [|apply IH; assumption].
  exfalso. apply Hk. rewrite list_elem_of_In.
  apply in_map_iff. exists (k, c). auto.
Qed.

(** The dictionary of the frequencies: its keys are the words that are
    not stop words, each once, with the number of its occurrences. *)
Lemma word_frequencies_spec (words : list string) :
  let f := word_frequencies words in
  NoDup (map fst f)
  /\ Forall (fun p => (0 < snd p)%nat) f
  /\ (forall k, frequency f k
                = if is_stop_word k then 0%nat else count_occ String.string_dec words k)
  /\ (forall k, In k (map fst f) <-> In k words /\ is_stop_word k = false).
Proof.
  cbv zeta. unfold word_frequencies.
  assert (Hgen : forall ws acc,
             let f := fold_left (fun word_freq word =>
                                   if is_stop_word word then word_freq
                                   else bump word word_freq) ws acc in
             (NoDup (map fst acc) -> NoDup (map fst f))
             /\ (Forall (fun p => (0 < snd p)%nat) acc -> Forall (fun p => (0 < snd p)%nat) f)
             /\ (forall k, frequency f k
                           = (frequency acc k
                              + if is_stop_word k then 0
                                else count_occ String.string_dec ws k)%nat)
             /\ (forall k, In k (map fst f)
                           <-> In k (map fst acc) \/ (In k ws /\ is_stop_word k = false))).
  { induction ws as [|w ws IH]; intros acc; cbv zeta; cbn [fold_left].
    - split; [auto|]. split; [auto|]. split.
      + intros k. destruct (is_stop_word k); cbn; lia.
      + intros k. cbn. intuition.
    - destruct (IH (if is_stop_word w then acc else bump w acc)) as (H1 & H2 & H3 & H4).
      cbv zeta in H1, H2, H3, H4.
      split; [|split; [|split]].
      + intros Hnd. apply H1. destruct (is_stop_word w); [exact Hnd|].
        apply bump_NoDup. exact Hnd.
      + intros Hpos. apply H2. destruct (is_stop_word w); [exact Hpos|].
        apply bump_positive. exact Hpos.
      + intros k. rewrite H3. cbn [count_occ].
        destruct (is_stop_word w) eqn:Hw.
        * destruct (String.string_dec w k) as [->|Hne]; [rewrite Hw|]; reflexivity.
        * rewrite bump_frequency.
          destruct (String.string_dec w k) as [->|Hne].
          -- rewrite String.eqb_refl, Hw. lia.
          -- destruct (String.eqb_spec w k); [contradiction|reflexivity].
      + intros k. rewrite H4. cbn [In].
        destruct (is_stop_word w) eqn:Hw.
        * split; [intros [H|[H Hk]]; auto|].
          intros [H|[[->|H] Hk]]; auto. congruence.
        * rewrite bump_keys. split.
          -- intros [[->|H]|[H Hk]]; auto.
          -- intros [H|[[->|H] Hk]]; auto. }
  destruct (Hgen words []) as (H1 & H2 & H3 & H4). cbv zeta in H1, H2, H3, H4.
  split; [apply H1; constructor|]. split; [apply H2; constructor|]. split.
  - intros k. rewrite H3. reflexivity.
  - intros k. rewrite H4. cbn. intuition.
Qed.

Lemma insert_by_count_perm (x : string * nat) (l : list (string * nat)) :
  Permutation (insert_by_count x l) (x :: l).
Proof.
  induction l as [|y l IH]; cbn [insert_by_count]; [reflexivity|].
  destruct (snd x <? snd y)%nat; [|reflexivity].
  rewrite IH. apply perm_swap.
Qed.

Lemma sort_by_count_perm (l : list (string * nat)) : Permutation (sort_by_count l) l.
Proof.
  induction l as [|x l IH]; cbn; [reflexivity|].
  rewrite insert_by_count_perm. constructor. exact IH.
Qed.

Lemma insert_by_count_sorted (x : string * nat) (l : list (string * nat)) :
  StronglySorted by_count_desc l -> StronglySorted by_count_desc (insert_by_count x l).
Proof.
  induction l as [|y l IH]; cbn [insert_by_count]; intros Hs.
  - constructor; [constructor|constructor].
  - apply StronglySorted_inv in Hs as (Hs & Hy).
    rewrite List.Forall_forall in Hy.
    destruct (Nat.ltb_spec (snd x) (snd y)) as [Hlt|Hge].
    + constructor; [apply IH; exact Hs|].
      apply List.Forall_forall. intros z Hz.
      apply (Permutation_in _ (insert_by_count_perm x l)) in Hz.
      destruct Hz as [<-|Hz]; [unfold by_count_desc; lia|].
      apply Hy. exact Hz.
    + constructor; [constructor; [exact Hs|apply List.Forall_forall; exact Hy]|].
      constructor; [unfold by_count_desc; lia|].
      apply List.Forall_forall. intros z Hz.
      specialize (Hy z Hz). unfold by_count_desc in *. lia.
Qed.

Lemma sort_by_count_sorted (l : list (string * nat)) :
  StronglySorted by_count_desc (sort_by_count l).
Proof.
  induction l as [|x l IH]; cbn; [constructor|]. apply insert_by_count_sorted. exact IH.
Qed.

Lemma In_firstn {A : Type} (n : nat) (l : list A) (x : A) :
  In x (firstn n l) -> In x l.
Proof.
  revert l. induction n as [|n IH]; intros [|y l]; cbn; try tauto.
  intros [H|H]; [left; exact H|right; apply IH; exact H].
Qed.

Lemma StronglySorted_firstn {A : Type} (R : A -> A -> Prop) (n : nat) (l : list A) :
  StronglySorted R l -> StronglySorted R (firstn n l).
Proof.
  revert l. induction n as [|n IH]; intros l Hs; [constructor|].
  destruct Hs as [|x l Hs Hx]; cbn [firstn]; [constructor|].
  constructor; [apply IH; exact Hs|].
  apply List.Forall_forall. intros y Hy. rewrite List.Forall_forall in Hx.
  apply Hx. exact (In_firstn _ _ _ Hy).
Qed.

Lemma letters_prefix_split (s : string) :
  s = letters_prefix s +:+ PyStr.drop (String.length (letters_prefix s)) s.
Proof.
  induction s as [|a s IH]; [reflexivity|]. cbn [letters_prefix].
  destruct (is_ascii_letter a); [|reflexivity].
  cbn [String.length PyStr.drop].
  change (String a s
          = String a (letters_prefix s +:+ PyStr.drop (String.length (letters_prefix s)) s)).
  f_equal. exact IH.
Qed.

Lemma letters_prefix_letters (s : string) (c : ascii) :
  In c (list_ascii_of_string (letters_prefix s)) -> is_ascii_letter c = true.
Proof.
  induction s as [|a s IH]; cbn [letters_prefix]; [intros []|].
  destruct (is_ascii_letter a) eqn:Ha; [|intros []].
  intros [<-|H]; [exact Ha|apply IH; exact H].
Qed.

(** A word that is found is a run of at least three ASCII letters of the
    text. *)
Lemma findall_words_spec (s : string) :
  forall (prev_word : bool) (w : string),
    In w (findall_words prev_word s) ->
    (3 <= String.length w)%nat
    /\ (forall c, In c (list_ascii_of_string w) -> is_ascii_letter c = true)
    /\ exists before after, s = before +:+ w +:+ after.
Proof.
  induction s as [|a s IH]; intros prev_word w; [intros []|].
  cbn [findall_words].
  assert (Hrest : forall pw, In w (findall_words pw s) ->
                             (3 <= String.length w)%nat
                             /\ (forall c, In c (list_ascii_of_string w) ->
                                           is_ascii_letter c = true)
                             /\ exists before after, String a s = before +:+ w +:+ after).
  { intros pw Hin. destruct (IH pw w Hin) as (H1 & H2 & before & after & Hs).
    split; [exact H1|]. split; [exact H2|].
    exists (String a before), after. rewrite Hs. reflexivity. }
  destruct (is_ascii_letter a && negb prev_word); [|apply Hrest].
  destruct ((3 <=? String.length (letters_prefix (String a s)))%nat && _) eqn:Hmatch;
    [|apply Hrest].
  intros [<-|Hin]; [|exact (Hrest true Hin)].
  apply andb_true_iff in Hmatch as (Hlen & _). apply Nat.leb_le in Hlen.
  split; [exact Hlen|]. split; [apply letters_prefix_letters|].
  exists "", (PyStr.drop (String.length (letters_prefix (String a s))) (String a s)).
  apply letters_prefix_split.
Qed.

Lemma lower_char_not_upper (c : ascii) : between 65 90 (lower_char c) = false.
Proof. destruct c as [[] [] [] [] [] [] [] []]; reflexivity. Qed.

Lemma lower_chars (s : string) (c : ascii) :
  In c (list_ascii_of_string (lower s)) -> between 65 90 c = false.
Proof.
  induction s as [|a s IH]; cbn; [intros []|].
  intros [<-|H]; [apply lower_char_not_upper|apply IH; exact H].
Qed.

Lemma StronglySorted_lookup {A : Type} (R : A -> A -> Prop) (l : list A) :
  StronglySorted R l ->
  forall i j x y, (i < j)%nat -> l !! i = Some x -> l !! j = Some y -> R x y.
Proof.
  induction 1 as [|a l Hs IH Ha]; intros i j x y Hij Hi Hj; [destruct i; discriminate|].
  destruct j as [|j]; [lia|]. cbn in Hj.
  destruct i as [|i].
  - cbn in Hi. injection Hi as <-. rewrite List.Forall_forall in Ha.
    apply Ha. apply list_elem_of_In. eapply list_elem_of_lookup_2. exact Hj.
  - cbn in Hi. apply (IH i j); [lia|exact Hi|exact Hj].
Qed.

Lemma lookup_map {A B : Type} (f : A -> B) (l : list A) (i : nat) (b : B) :
  map f l !! i = Some b -> exists a, l !! i = Some a /\ f a = b.
Proof.
  revert i. induction l as [|x l IH]; intros [|i]; cbn; try discriminate.
  - intros [= <-]. eauto.
  - apply IH.
Qed.

(** X15.  For a limit that is not negative, the keywords are at most
    [max_keywords] different words.  Each of them occurs in the content
    in lower case as a run of at least three letters [a] to [z], and is
    no stop word.  They come in the order of their number of occurrences,
    the most frequent first, and a word of the content that qualifies is
    left out only when the limit is reached. *)
Theorem extract_keywords_spec (content : string) (max_keywords : Z)
        (Hmax : 0 <= max_keywords) :
  let words := findall_words false (lower content) in
  let keywords := extract_keywords content max_keywords in
  Z.of_nat (length keywords) <= max_keywords
  /\ NoDup keywords
  /\ (forall k, In k keywords ->
        In k words /\ is_stop_word k = false /\ (3 <= String.length k)%nat
        /\ (forall c, In c (list_ascii_of_string k) -> between 97 122 c = true)
        /\ exists before after, lower content = before +:+ k +:+ after)
  /\ (forall i j a b, (i < j)%nat -> keywords !! i = Some a -> keywords !! j = Some b ->
        (count_occ String.string_dec words b <= count_occ String.string_dec words a)%nat)
  /\ (forall w, In w words -> is_stop_word w = false ->
        In w keywords \/ Z.of_nat (length keywords) = max_keywords).
Proof.
  intros words keywords. subst keywords. unfold extract_keywords. fold words.
  destruct (word_frequencies_spec words) as (Hnd & Hpos & Hfreq & Hkeys).
  cbv zeta in Hnd, Hpos, Hfreq, Hkeys.
  set (freq := word_frequencies words) in *.
  pose proof (sort_by_count_perm freq) as Hperm.
  pose proof (sort_by_count_sorted freq) as Hsorted.
  set (sorted := sort_by_count freq) in *.
  unfold list_slice_to. rewrite adjust_nonneg by lia.
  set (n := Z.to_nat (Z.min max_keywords (Z.of_nat (length sorted)))).
  assert (Hn : (n <= length sorted)%nat) by lia.
  assert (Hin : forall k c, In (k, c) (firstn n sorted) ->
                            In k words /\ is_stop_word k = false
                            /\ c = count_occ String.string_dec words k).
  { intros k c H. apply In_firstn in H. apply (Permutation_in _ Hperm) in H.
    assert (Hk : In k (map fst freq)) by (apply in_map_iff; exists (k, c); auto).
    apply Hkeys in Hk as (Hw & Hs). split; [exact Hw|]. split; [exact Hs|].
    rewrite <- (frequency_In freq k c Hnd H), Hfreq, Hs. reflexivity. }
  split; [|split; [|split; [|split]]].
  - rewrite length_map, length_firstn. lia.
  - rewrite <- firstn_map. apply (sublist_NoDup _ (map fst sorted)); [|apply sublist_take].
    rewrite Hperm. exact Hnd.
  - intros k Hk. apply in_map_iff in Hk as ([k' c] & <- & Hk). cbn [fst].
    destruct (Hin k' c Hk) as (Hw & Hs & _).
    destruct (findall_words_spec (lower content) false k' Hw) as (Hlen & Hletters & Hsub).
    split; [exact Hw|]. split; [exact Hs|]. split; [exact Hlen|]. split; [|exact Hsub].
    intros c0 Hc0. specialize (Hletters c0 Hc0).
    destruct Hsub as (before & after & Hsub).
    assert (Hlow : between 65 90 c0 = false).
    { apply (lower_chars content). rewrite Hsub, !list_of_app.
      apply in_or_app. right. apply in_or_app. left. exact Hc0. }
    unfold is_ascii_letter in Hletters. rewrite Hlow in Hletters. exact Hletters.
  - intros i j a b Hij Ha Hb.
    apply lookup_map in Ha as ([a' ca] & Ha & <-).
    apply lookup_map in Hb as ([b' cb] & Hb & <-). cbn [fst].
    pose proof (StronglySorted_lookup by_count_desc _
                  (StronglySorted_firstn _ n _ Hsorted) i j _ _ Hij Ha Hb) as Hord.
    unfold by_count_desc in Hord. cbn [snd] in Hord.
    destruct (Hin a' ca) as (_ & _ & ->);
      [apply list_elem_of_In; eapply list_elem_of_lookup_2; exact Ha|].
    destruct (Hin b' cb) as (_ & _ & ->);
      [apply list_elem_of_In; eapply list_elem_of_lookup_2; exact Hb|].
    exact Hord.
  - intros w Hw Hs. rewrite length_map, length_firstn.
    destruct (Nat.eq_dec n (length sorted)) as [Hall|Hless]; [left|right; lia].
    rewrite Hall, firstn_all, Hperm. apply Hkeys. auto.
Qed.

(* --------------------------------------------------------------------- *)
(** ** The number of passes of the chunking loop                          *)
(* --------------------------------------------------------------------- *)

(** From a cursor that is [n] characters or less before the end, more
    than [n] passes are enough, and at most [n] chunks are added. *)
Lemma chunk_loop_passes (text : string) (chunk_size overlap : Z) :
  0 < chunk_size -> 0 <= overlap <= chunk_size / 2 ->
  forall (n : nat) (start : Z) (chunks : list string),
    0 <= start -> PyStr.len text - start <= Z.of_nat n ->
    exists r,
      (forall fuel, (n < fuel)%nat ->
                    chunk_loop fuel text chunk_size overlap start chunks = Some r)
      /\ (length r <= length chunks + n)%nat.
Proof.
  intros Hc Ho. induction n as [|n IH]; intros start chunks Hs Hn.
  - exists chunks. split; [|lia]. intros [|fuel] Hf; [lia|]. cbn [chunk_loop].
    destruct (Z.ltb_spec start (PyStr.len text)); [lia|reflexivity].
  - destruct (Z.ltb_spec start (PyStr.len text)) as [Hlt|Hge].
    + pose proof (next_start_advances text chunk_size overlap start Hs Hc Ho) as Hadv.
      unfold next_start in Hadv.
      destruct (chunk_body text chunk_size overlap start) as [chunk start'] eqn:Hbody.
      cbn [snd] in Hadv.
      destruct (IH start' (match chunk with Some c => chunks ++ [c] | None => chunks end)%list)
        as (r & Hloop & Hlen); [lia|lia|].
      exists r. split.
      * intros [|fuel] Hf; [lia|]. cbn [chunk_loop].
        destruct (Z.ltb_spec start (PyStr.len text)); [|lia].
        rewrite Hbody. apply Hloop. lia.
      * destruct chunk; [rewrite length_app in Hlen; cbn in Hlen|]; lia.
    + exists chunks. split; [|lia]. intros [|fuel] Hf; [lia|]. cbn [chunk_loop].
      destruct (Z.ltb_spec start (PyStr.len text)); [lia|reflexivity].
Qed.

Lemma embed_chunks_length {V : Type} (encode : string -> outcome V) :
  forall (chunks : list string) (i : nat) (embeddings : list (Embedding (V:=V))),
    (length (embed_chunks encode chunks i embeddings)
     <= length embeddings + length chunks)%nat.
Proof.
  induction chunks as [|chunk chunks IH]; intros i embeddings; cbn [embed_chunks length].
  - lia.
  - destruct (String.eqb (PyStr.strip chunk) ""); [specialize (IH (S i) embeddings); lia|].
    destruct (encode chunk) as [v|e]; [|lia].
    specialize (IH (S i) (embeddings ++ [{| kind := "chunk"; vector := v;
                                            content_text := chunk;
                                            chunk_index := Some i |}])%list).
    rewrite length_app in IH. cbn [length] in IH. lia.
Qed.

(** X16.  With a positive chunk size and an overlap of at most half of
    it, as for the sizes 1000 and 200 that the crawler uses, the chunking
    loop ends within as many passes as the text has characters, whatever
    the text: [_chunk_text] returns a list of chunks that is not longer
    than the text (or the text itself), and [generate_embeddings] returns
    at most one record more than there are chunks. *)
Theorem chunking_ends_within_length_passes
        {V : Type} (embedding_model : option (string -> outcome V))
        (text : string) (chunk_size overlap : Z)
        (Hsize : 0 < chunk_size)
        (Hoverlap : 0 <= overlap <= chunk_size / 2) :
  exists chunks embeddings,
    (length chunks <= Nat.max 1 (String.length text))%nat
    /\ (length embeddings <= 1 + length chunks)%nat
    /\ forall fuel,
        (String.length text < fuel)%nat ->
        _chunk_text fuel text chunk_size overlap = Some chunks
        /\ generate_embeddings embedding_model fuel text chunk_size overlap
           = Some embeddings.
Proof.
  destruct (chunk_loop_passes text chunk_size overlap Hsize Hoverlap
              (String.length text) 0 [] ltac:(lia) ltac:(unfold PyStr.len; lia))
    as (r & Hloop & Hlen).
  cbn [length] in Hlen.
  unfold generate_embeddings, _chunk_text.
  destruct (Z.leb_spec (PyStr.len text) chunk_size) as [Hle|Hgt].
  - exists [text].
    destruct (Z.gtb_spec (PyStr.len text) chunk_size) as [Hgt|_]; [lia|].
    destruct embedding_model as [encode|].
    + destruct (String.eqb text ""); [exists []; cbn; repeat split; lia|].
      destruct (encode text) as [v|e]; eexists; cbn [length]; repeat split; cbn; lia.
    + exists []. cbn. repeat split; lia.
  - destruct (Z.gtb_spec (PyStr.len text) chunk_size) as [_|Hle]; [|lia].
    exists r.
    destruct embedding_model as [encode|].
    + destruct (String.eqb text "");
        [exists []; cbn [length]; repeat split; try lia; apply Hloop; lia|].
      destruct (encode text) as [v|e].
      * eexists. split; [lia|]. split; [|intros fuel Hf; rewrite (Hloop fuel Hf); split;
                                         reflexivity].
        pose proof (embed_chunks_length encode r 0
                      [{| kind := "page"; vector := v; content_text := preview text;
                          chunk_index := None |}]) as Hemb.
        cbn [length] in Hemb. lia.
      * exists []. cbn [length]. repeat split; try lia. apply Hloop. lia.
    + exists []. cbn [length]. repeat split; try lia. apply Hloop. lia.
Qed.

(* --------------------------------------------------------------------- *)
(** ** The record of a page                                               *)
(* --------------------------------------------------------------------- *)

Lemma count_words_bound (s : string) :
  (2 * PyStr.count_words false s <= String.length s + 1)%nat
  /\ (2 * PyStr.count_words true s <= String.length s)%nat.
Proof.
  induction s as [|a s [IHf IHt]]; cbn [PyStr.count_words String.length]; [lia|].
  destruct (PyStr.isspace a); lia.
Qed.

Lemma count_words_zero (s : string) :
  PyStr.count_words false s = 0%nat
  <-> forall c, In c (list_ascii_of_string s) -> PyStr.isspace c = true.
Proof.
  induction s as [|a s IH]; cbn [PyStr.count_words list_ascii_of_string].
  - split; [intros _ c []|reflexivity].
  - destruct (PyStr.isspace a) eqn:Ha.
    + rewrite IH. split.
      * intros H c [<-|Hc]; [exact Ha|apply H; exact Hc].
      * intros H c Hc. apply H. right. exact Hc.
    + split; [discriminate|]. intros H. specialize (H a (or_introl eq_refl)). congruence.
Qed.

Section PageRecords.

Context {J : Type}.
Variable urljoin : string -> string -> string.
Variable netloc : string -> string.
Variable json_loads : option string -> json_result J.
Variable markdownify_soup : string -> outcome string.

Local Abbreviation extract_page_data :=
  (_extract_page_data urljoin netloc json_loads markdownify_soup).
Local Abbreviation crawl_page :=
  (_crawl_page urljoin netloc json_loads markdownify_soup).
Local Abbreviation step_directed :=
  (directed_body urljoin netloc json_loads markdownify_soup).
Local Abbreviation decoded :=
  (fun script : Tag =>
     match json_loads (tag_string script) with
     | Parsed schema_obj => [schema_obj]
     | _ => []
     end).

Lemma extract_schema_spec (scripts : list Tag) :
  forall schema_data,
    match extract_schema json_loads scripts schema_data with
    | Ret l =>
        l = (schema_data ++ flat_map decoded scripts)%list
        /\ forall script e, In script scripts ->
                            json_loads (tag_string script) <> OtherError e
    | Raise e =>
        exists script, In script scripts /\ json_loads (tag_string script) = OtherError e
    end.
Proof.
  induction scripts as [|script scripts IH]; intros schema_data;
    cbn [extract_schema flat_map].
  - rewrite app_nil_r. split; [reflexivity|]. intros script e [].
  - destruct (json_loads (tag_string script)) as [j| |msg] eqn:Hj.
    + specialize (IH (schema_data ++ [j])%list).
      destruct (extract_schema json_loads scripts _) as [l|e].
      * destruct IH as (-> & Hno). rewrite <- app_assoc. split; [reflexivity|].
        intros s e [<-|Hs]; [congruence|apply Hno; exact Hs].
      * destruct IH as (s & Hs & He). exists s. split; [right; exact Hs|exact He].
    + specialize (IH schema_data).
      destruct (extract_schema json_loads scripts _) as [l|e].
      * destruct IH as (-> & Hno). split; [reflexivity|].
        intros s e [<-|Hs]; [congruence|apply Hno; exact Hs].
      * destruct IH as (s & Hs & He). exists s. split; [right; exact Hs|exact He].
    + exists script. split; [left; reflexivity|exact Hj].
Qed.

(** X17.  The [schema_json] of a page record holds the JSON-LD blocks of
    the page that decode, in document order; a block that does not decode
    is left out, so the list is never longer than the number of blocks.
    No block of a page that has a record made [json.loads] raise another
    exception than a decoding error. *)
Theorem schema_json_holds_the_decoded_blocks
        (doc : Document) (u : string) (pd : PageData J)
        (Hpd : extract_page_data doc u = Ret pd) :
  let scripts := find_all (doc_tags doc) "script" (attr_is "type" "application/ld+json") in
  schema_json pd = flat_map decoded scripts
  /\ (length (schema_json pd) <= length scripts)%nat
  /\ (forall script e, In script scripts ->
                       json_loads (tag_string script) <> OtherError e).
Proof.
  intros scripts. unfold _extract_page_data in Hpd. fold scripts in Hpd.
  pose proof (extract_schema_spec scripts []) as Hspec.
  destruct (extract_schema json_loads scripts []) as [l|e]; cbn in Hpd; [|discriminate].
  destruct (ContentProcessor.html_to_markdown _ _) as [md|e]; cbn in Hpd; [|discriminate].
  injection Hpd as <-. cbn [schema_json].
  destruct Hspec as (-> & Hno). cbn [app].
  split; [reflexivity|]. split; [|exact Hno].
  clear. induction scripts as [|s scripts IH]; cbn [flat_map length]; [lia|].
  rewrite length_app. destruct (json_loads (tag_string s)); cbn [length]; lia.
Qed.

(** X18.  One JSON-LD block on which [json.loads] raises something else
    than a decoding error, as it does for a block without text, makes the
    whole page fail: no record is made of a page that loaded, and a
    directed crawl counts the URL as failed without an error text. *)
Theorem json_ld_type_error_fails_the_page
        (browser : Browser) (u : string) (page : PageEnv) (doc : Document)
        (script : Tag) (e : string) (r : Results)
        (Hpage : browser u = Ret page)
        (Hclose : pe_close page = None)
        (Hdoc : pe_document page = Ret doc)
        (Hscript : In script (doc_tags doc))
        (Hname : tag_name script = "script")
        (Htype : attrs script !! "type" = Some "application/ld+json")
        (Hraise : json_loads (tag_string script) = OtherError e) :
  (exists e', extract_page_data doc u = Raise e')
  /\ crawl_page browser u = Ret None
  /\ step_directed browser r u = add_failed r.
Proof.
  assert (Hx : exists e', extract_page_data doc u = Raise e').
  { unfold _extract_page_data.
    pose proof (extract_schema_spec
                  (find_all (doc_tags doc) "script" (attr_is "type" "application/ld+json"))
                  []) as Hspec.
    destruct (extract_schema json_loads _ []) as [l|e'].
    - destruct Hspec as (_ & Hno). exfalso. apply (Hno script e); [|exact Hraise].
      unfold find_all. apply filter_In. split; [exact Hscript|].
      unfold is_tag, attr_is. rewrite Hname, Htype. reflexivity.
    - exists e'. reflexivity. }
  assert (Hnone : crawl_page browser u = Ret None).
  { unfold _crawl_page, crawl_page_body. rewrite Hpage, Hclose.
    destruct (pe_route page); [reflexivity|].
    destruct (snd (_navigate_with_retries page 3)) as [[response|]|e0]; try reflexivity.
    destruct (status response >=? 400); [reflexivity|].
    rewrite Hdoc. cbn. destruct Hx as (e' & ->). reflexivity. }
  split; [exact Hx|]. split; [exact Hnone|].
  unfold directed_body. rewrite Hnone. reflexivity.
Qed.

(** X19.  The Markdown of a page record has at most 50003 characters and
    its word count is the number of words of that Markdown: at most
    25002, and zero exactly when the Markdown holds nothing but white
    space.  The HTML of the record is the one that was converted. *)
Theorem page_record_word_count
        (doc : Document) (u : string) (pd : PageData J)
        (Hpd : extract_page_data doc u = Ret pd) :
  html_to_markdown markdownify_soup (content_html pd) = Ret (content_md pd)
  /\ content_html pd = doc_content_html doc
  /\ PyStr.len (content_md pd) <= 50003
  /\ word_count pd = PyStr.count_words false (content_md pd)
  /\ Z.of_nat (word_count pd) <= 25002
  /\ (word_count pd = 0%nat
      <-> forall c, In c (list_ascii_of_string (content_md pd)) -> PyStr.isspace c = true).
Proof.
  unfold _extract_page_data in Hpd.
  destruct (extract_schema json_loads _ []) as [l|e]; cbn in Hpd; [|discriminate].
  destruct (ContentProcessor.html_to_markdown _ _) as [md|e] eqn:Hmd; cbn in Hpd;
    [|discriminate].
  injection Hpd as <-. cbn [content_html content_md word_count].
  assert (Hlen : PyStr.len md <= 50003).
  { unfold html_to_markdown in Hmd.
    destruct (String.eqb (doc_content_html doc) "").
    - injection Hmd as <-. unfold PyStr.len. cbn. lia.
    - destruct (markdownify_soup (doc_content_html doc)) as [raw|e]; cbn in Hmd;
        [|discriminate].
      injection Hmd as <-.
      pose proof (clean_markdown_cases raw) as Hcases. cbn zeta in Hcases.
      unfold max_chars in Hcases.
      destruct Hcases as [[Hle ->]|(_ & _ & Hl)]; lia. }
  split; [exact Hmd|]. split; [reflexivity|]. split; [exact Hlen|].
  split; [reflexivity|]. split; [|apply count_words_zero].
  pose proof (count_words_bound md) as [Hb _]. unfold PyStr.len in Hlen. lia.
Qed.

End PageRecords.

(* --------------------------------------------------------------------- *)
(** ** The properties on the scenarios                                    *)
(* --------------------------------------------------------------------- *)

Local Abbreviation site_body :=
  (full_site_body Scenario.urljoin Scenario.netloc Scenario.json_loads
                  Scenario.plain_text Scenario.in_order
                  Scenario.browser_site (Scenario.config 10 1)).
Local Abbreviation site_reach :=
  (reachable Scenario.urljoin Scenario.netloc Scenario.json_loads
             Scenario.plain_text Scenario.in_order
             Scenario.browser_site (Scenario.config 10 1)
             (start_frontier "a" new_results)).
Local Abbreviation crawl_full_site_S :=
  (_crawl_full_site Scenario.urljoin Scenario.netloc Scenario.json_loads
                    Scenario.plain_text Scenario.in_order).
Local Abbreviation crawl_site_S :=
  (crawl_site Scenario.urljoin Scenario.netloc Scenario.json_loads
              Scenario.plain_text Scenario.in_order).
Local Abbreviation step_directed_S :=
  (directed_body Scenario.urljoin Scenario.netloc Scenario.json_loads
                 Scenario.plain_text).

(** X3, on the site of three pages: its browser hands out a page for
    every URL, and no page raises when it is closed. *)
Lemma errors_need_a_page_handle_failure_witness :
  (forall urls, errors (directed_S Scenario.browser_site urls new_results) = [])
  /\ (forall st, site_reach st -> errors (results st) = []).
Proof.
  apply (errors_need_a_page_handle_failure
           Scenario.urljoin Scenario.netloc Scenario.json_loads Scenario.plain_text
           Scenario.in_order Scenario.browser_site (Scenario.config 10 1) "a").
  intros u. unfold Scenario.browser_site.
  destruct (String.eqb u "https://a"); eexists; split; reflexivity.
Defined.

(** X4, on the site of three pages with a limit of ten pages. *)
Lemma full_site_crawl_accounts_witness :
  (exists fuel r,
      crawl_full_site_S fuel Scenario.browser_site (Scenario.config 10 1) "a" new_results
      = Some r)
  /\ (forall fuel r,
         crawl_full_site_S fuel Scenario.browser_site (Scenario.config 10 1) "a"
                           new_results = Some r ->
         total_pages r = (pages_crawled r + pages_failed r)%nat
         /\ Z.of_nat (total_pages r) <= max_pages (Scenario.config 10 1)
         /\ (length (errors r) <= pages_failed r)%nat).
Proof.
  apply (full_site_crawl_accounts
           Scenario.urljoin Scenario.netloc Scenario.json_loads Scenario.plain_text
           Scenario.in_order Scenario.browser_site (Scenario.config 10 1) "a").
  cbn. lia.
Defined.

(** X5, after the first pass over the site of three pages: the three
    pages are in the queue, all at depth 1. *)
Lemma queue_is_in_level_order_witness :
  to_visit (site_body (start_frontier "a" new_results))
  = [("https://a/p1", 1); ("https://a/p2", 1); ("https://a/p3", 1)]
  /\ StronglySorted level_order (to_visit (site_body (start_frontier "a" new_results)))
  /\ Forall (fun e => 0 <= snd e <= Z.max 0 (max_depth (Scenario.config 10 1)))
            (to_visit (site_body (start_frontier "a" new_results)))
  /\ (forall u d rest,
         to_visit (site_body (start_frontier "a" new_results)) = (u, d) :: rest ->
         visited (site_body (site_body (start_frontier "a" new_results)))
         <> visited (site_body (start_frontier "a" new_results)) ->
         (u ∉ visited (site_body (start_frontier "a" new_results)))
         /\ 0 <= d <= max_depth (Scenario.config 10 1)
         /\ visited (site_body (site_body (start_frontier "a" new_results)))
            = {[u]} ∪ visited (site_body (start_frontier "a" new_results))).
Proof.
  split; [vm_compute; reflexivity|].
  apply (queue_is_in_level_order
           Scenario.urljoin Scenario.netloc Scenario.json_loads Scenario.plain_text
           Scenario.in_order Scenario.browser_site (Scenario.config 10 1) "a" new_results
           (site_body (start_frontier "a" new_results))).
  apply reach_step; [apply reach_start|vm_compute; reflexivity].
Defined.

(** X6, with a limit of zero pages. *)
Lemma crawl_with_degenerate_limits_witness :
  crawl_site_S 2 Scenario.browser_site (Scenario.config 0 3) "a" None = Some new_results
  /\ crawl_status (start_crawl_task Scenario.pending_crawl None new_results) = COMPLETED.
Proof.
  apply (crawl_with_degenerate_limits
           Scenario.urljoin Scenario.netloc Scenario.json_loads Scenario.plain_text
           Scenario.in_order Scenario.browser_site (Scenario.config 0 3) "a" None 2
           Scenario.pending_crawl).
  - left. cbn. lia.
  - left. reflexivity.
  - lia.
Defined.

(** X7, on the URL of scenario C that answers 404. *)
Lemma failed_crawl_has_empty_message_witness :
  exists r,
    crawl_site_S 0 Scenario.browser_C (Scenario.config 10 1) "a" (Some ["https://a/404"])
    = Some r
    /\ pages_crawled r = 0%nat
    /\ pages_failed r = length ["https://a/404"]
    /\ errors r = []
    /\ crawl_status (start_crawl_task Scenario.pending_crawl None r) = FAILED
    /\ error_message (start_crawl_task Scenario.pending_crawl None r) = Some "".
Proof.
  apply (failed_crawl_has_empty_message
           Scenario.urljoin Scenario.netloc Scenario.json_loads Scenario.plain_text
           Scenario.in_order Scenario.browser_C (Scenario.config 10 1) "a" 0
           ["https://a/404"] Scenario.pending_crawl).
  - discriminate.
  - intros u [<-|[]]. exists (Scenario.page_with_status 404 []).
    split; [reflexivity|]. split; [reflexivity|].
    intros response H. vm_compute in H. injection H as <-. vm_compute. discriminate.
Defined.

(** X11, on two sentences cut in chunks of twenty with an overlap of
    four. *)
Lemma chunks_are_trimmed_and_bounded_witness :
  _chunk_text 10 Scenario.sentences 20 4
  = Some ["The cat sat on the"; "the mat. The dog"; "dog sat on the cat."; "cat."]
  /\ (PyStr.len Scenario.sentences <= 20 ->
      ["The cat sat on the"; "the mat. The dog"; "dog sat on the cat."; "cat."]
      = [Scenario.sentences])
  /\ (20 < PyStr.len Scenario.sentences ->
      Forall (fun c => c <> "" /\ PyStr.strip c = c /\ PyStr.len c <= 20)
             ["The cat sat on the"; "the mat. The dog"; "dog sat on the cat."; "cat."]).
Proof.
  split; [vm_compute; reflexivity|].
  apply (chunks_are_trimmed_and_bounded 10 Scenario.sentences 20 4); [lia|].
  vm_compute. reflexivity.
Defined.

(** X13, on the two sentences: the record of the page and four chunk
    records. *)
Lemma generate_embeddings_shape_witness :
  exists embeddings,
    generate_embeddings Scenario.length_model 10 Scenario.sentences 20 4 = Some embeddings
    /\ length embeddings = 5%nat
    /\ ((embeddings = []
         /\ (Scenario.length_model = None \/ Scenario.sentences = ""
             \/ exists encode e,
                 Scenario.length_model = Some encode
                 /\ encode Scenario.sentences = Raise e))
        \/ (exists encode v records,
               Scenario.length_model = Some encode /\ Scenario.sentences <> ""
               /\ encode Scenario.sentences = Ret v
               /\ embeddings
                  = {| kind := "page"; vector := v;
                       content_text := preview Scenario.sentences;
                       chunk_index := None |} :: records
               /\ PyStr.len (preview Scenario.sentences) <= 503
               /\ ((PyStr.len Scenario.sentences <= 20 /\ records = [])
                   \/ (20 < PyStr.len Scenario.sentences
                       /\ exists chunks m,
                           _chunk_text 10 Scenario.sentences 20 4 = Some chunks
                           /\ (m <= length chunks)%nat
                           /\ map content_text records = firstn m chunks
                           /\ map chunk_index records = map Some (seq 0 m)
                           /\ Forall (fun e => kind e = "chunk"
                                               /\ encode (content_text e) = Ret (vector e))
                                     records
                           /\ ((m < length chunks)%nat ->
                               exists c e, chunks !! m = Some c /\ encode c = Raise e))))).
Proof.
  eexists. split; [vm_compute; reflexivity|]. split; [reflexivity|].
  apply (generate_embeddings_shape Scenario.length_model 10 Scenario.sentences 20 4);
    [lia|vm_compute; reflexivity].
Defined.

(** X15, on the two sentences: [the] and [on] are left out, [cat] and
    [sat] occur twice and come first. *)
Lemma extract_keywords_spec_witness :
  extract_keywords Scenario.sentences 10 = ["cat"; "sat"; "mat"; "dog"]
  /\ (let words := findall_words false (lower Scenario.sentences) in
      let keywords := extract_keywords Scenario.sentences 10 in
      Z.of_nat (length keywords) <= 10
      /\ NoDup keywords
      /\ (forall k, In k keywords ->
            In k words /\ is_stop_word k = false /\ (3 <= String.length k)%nat
            /\ (forall c, In c (list_ascii_of_string k) -> between 97 122 c = true)
            /\ exists before after, lower Scenario.sentences = before +:+ k +:+ after)
      /\ (forall i j a b, (i < j)%nat -> keywords !! i = Some a -> keywords !! j = Some b ->
            (count_occ String.string_dec words b <= count_occ String.string_dec words a)%nat)
      /\ (forall w, In w words -> is_stop_word w = false ->
            In w keywords \/ Z.of_nat (length keywords) = 10)).
Proof.
  split; [vm_compute; reflexivity|].
  apply (extract_keywords_spec Scenario.sentences 10). lia.
Defined.

(** X16, for the sizes that the crawler uses, 1000 and 200. *)
Lemma chunking_ends_within_length_passes_witness :
  exists chunks embeddings,
    (length chunks <= Nat.max 1 (String.length Scenario.sentences))%nat
    /\ (length embeddings <= 1 + length chunks)%nat
    /\ forall fuel,
        (String.length Scenario.sentences < fuel)%nat ->
        _chunk_text fuel Scenario.sentences 1000 200 = Some chunks
        /\ generate_embeddings Scenario.length_model fuel Scenario.sentences 1000 200
           = Some embeddings.
Proof.
  apply (chunking_ends_within_length_passes Scenario.length_model Scenario.sentences
                                            1000 200).
  - lia.
  - change (1000 / 2) with 500. lia.
Defined.

(** X17, on a page with two JSON-LD blocks that decode. *)
Lemma schema_json_holds_the_decoded_blocks_witness :
  exists pd,
    extract_S (Scenario.document [Scenario.json_ld (Some "{}");
                                  Scenario.json_ld (Some "[1]")]) "https://a"
    = Ret pd
    /\ schema_json pd = ["{}"; "[1]"]
    /\ (let scripts :=
          find_all (doc_tags (Scenario.document [Scenario.json_ld (Some "{}");
                                                 Scenario.json_ld (Some "[1]")]))
                   "script" (attr_is "type" "application/ld+json") in
        schema_json pd
        = flat_map (fun script : Tag =>
                      match Scenario.json_loads (tag_string script) with
                      | Parsed schema_obj => [schema_obj]
                      | _ => []
                      end) scripts
        /\ (length (schema_json pd) <= length scripts)%nat
        /\ (forall script e, In script scripts ->
                             Scenario.json_loads (tag_string script) <> OtherError e)).
Proof.
  eexists. split; [vm_compute; reflexivity|]. split; [reflexivity|].
  apply (schema_json_holds_the_decoded_blocks
           Scenario.urljoin Scenario.netloc Scenario.json_loads Scenario.plain_text
           (Scenario.document [Scenario.json_ld (Some "{}"); Scenario.json_ld (Some "[1]")])
           "https://a").
  vm_compute. reflexivity.
Defined.

(** X18, on a page that loads with status 200 and has a JSON-LD block
    without text. *)
Lemma json_ld_type_error_fails_the_page_witness :
  (exists e',
      extract_S (Scenario.document [Scenario.json_ld None]) "https://a" = Raise e')
  /\ crawl_page_S (fun _ => Ret (Scenario.page_with_status 200 [Scenario.json_ld None]))
                  "https://a"
     = Ret None
  /\ step_directed_S (fun _ => Ret (Scenario.page_with_status 200 [Scenario.json_ld None]))
                     new_results "https://a"
     = add_failed new_results.
Proof.
  apply (json_ld_type_error_fails_the_page
           Scenario.urljoin Scenario.netloc Scenario.json_loads Scenario.plain_text
           (fun _ => Ret (Scenario.page_with_status 200 [Scenario.json_ld None]))
           "https://a" (Scenario.page_with_status 200 [Scenario.json_ld None])
           (Scenario.document [Scenario.json_ld None]) (Scenario.json_ld None)
           "the JSON object must be str, bytes or bytearray, not NoneType" new_results).
  - reflexivity.
  - reflexivity.
  - reflexivity.
  - left. reflexivity.
  - reflexivity.
  - reflexivity.
  - reflexivity.
Defined.

(** X19, on a page whose content is [hello world]. *)
Lemma page_record_word_count_witness :
  exists pd,
    extract_S (Scenario.document []) "https://a" = Ret pd
    /\ word_count pd = 2%nat
    /\ html_to_markdown Scenario.plain_text (content_html pd) = Ret (content_md pd)
    /\ content_html pd = doc_content_html (Scenario.document [])
    /\ PyStr.len (content_md pd) <= 50003
    /\ word_count pd = PyStr.count_words false (content_md pd)
    /\ Z.of_nat (word_count pd) <= 25002
    /\ (word_count pd = 0%nat
        <-> forall c, In c (list_ascii_of_string (content_md pd)) ->
                      PyStr.isspace c = true).
Proof.
  eexists. split; [vm_compute; reflexivity|]. split; [reflexivity|].
  apply (page_record_word_count
           Scenario.urljoin Scenario.netloc Scenario.json_loads Scenario.plain_text
           (Scenario.document []) "https://a").
  vm_compute. reflexivity.
Defined.
